(** * FMCG analyser: reconciliation pipeline and RFMCP scoring

    A shallow embedding of [data_loader.py] (the reconciliation of the
    credit, sales and margin extracts into the persisted ledger) and of
    [scoring.py] (the SQL scoring query and the RFMCP scores computed from
    it), followed by the properties established about them.

    Conventions of the embedding:
    - a table (pandas DataFrame, SQL relation) is a [list] of records, in
      row order;
    - a missing value (None, NaN, NaT, SQL NULL) is [None] in an [option];
    - a timestamp is an integer number of seconds ([Time]);
    - quantities that the loader rounds to integers are [Z]; sums and
      products of a column of them are computed in the dtype of the column,
      [int64] with its wrap-around or [float64]; ratios that pandas computes
      in floating point are exact rationals [Q], wrapped in [npfloat] where
      numpy can produce an infinity or a NaN.  Rounding error of the binary
      representation is not modelled;
    - a Python call either returns a value, returns [None], or raises:
      type [outcome]. *)

From Stdlib Require Import ZArith List String Ascii Bool Lia.
From Stdlib Require Import DecimalString Decimal DecimalZ.
From Stdlib Require Import QArith Qround Qabs Qminmax Qfield Lqa.
From Stdlib Require Import Permutation Sorted.
Import ListNotations.

Local Open Scope string_scope.
Local Open Scope list_scope.
Local Open Scope Z_scope.

Set Implicit Arguments.

(* ================================================================== *)
(** * Part I. Definitions *)
(* ================================================================== *)

(** ** Python outcomes *)

Inductive outcome (A : Type) : Type :=
| Returned (a : A)      (* normal return with a value *)
| ReturnedNone          (* [return None] *)
| Raised.               (* an exception escapes the function *)

Arguments Returned {A} a.
Arguments ReturnedNone {A}.
Arguments Raised {A}.

Definition bind {A B} (m : outcome A) (k : A -> outcome B) : outcome B :=
  match m with
  | Returned a => k a
  | ReturnedNone => ReturnedNone
  | Raised => Raised
  end.

Notation "x <- m ;; k" := (bind m (fun x => k))
  (at level 61, m at next level, right associativity).

Definition Time := Z.

Definition SECONDS_PER_DAY : Z := 86400.

(** ** Generic table operations (pandas) *)

Section Tables.
Variable A : Type.
Variable same : A -> A -> bool.   (* equality of the [subset] key columns *)

(** [DataFrame.drop_duplicates(subset, keep='last')]: a row is kept when
    no later row has the same key; the kept rows stay in order. *)
Fixpoint drop_duplicates_last (l : list A) : list A :=
  match l with
  | [] => []
  | x :: rest =>
      if existsb (same x) rest
      then drop_duplicates_last rest
      else x :: drop_duplicates_last rest
  end.

(** [DataFrame.drop_duplicates(subset, keep='first')]: rows are visited in
    order with the keys seen so far; a row whose key was seen is dropped. *)
Fixpoint drop_duplicates_from (seen : list A) (l : list A) : list A :=
  match l with
  | [] => []
  | x :: rest =>
      if existsb (same x) seen
      then drop_duplicates_from seen rest
      else x :: drop_duplicates_from (x :: seen) rest
  end.

Definition drop_duplicates_first (l : list A) : list A :=
  drop_duplicates_from [] l.
End Tables.

(** [pd.merge(left, right, how='left')]: every left row is paired, in order,
    with each matching right row, or once with nothing when none matches. *)
Definition merge_left {L R O : Type} (matches : L -> R -> bool)
    (combine : L -> option R -> O) (left : list L) (right : list R) : list O :=
  flat_map (fun l =>
              match filter (matches l) right with
              | [] => [combine l None]
              | rs => map (fun r => combine l (Some r)) rs
              end) left.

Definition fillna {A} (default : A) (v : option A) : A :=
  match v with Some a => a | None => default end.

(** Equality of nullable keys as pandas groups, deduplicates and merges them:
    two missing values are the same key. *)
Definition opt_string_eqb (a b : option string) : bool :=
  match a, b with
  | Some x, Some y => String.eqb x y
  | None, None => true
  | _, _ => false
  end.

Definition opt_Z_eqb (a b : option Z) : bool :=
  match a, b with
  | Some x, Some y => Z.eqb x y
  | None, None => true
  | _, _ => false
  end.

(** ** [DataFrame.sort_values]

    [sort_values] uses numpy's quicksort, which is not stable: the result is
    some arrangement of the rows that is ordered by the key; rows with equal
    keys come in an order the library does not fix.  The pipeline is therefore
    parametrised by the sort, of which only these two facts are assumed. *)

Class SortValues : Type :=
  sort_values : forall (A : Type), (A -> A -> bool) -> list A -> list A.

Class SortValuesLaws (S : SortValues) : Prop := {
  sort_values_perm :
    forall (A : Type) (le : A -> A -> bool) (l : list A),
      Permutation l (sort_values le l);
  sort_values_sorted :
    forall (A : Type) (le : A -> A -> bool) (l : list A),
      (forall a b, le a b = true \/ le b a = true) ->
      (forall a b c, le a b = true -> le b c = true -> le a c = true) ->
      StronglySorted (fun a b => le a b = true) (sort_values le l)
}.

(** A reference sort (insertion sort, stable), used to run the model. *)
Fixpoint insert_sorted {A} (le : A -> A -> bool) (x : A) (l : list A) : list A :=
  match l with
  | [] => [x]
  | y :: rest => if le x y then x :: y :: rest else y :: insert_sorted le x rest
  end.

Definition insertion_sort {A} (le : A -> A -> bool) (l : list A) : list A :=
  fold_right (insert_sorted le) [] l.

#[export] Instance insertion_sort_values : SortValues :=
  fun A le l => insertion_sort le l.

(** Order of a nullable date column with [na_position='last'] (the default),
    ascending or descending. *)
Definition date_le (ascending : bool) (a b : option Time) : bool :=
  match a, b with
  | Some x, Some y => if ascending then x <=? y else y <=? x
  | Some _, None => true
  | None, Some _ => false
  | None, None => true
  end.

(** ** Machine integers (numpy [int64])

    The integer fields that the validators deliver hold values of the [int64]
    range.  A column of such values without a missing value is held as
    [int64], whose arithmetic wraps around silently; a column with a missing
    value is held as [float64], whose arithmetic on integers is exact as long
    as the results stay within 2^53 in absolute value, and is taken as exact
    here. *)

Definition INT64_MIN : Z := - 2 ^ 63.
Definition INT64_MAX : Z := 2 ^ 63 - 1.

Definition in_int64 (z : Z) : bool := (INT64_MIN <=? z) && (z <=? INT64_MAX).

(** The value of [z] as a 64-bit two's-complement integer. *)
Definition wrap64 (z : Z) : Z := (z + 2 ^ 63) mod 2 ^ 64 - 2 ^ 63.

(** Conversion of a Python int to a C long: OverflowError ([None]) outside
    the range. *)
Definition to_int64 (z : Z) : option Z := if in_int64 z then Some z else None.

Definition and_then {A B} (m : option A) (k : A -> option B) : option B :=
  match m with Some a => k a | None => None end.

(** The dtype of a cleaned integer column: [int64] ([true]) when no value is
    missing, [float64] otherwise. *)
Definition int64_column (col : list (option Z)) : bool :=
  forallb (fun v => match v with Some _ => true | None => false end) col.

(** Addition and multiplication of two elements of a column of that dtype. *)
Definition add_as (int64 : bool) (a b : Z) : Z :=
  if int64 then wrap64 (a + b) else a + b.

Definition mul_as (int64 : bool) (a b : Z) : Z :=
  if int64 then wrap64 (a * b) else a * b.

(** [Series.sum()] and the groupby [sum] of a column of that dtype: the
    values are accumulated from 0, missing values being skipped. *)
Definition sum_as (int64 : bool) (values : list Z) : Z :=
  fold_left (add_as int64) values 0.

(** The range within which [int64] and [float64] sums of integers are both
    exact: the absolute values add up to at most 2^53. *)
Definition magnitude (values : list Z) : Z :=
  fold_right Z.add 0 (map Z.abs values).

Definition exactly_summable (values : list Z) : Prop :=
  magnitude values <= 2 ^ 53.

(** ** Identity standardizer ([load_clean_and_merge_data], STEP 3B)

    A customer code as the column read by [read_excel] holds it:
    - [CodeNaN]: a blank cell;
    - [CodeInt z]: an element of an [int64] column, or a Python int in a
      column of mixed content (dtype [object]), where it can be of any size;
    - [CodeUInt z]: an element of a [uint64] column, which pandas builds when
      no code is negative and one is 2^63 or more (0 <= z < 2^64);
    - [CodeFloat z]: a float holding the integral value [z], with
      |z| < 10^16, so that [str] prints it as the digits of [z] followed by
      [.0]; customer codes are integer codes, non-integral and non-finite
      floats are outside the model;
    - [CodeStr s]: a string, [s] listing its characters one by one, each
      below U+0100. *)

Inductive RawCode : Type :=
| CodeNaN
| CodeInt (z : Z)
| CodeUInt (z : Z)
| CodeFloat (z : Z)
| CodeStr (s : string).

(** [str] of a Python int. *)
Definition str_of_int (z : Z) : string :=
  NilEmpty.string_of_int (Z.to_int z).

(** [str] of a float with an integral value. *)
Definition str_of_whole_float (z : Z) : string :=
  (str_of_int z ++ ".0")%string.

(** [int(s)] for a Python string: surrounding whitespace is ignored, an
    optional sign is followed by decimal digits, single underscores may
    separate digits.  [None] stands for ValueError.

    The whitespace that [int] skips is that of C's [isspace] (tab, line feed,
    vertical tab, form feed, carriage return, space), to which the
    characters above U+007E that are Unicode whitespace are mapped first:
    below U+0100 these are U+0085 and U+00A0.  The separators U+001C to
    U+001F, which [str.strip] removes, are not skipped. *)
Definition is_space (c : ascii) : bool :=
  let n := nat_of_ascii c in
  ((9 <=? n) && (n <=? 13) || (n =? 32) || (n =? 133) || (n =? 160))%nat.

Definition digit_of (c : ascii) : option Z :=
  let n := nat_of_ascii c in
  if ((48 <=? n) && (n <=? 57))%nat then Some (Z.of_nat (n - 48)) else None.

Fixpoint lstrip (s : string) : string :=
  match s with
  | String c rest => if is_space c then lstrip rest else s
  | EmptyString => EmptyString
  end.

Fixpoint rstrip (s : string) : string :=
  match s with
  | EmptyString => EmptyString
  | String c rest =>
      match rstrip rest with
      | EmptyString => if is_space c then EmptyString else String c EmptyString
      | rest' => String c rest'
      end
  end.

Definition strip (s : string) : string := rstrip (lstrip s).

Fixpoint digits_value (acc : Z) (after_digit : bool) (s : string) : option Z :=
  match s with
  | EmptyString => if after_digit then Some acc else None
  | String c rest =>
      match digit_of c with
      | Some d => digits_value (10 * acc + d) true rest
      | None =>
          if (Ascii.eqb c "_" && after_digit)%bool
          then digits_value acc false rest
          else None
      end
  end.

Definition py_int_of_str (s : string) : option Z :=
  match strip s with
  | String "-" rest => option_map Z.opp (digits_value 0 false rest)
  | String "+" rest => digits_value 0 false rest
  | t => digits_value 0 false t
  end.

(** Credit side: [credit_df['customer_code'].fillna(-1).astype(int).astype(str)].
    [astype(int)] converts to [int64]: an [int64] element is kept, a [uint64]
    element wraps around, a Python int, a float or a string of a mixed column
    goes through [int()] and must fit, a float of a [float64] column is
    truncated.  [None] stands for the exception that [astype(int)] raises:
    ValueError on a string that is not an integer literal, OverflowError on
    a value outside the [int64] range.  (The conversion of a [float64]
    element outside that range is left to the hardware by numpy and is not
    modelled: the model treats it like the float of a mixed column.) *)
Definition standardize_credit (c : RawCode) : option string :=
  match c with
  | CodeNaN => Some (str_of_int (-1))
  | CodeInt z => option_map str_of_int (to_int64 z)
  | CodeUInt z => Some (str_of_int (wrap64 z))
  | CodeFloat z => option_map str_of_int (to_int64 z)
  | CodeStr s => option_map str_of_int (and_then (py_int_of_str s) to_int64)
  end.

(** Sales side: [sales_df['customer_code'].astype(str)]. *)
Definition standardize_sales (c : RawCode) : string :=
  match c with
  | CodeNaN => "nan"
  | CodeInt z => str_of_int z
  | CodeUInt z => str_of_int z
  | CodeFloat z => str_of_whole_float z
  | CodeStr s => s
  end.

(** Equality of raw codes as [drop_duplicates] sees them before the
    standardization: numbers by value (7 and 7.0 are one key), strings by
    content, NaN equal to NaN, a string never equal to a number. *)
Definition raw_code_eqb (a b : RawCode) : bool :=
  match a, b with
  | CodeNaN, CodeNaN => true
  | (CodeInt x | CodeUInt x | CodeFloat x), (CodeInt y | CodeUInt y | CodeFloat y) =>
      Z.eqb x y
  | CodeStr s, CodeStr t => String.eqb s t
  | _, _ => false
  end.

(** ** Data model of the reconciliation ([data_loader.py])

    The rows below are the extracts after the renaming of the columns and
    after the per-field cleaning of [validator.py] (STEP 1 and STEP 3), which
    leaves every field but [customer_code] either cleaned or missing; the
    customer code is still as read, since the loader standardizes it
    separately.  The credit extract has the three configured columns
    ([config.CREDIT_RENAME]). *)

Record CreditRec (C : Type) : Type := mkCredit {
  cr_customer_code : C;
  cr_balance : option Z;
  cr_last_invoice_date : option Time
}.

Record SalesLine (C : Type) : Type := mkSales {
  invoice_number : option string;
  delivery_date : option Time;
  booker_name : option string;
  customer_code : C;
  customer_name : option string;
  product_name : option string;
  quantity : option Z;
  amount : option Z;
  company : option string;
  route : option string
}.

Record MarginRec : Type := mkMargin {
  mg_invoice_number : option string;
  amount_from_margin : option Z;
  mg_profit : option Z
}.

(** One row of [sales_aggregated] (STEP 6). *)
Record SalesAgg : Type := mkAgg {
  ag_customer_code : string;
  total_sales_amount : Z;
  total_quantity : Z;
  last_delivery_date : option Time;
  invoice_count : Z;
  ag_customer_name : option string;
  ag_route : option string;
  ag_booker_name : option string;
  ag_company : option string
}.

(** One row of [final_df], the customer summary (STEPS 8, 10, 11). *)
Record CustomerSummary : Type := mkSummary {
  cs_customer_code : string;
  cs_balance : option Z;
  cs_last_invoice_date : option Time;
  cs_total_sales_amount : Z;
  cs_total_quantity : Z;
  cs_last_delivery_date : option Time;
  cs_invoice_count : Z;
  cs_route : string;
  cs_booker_name : string;
  cs_company : string;
  days_since_last_sale : Z
}.

(** One row of [sales_detailed], the transaction detail (STEPS 9, 10). *)
Record DetailRow : Type := mkDetail {
  dt_line : SalesLine string;
  dt_profit : Z;
  dt_balance : Z;
  dt_last_invoice_date : option Time
}.

(** What [pd.read_excel] does with one source file. *)
Inductive file_read (A : Type) : Type :=
| FileNotFound            (* FileNotFoundError *)
| ReadError               (* any other exception while reading *)
| FileData (rows : list A).

Arguments FileNotFound {A}.
Arguments ReadError {A}.
Arguments FileData {A} rows.

(** One row of the persisted table [sales_data]; SQL columns are nullable. *)
Record LedgerRow : Type := mkLedger {
  db_invoice_number : option string;
  db_delivery_date : option Time;
  db_booker_name : option string;
  db_customer_code : string;
  db_customer_name : option string;
  db_product_name : option string;
  db_quantity : option Z;
  db_amount : option Z;
  db_company : option string;
  db_route : option string;
  db_profit : option Z;
  db_balance : option Z;
  db_last_invoice_date : option Time
}.

(** The store: table [sales_data], when it exists. *)
Definition Database := option (list LedgerRow).

(** Everything the loader reads from outside. *)
Record Sources : Type := mkSources {
  credit_file : file_read (CreditRec RawCode);
  sales_files : list (file_read (SalesLine RawCode));
  margin_file : file_read MarginRec;
  today : Time;
  (* when the write of [update_database] raises: what the store is left with *)
  db_write_failure : option Database
}.

(** ** Column aggregations (pandas groupby, skipping missing values) *)

Definition notnull {A} (l : list (option A)) : list A :=
  flat_map (fun v => match v with Some a => [a] | None => [] end) l.

Definition sum_notnull (l : list (option Z)) : Z :=
  fold_right Z.add 0 (notnull l).

Definition max_notnull (l : list (option Z)) : option Z :=
  match notnull l with
  | [] => None
  | x :: rest => Some (fold_right Z.max x rest)
  end.

Definition min_notnull (l : list (option Z)) : option Z :=
  match notnull l with
  | [] => None
  | x :: rest => Some (fold_right Z.min x rest)
  end.

Definition first_notnull {A} (l : list (option A)) : option A :=
  hd_error (notnull l).

Definition nunique_strings (l : list (option string)) : Z :=
  Z.of_nat (List.length (drop_duplicates_first String.eqb (notnull l))).

(** Rows grouped by key, groups in order of first appearance of the key. *)
Definition group_rows {R K} (keyeq : K -> K -> bool) (key : R -> K)
    (rows : list R) : list (K * list R) :=
  map (fun k => (k, filter (fun r => keyeq (key r) k) rows))
      (drop_duplicates_first keyeq (map key rows)).

(** ** The pipeline, step by step *)

(** STEP 1: balance sign inversion ([credit_df['balance'] * -1], in the
    dtype of the column), then one record per raw code (keep last). *)
Definition invert_balance {C} (int64 : bool) (r : CreditRec C) : CreditRec C :=
  mkCredit (cr_customer_code r)
           (option_map (fun b => mul_as int64 b (-1)) (cr_balance r))
           (cr_last_invoice_date r).

Definition load_credit (rows : list (CreditRec RawCode)) : list (CreditRec RawCode) :=
  let int64 := int64_column (map (@cr_balance RawCode) rows) in
  drop_duplicates_last
    (fun a b => raw_code_eqb (cr_customer_code a) (cr_customer_code b))
    (map (invert_balance int64) rows).

(** STEP 2: every sales file is read in turn; [None] when one cannot be. *)
Fixpoint read_sales_files (fs : list (file_read (SalesLine RawCode)))
  : option (list (list (SalesLine RawCode))) :=
  match fs with
  | [] => Some []
  | FileData rows :: rest => option_map (cons rows) (read_sales_files rest)
  | _ :: _ => None
  end.

(** STEP 3B, credit side: standardize every code ([None]: [astype(int)]
    raises), then drop the rows whose identity is ["-1"]. *)
Fixpoint standardize_credit_codes (rows : list (CreditRec RawCode))
  : option (list (CreditRec string)) :=
  match rows with
  | [] => Some []
  | r :: rest =>
      match standardize_credit (cr_customer_code r), standardize_credit_codes rest with
      | Some c, Some rest' =>
          Some (mkCredit c (cr_balance r) (cr_last_invoice_date r) :: rest')
      | _, _ => None
      end
  end.

Definition drop_sentinel (rows : list (CreditRec string)) : list (CreditRec string) :=
  filter (fun r => negb (String.eqb (cr_customer_code r) "-1")) rows.

(** STEP 3B, sales side. *)
Definition standardize_sales_line (r : SalesLine RawCode) : SalesLine string :=
  mkSales (invoice_number r) (delivery_date r) (booker_name r)
          (standardize_sales (customer_code r))
          (customer_name r) (product_name r) (quantity r) (amount r)
          (company r) (route r).

(** STEP 3B, the immediate verification: number of identities in both sets. *)
Definition immediate_matches (credit_df : list (CreditRec string))
    (sales_df : list (SalesLine string)) : nat :=
  List.length
    (filter (fun c => existsb (fun s => String.eqb c (customer_code s)) sales_df)
            (drop_duplicates_first String.eqb (map (@cr_customer_code string) credit_df))).

(** STEP 4: deduplication of the product lines. *)
Definition same_invoice_product {C} (a b : SalesLine C) : bool :=
  opt_string_eqb (invoice_number a) (invoice_number b)
  && opt_string_eqb (product_name a) (product_name b).

Definition by_delivery_date {C} (ascending : bool) (a b : SalesLine C) : bool :=
  date_le ascending (delivery_date a) (delivery_date b).

Definition latest_first {S : SortValues} {C} (sales_df : list (SalesLine C))
  : list (SalesLine C) :=
  sort_values (by_delivery_date false) sales_df.

Definition deduplicate_sales {S : SortValues} {C} (sales_df : list (SalesLine C))
  : list (SalesLine C) :=
  let sorted := latest_first sales_df in
  let kept := drop_duplicates_first same_invoice_product sorted in
  sort_values (by_delivery_date true) kept.

(** The dtypes of the two integer columns of the sales frame, fixed when the
    columns are cleaned (STEP 3), before any row is dropped. *)
Record SalesDtypes : Type := mkSalesDtypes {
  amount_int64 : bool;
  quantity_int64 : bool
}.

Definition sales_dtypes {C} (sales_raw : list (SalesLine C)) : SalesDtypes :=
  mkSalesDtypes (int64_column (map (@amount C) sales_raw))
                (int64_column (map (@quantity C) sales_raw)).

(** STEP 6: aggregation per customer; pandas orders the groups by key. *)
Definition aggregate_customer (dt : SalesDtypes)
    (g : string * list (SalesLine string)) : SalesAgg :=
  let rows := snd g in
  mkAgg (fst g)
        (sum_as (amount_int64 dt) (notnull (map (@amount string) rows)))
        (sum_as (quantity_int64 dt) (notnull (map (@quantity string) rows)))
        (max_notnull (map (@delivery_date string) rows))
        (nunique_strings (map (@invoice_number string) rows))
        (first_notnull (map (@customer_name string) rows))
        (first_notnull (map (@route string) rows))
        (first_notnull (map (@booker_name string) rows))
        (first_notnull (map (@company string) rows)).

Definition aggregate_sales (dt : SalesDtypes) (sales_df : list (SalesLine string))
  : list SalesAgg :=
  map (aggregate_customer dt)
      (insertion_sort (fun a b => String.leb (fst a) (fst b))
                      (group_rows String.eqb (@customer_code string) sales_df)).

(** STEP 7: margin records, one per invoice number (keep last); a margin file
    that cannot be read is replaced by an empty table. *)
Definition load_margin (f : file_read MarginRec) : list MarginRec :=
  match f with
  | FileData rows =>
      drop_duplicates_last
        (fun a b => opt_string_eqb (mg_invoice_number a) (mg_invoice_number b)) rows
  | _ => []
  end.

(** STEPS 8, 10, 11: the customer summary. *)
Definition days_between (later earlier : Time) : Z :=
  (later - earlier) / SECONDS_PER_DAY.

Definition summary_row (now : Time) (c : CreditRec string) (a : option SalesAgg)
  : CustomerSummary :=
  let last_delivery := match a with Some s => last_delivery_date s | None => None end in
  mkSummary (cr_customer_code c)
            (cr_balance c)
            (cr_last_invoice_date c)
            (fillna 0 (option_map total_sales_amount a))
            (fillna 0 (option_map total_quantity a))
            last_delivery
            (fillna 0 (option_map invoice_count a))
            (fillna "N/A" (match a with Some s => ag_route s | None => None end))
            (fillna "N/A" (match a with Some s => ag_booker_name s | None => None end))
            (fillna "N/A" (match a with Some s => ag_company s | None => None end))
            (match last_delivery with
             | Some d => days_between now d
             | None =>
                 match cr_last_invoice_date c with
                 | Some d => days_between now d
                 | None => 999
                 end
             end).

Definition merge_summary (now : Time) (credit_df : list (CreditRec string))
    (sales_aggregated : list SalesAgg) : list CustomerSummary :=
  merge_left (fun c a => String.eqb (cr_customer_code c) (ag_customer_code a))
             (summary_row now) credit_df sales_aggregated.

(** STEPS 9, 10: the transaction detail. *)
Definition detail_row (lm : SalesLine string * option MarginRec)
    (c : option (CreditRec string)) : DetailRow :=
  mkDetail (fst lm)
           (fillna 0 (match snd lm with Some m => mg_profit m | None => None end))
           (fillna 0 (match c with Some r => cr_balance r | None => None end))
           (match c with Some r => cr_last_invoice_date r | None => None end).

Definition merge_detail (sales_df : list (SalesLine string))
    (margin_df : list MarginRec) (credit_df : list (CreditRec string))
  : list DetailRow :=
  let with_margin :=
    merge_left (fun l m => opt_string_eqb (invoice_number l) (mg_invoice_number m))
               (fun l m => (l, m)) sales_df margin_df in
  merge_left (fun lm c => String.eqb (customer_code (fst lm)) (cr_customer_code c))
             detail_row with_margin credit_df.

(** The two tables the function holds when it reaches its last line. *)
Record Reconciled : Type := mkReconciled {
  final_df : list CustomerSummary;
  sales_detailed : list DetailRow
}.

Definition reconcile {S : SortValues} (src : Sources) : outcome Reconciled :=
  (* STEP 1 *)
  credit_raw <- match credit_file src with
                | FileData rows => Returned (load_credit rows)
                | _ => ReturnedNone
                end ;;
  (* STEP 2: [pd.concat] of no frame at all raises inside the [try] *)
  sales_raw <- match read_sales_files (sales_files src) with
               | Some (df :: dfs) => Returned (List.concat (df :: dfs))
               | _ => ReturnedNone
               end ;;
  (* STEP 3B *)
  credit_all <- match standardize_credit_codes credit_raw with
                | Some rows => Returned rows
                | None => Raised
                end ;;
  let credit_df := drop_sentinel credit_all in
  let sales_std := map standardize_sales_line sales_raw in
  if (immediate_matches credit_df sales_std =? 0)%nat then ReturnedNone else
  (* STEP 4 *)
  let sales_df := deduplicate_sales sales_std in
  (* STEP 6 *)
  let sales_aggregated := aggregate_sales (sales_dtypes sales_raw) sales_df in
  (* STEP 7 *)
  let margin_df := load_margin (margin_file src) in
  (* STEPS 8 to 11 *)
  Returned (mkReconciled
              (merge_summary (today src) credit_df sales_aggregated)
              (merge_detail sales_df margin_df credit_df)).

(** [load_clean_and_merge_data]: the value it returns is [sales_detailed]. *)
Definition load_clean_and_merge_data {S : SortValues} (src : Sources)
  : outcome (list DetailRow) :=
  st <- reconcile src ;; Returned (sales_detailed st).

(** [DataFrame.to_sql('sales_data', if_exists='replace')]. *)
Definition to_sql (r : DetailRow) : LedgerRow :=
  let l := dt_line r in
  mkLedger (invoice_number l) (delivery_date l) (booker_name l)
           (customer_code l) (customer_name l) (product_name l)
           (quantity l) (amount l) (company l) (route l)
           (Some (dt_profit r)) (Some (dt_balance r)) (dt_last_invoice_date r).

(** [update_database]: what it returns and the store it leaves. *)
Definition update_database {S : SortValues} (src : Sources) (db : Database)
  : outcome bool * Database :=
  match load_clean_and_merge_data src with
  | ReturnedNone => (Returned false, db)
  | Raised => (Raised, db)
  | Returned final_data =>
      match db_write_failure src with
      | None => (Returned true, Some (map to_sql final_data))
      | Some left_behind => (Returned false, left_behind)
      end
  end.

(** ** The scoring query ([scoring.py], [get_customer_scores])

    The SQL text is modelled clause by clause.  SQLite does not fix from
    which row of a group a bare column ([p.total_amount] here, which is
    neither grouped nor aggregated) is taken; the query is parametrised by
    that choice, of which only membership in the group is assumed. *)

Class ArbitraryRow : Type :=
  arbitrary_row : forall (A : Type), A -> list A -> A.

Class ArbitraryRowLaws (P : ArbitraryRow) : Prop :=
  arbitrary_row_in :
    forall (A : Type) (x : A) (xs : list A), In (arbitrary_row x xs) (x :: xs).

(** A reference choice (the first row of the group), used to run the model. *)
#[export] Instance first_row : ArbitraryRow := fun A x _ => x.

(** Row of the CTE [invoice_level]. *)
Record InvoiceLevel : Type := mkInvoiceLevel {
  il_customer_code : string;
  il_customer_name : option string;
  il_invoice_number : option string;
  il_delivery_date : option Time;
  il_profit : option Z;
  il_balance : option Z
}.

(** Row of the CTE [product_aggregates]. *)
Record ProductAggregate : Type := mkProductAggregate {
  pa_customer_code : string;
  pa_customer_name : option string;
  pa_total_amount : option Z;
  pa_total_quantity : option Z
}.

(** Row of the query result, as [pd.read_sql_query] delivers it. *)
Record QueryRow : Type := mkQueryRow {
  q_customer_name : option string;
  q_customer_code : string;
  q_recency : option Z;
  q_frequency : option Z;
  q_monetary_value : option Z;
  q_total_profit : option Z;
  q_balance : option Z;
  q_days_active : option Z
}.

(** [WHERE delivery_date IS NOT NULL] *)
Definition has_delivery_date (r : LedgerRow) : bool :=
  match db_delivery_date r with Some _ => true | None => false end.

Definition to_invoice_level (r : LedgerRow) : InvoiceLevel :=
  mkInvoiceLevel (db_customer_code r) (db_customer_name r) (db_invoice_number r)
                 (db_delivery_date r) (db_profit r) (db_balance r).

(** Row equality of [SELECT DISTINCT] (NULLs are not distinct from each other). *)
Definition invoice_level_eqb (a b : InvoiceLevel) : bool :=
  String.eqb (il_customer_code a) (il_customer_code b)
  && opt_string_eqb (il_customer_name a) (il_customer_name b)
  && opt_string_eqb (il_invoice_number a) (il_invoice_number b)
  && opt_Z_eqb (il_delivery_date a) (il_delivery_date b)
  && opt_Z_eqb (il_profit a) (il_profit b)
  && opt_Z_eqb (il_balance a) (il_balance b).

Definition invoice_level (sales_data : list LedgerRow) : list InvoiceLevel :=
  drop_duplicates_first invoice_level_eqb
    (map to_invoice_level (filter has_delivery_date sales_data)).

(** SQL [SUM]: NULL values are skipped, the sum of no value is NULL. *)
Definition sql_sum (l : list (option Z)) : option Z :=
  match notnull l with
  | [] => None
  | xs => Some (fold_right Z.add 0 xs)
  end.

Definition code_name_eqb (a b : string * option string) : bool :=
  String.eqb (fst a) (fst b) && opt_string_eqb (snd a) (snd b).

Definition product_aggregates (sales_data : list LedgerRow) : list ProductAggregate :=
  map (fun g =>
         mkProductAggregate (fst (fst g)) (snd (fst g))
                            (sql_sum (map db_amount (snd g)))
                            (sql_sum (map db_quantity (snd g))))
      (group_rows code_name_eqb
                  (fun r => (db_customer_code r, db_customer_name r))
                  (filter has_delivery_date sales_data)).

(** [FROM invoice_level i JOIN product_aggregates p
     ON i.customer_code = p.customer_code] *)
Definition join_on_customer_code (ils : list InvoiceLevel)
    (pas : list ProductAggregate) : list (InvoiceLevel * ProductAggregate) :=
  flat_map (fun i =>
              map (fun p => (i, p))
                  (filter (fun p => String.eqb (il_customer_code i) (pa_customer_code p))
                          pas))
           ils.

(** [CAST(JULIANDAY(a) - JULIANDAY(b) AS INTEGER)]: whole days, truncated
    towards zero. *)
Definition julianday_diff (a b : Time) : Z := Z.quot (a - b) SECONDS_PER_DAY.

(** The [SELECT] list over one group of the join, with its [HAVING] clause:
    [None] when the group is filtered out. *)
Definition select_group {P : ArbitraryRow} (now : Time)
    (g : (string * option string) * list (InvoiceLevel * ProductAggregate))
  : option QueryRow :=
  match snd g with
  | [] => None
  | first :: others =>
      let rows := first :: others in
      let bare := arbitrary_row first others in
      let dates := map (fun ip => il_delivery_date (fst ip)) rows in
      match pa_total_amount (snd bare) with
      | Some total =>
          if 0 <? total then
            Some (mkQueryRow
                    (snd (fst g))
                    (fst (fst g))
                    (option_map (julianday_diff now) (max_notnull dates))
                    (Some (nunique_strings (map (fun ip => il_invoice_number (fst ip)) rows)))
                    (Some total)
                    (sql_sum (map (fun ip => Some (fillna 0 (il_profit (fst ip)))) rows))
                    (Some (fillna 0 (max_notnull (map (fun ip => il_balance (fst ip)) rows))))
                    (match max_notnull dates, min_notnull dates with
                     | Some hi, Some lo => Some (julianday_diff hi lo)
                     | _, _ => None
                     end))
          else None
      | None => None
      end
  end.

Definition scoring_query {P : ArbitraryRow} (now : Time)
    (sales_data : list LedgerRow) : list QueryRow :=
  let joined := join_on_customer_code (invoice_level sales_data)
                                      (product_aggregates sales_data) in
  flat_map (fun g => match select_group now g with Some r => [r] | None => [] end)
           (group_rows code_name_eqb
                       (fun ip => (il_customer_code (fst ip), il_customer_name (fst ip)))
                       joined).

(** ** numpy floating-point values

    A float is an exact rational, or one of the three special values that a
    division can produce.  Signed zeros are not distinguished. *)

Inductive npfloat : Type :=
| Finite (q : Q)
| PosInf
| NegInf
| NaN.

Definition Qlt_bool (a b : Q) : bool := negb (Qle_bool b a).

Definition np_of_Z (z : Z) : npfloat := Finite (inject_Z z).

Definition np_neg (a : npfloat) : npfloat :=
  match a with
  | Finite q => Finite (- q)
  | PosInf => NegInf
  | NegInf => PosInf
  | NaN => NaN
  end.

(** Sign of a finite value: -1, 0 or 1. *)
Definition Qsign (q : Q) : Z :=
  if Qlt_bool 0 q then 1 else if Qlt_bool q 0 then -1 else 0.

Definition signed_inf (s : Z) : npfloat :=
  if 0 <? s then PosInf else if s <? 0 then NegInf else NaN.

Definition np_sign (a : npfloat) : option Z :=
  match a with
  | Finite q => Some (Qsign q)
  | PosInf => Some 1
  | NegInf => Some (-1)
  | NaN => None
  end.

Definition np_mul (a b : npfloat) : npfloat :=
  match a, b with
  | Finite x, Finite y => Finite (x * y)
  | NaN, _ | _, NaN => NaN
  | _, _ =>
      match np_sign a, np_sign b with
      | Some sa, Some sb => signed_inf (sa * sb)    (* 0 * inf is NaN *)
      | _, _ => NaN
      end
  end.

Definition np_div (a b : npfloat) : npfloat :=
  match a, b with
  | NaN, _ | _, NaN => NaN
  | Finite x, Finite y =>
      if Qeq_bool y 0 then signed_inf (Qsign x)      (* x/0: inf, -inf or NaN *)
      else Finite (x / y)
  | Finite _, _ => Finite 0                           (* x/inf *)
  | _, Finite y =>
      match np_sign a with
      | Some sa => signed_inf (sa * (if Qlt_bool y 0 then -1 else 1))
      | None => NaN
      end
  | _, _ => NaN                                      (* inf/inf *)
  end.

(** Comparisons; every comparison with NaN is false. *)
Definition np_le (a b : npfloat) : bool :=
  match a, b with
  | NaN, _ | _, NaN => false
  | NegInf, _ => true
  | _, PosInf => true
  | Finite x, Finite y => Qle_bool x y
  | _, _ => false
  end.

Definition np_lt (a b : npfloat) : bool :=
  match a, b with
  | NaN, _ | _, NaN => false
  | _, _ => negb (np_le b a)
  end.

(** [Series.fillna(v)] and [Series.clip(lower, upper)] on one value. *)
Definition np_fillna (v : Q) (a : npfloat) : npfloat :=
  match a with NaN => Finite v | _ => a end.

Definition np_clip (lower upper : option Q) (a : npfloat) : npfloat :=
  match a with
  | NaN => NaN
  | _ =>
      let a1 := match lower with
                | Some lo => if np_lt a (Finite lo) then Finite lo else a
                | None => a
                end in
      match upper with
      | Some hi => if np_lt (Finite hi) a1 then Finite hi else a1
      | None => a1
      end
  end.

(** [np.round(x, decimals)]: to the nearest multiple of 10^-decimals, ties to
    the even one. *)
Definition round_half_even (q : Q) : Z :=
  let f := Qfloor q in
  let r := (q - inject_Z f)%Q in
  if Qlt_bool r (1 # 2)%Q then f
  else if Qlt_bool (1 # 2)%Q r then f + 1
  else if Z.even f then f else f + 1.

Definition np_round (decimals : nat) (a : npfloat) : npfloat :=
  match a with
  | Finite q =>
      let scale := inject_Z (10 ^ Z.of_nat decimals) in
      Finite (inject_Z (round_half_even (q * scale)) / scale)
  | _ => a
  end.

(** ** Scoring configuration *)

Definition VISIT_CYCLE_DAYS : Z := 7.
Definition DSO_EXCELLENT : Z := 14.
Definition DSO_GOOD : Z := 21.
Definition DSO_FAIR : Z := 35.
Definition DSO_POOR : Z := 60.
Definition MARGIN_EXCELLENT : Z := 10.
Definition MARGIN_GOOD : Z := 8.
Definition MARGIN_FAIR : Z := 5.
Definition MARGIN_LOW : Z := 3.

(** ** Data cleaning and business metrics *)

(** A row of the frame after the "Data cleaning" block. *)
Record Customer : Type := mkCustomer {
  c_customer_name : option string;
  c_customer_code : string;
  recency : Z;
  frequency : Z;
  monetary_value : Z;
  total_profit : Z;
  balance : Z;
  days_active : Z
}.

Definition clean_row (r : QueryRow) : Customer :=
  mkCustomer (q_customer_name r) (q_customer_code r)
             (fillna 999 (q_recency r))
             (fillna 0 (q_frequency r))
             (fillna 0 (q_monetary_value r))
             (fillna 0 (q_total_profit r))
             (fillna 0 (q_balance r))
             (Z.max VISIT_CYCLE_DAYS (fillna VISIT_CYCLE_DAYS (q_days_active r))).

Definition weekly_sales (c : Customer) : npfloat :=
  np_mul (np_div (np_of_Z (monetary_value c)) (np_of_Z (days_active c)))
         (np_of_Z VISIT_CYCLE_DAYS).

Definition monthly_sales (c : Customer) : npfloat :=
  np_mul (weekly_sales c) (np_of_Z 4).

(** [np.where] evaluates both branches and selects per row. *)
Definition np_where {A} (cond : bool) (a b : A) : A := if cond then a else b.

Definition dso (c : Customer) : npfloat :=
  let raw :=
    np_where (np_lt (Finite 0) (weekly_sales c) && (0 <? balance c))
             (np_mul (np_div (np_of_Z (balance c)) (weekly_sales c))
                     (np_of_Z VISIT_CYCLE_DAYS))
             (Finite 0) in
  np_clip (Some 0%Q) (Some 999%Q) (np_fillna 0 raw).

Definition weeks_owing (c : Customer) : npfloat :=
  np_div (dso c) (np_of_Z VISIT_CYCLE_DAYS).

Definition profit_margin_pct (c : Customer) : npfloat :=
  np_where (0 <? monetary_value c)
           (np_mul (np_div (np_of_Z (total_profit c)) (np_of_Z (monetary_value c)))
                   (np_of_Z 100))
           (Finite 0).

Definition avg_order_value (c : Customer) : npfloat :=
  np_where (0 <? frequency c)
           (np_div (np_of_Z (monetary_value c)) (np_of_Z (frequency c)))
           (Finite 0).

Definition weeks_since_last_order (c : Customer) : npfloat :=
  np_div (np_of_Z (recency c)) (np_of_Z VISIT_CYCLE_DAYS).

(** ** Binning ([pd.cut], [pd.qcut]) and [create_score]

    In this part [None] stands for a raised exception: the ValueError that
    the pandas calls raise, and the TypeError of [py_min_of_int]. *)

Definition unique_values (l : list Q) : list Q :=
  drop_duplicates_first Qeq_bool l.

(** [Series.nunique()] *)
Definition nunique (series : list Q) : nat := List.length (unique_values series).

Definition count_if {A} (p : A -> bool) (l : list A) : nat :=
  List.length (filter p l).

(** [Series.rank(method='first')]: position in ascending order, equal values
    ranked in the order in which they appear. *)
Fixpoint rank_from (earlier all rest : list Q) : list Q :=
  match rest with
  | [] => []
  | x :: rest' =>
      inject_Z (Z.of_nat (1 + count_if (fun y => Qlt_bool y x) all
                            + count_if (Qeq_bool x) earlier))
      :: rank_from (x :: earlier) all rest'
  end.

Definition rank_first (series : list Q) : list Q := rank_from [] series series.

(** [np.linspace(start, stop, num)] *)
Definition linspace (start stop : Q) (num : nat) : list Q :=
  map (fun i => (start + inject_Z (Z.of_nat i)
                         * ((stop - start) / inject_Z (Z.of_nat (num - 1))))%Q)
      (seq 0 num).

(** [range(start, stop, step)] *)
Definition py_range (start stop step : Z) : list Z :=
  let n := if 0 <? step then (stop - start + step - 1) / step
           else (start - stop - step - 1) / (- step) in
  map (fun i => start + step * Z.of_nat i) (seq 0 (Z.to_nat n)).

(** [_nbins_to_bins(x, nbins, right=True)]: [nbins] equal-width intervals over
    the range of [x]; the lowest edge is moved down by 0.1% of the range. *)
Definition nbins_to_bins (x : list Q) (nbins : nat) : option (list Q) :=
  if (nbins <? 1)%nat then None
  else
    match x with
    | [] => None
    | x0 :: xs =>
        let mn := fold_right Qmin x0 xs in
        let mx := fold_right Qmax x0 xs in
        if Qeq_bool mn mx then
          let mn' := (mn - (if Qeq_bool mn 0 then 1 # 1000
                            else (1 # 1000) * Qabs mn))%Q in
          let mx' := (mx + (if Qeq_bool mx 0 then 1 # 1000
                            else (1 # 1000) * Qabs mx))%Q in
          Some (linspace mn' mx' (nbins + 1))
        else
          match linspace mn mx (nbins + 1) with
          | [] => Some []
          | b0 :: rest => Some ((b0 - (mx - mn) * (1 # 1000))%Q :: rest)
          end
    end.

(** [bins.searchsorted(v, side='left')] on ascending [bins]: the number of
    edges below [v]. *)
Definition searchsorted_left (bins : list Q) (v : Q) : nat :=
  count_if (fun b => Qlt_bool b v) bins.

Fixpoint has_duplicates (l : list Z) : bool :=
  match l with
  | [] => false
  | x :: rest => existsb (Z.eqb x) rest || has_duplicates rest
  end.

(** [_bins_to_cuts(x, bins, right=True, labels, include_lowest, duplicates,
    ordered=True)]: the label of the interval of each value, missing for a
    value outside every interval. *)
Definition bins_to_cuts (x bins : list Q) (labels : list Z)
    (include_lowest drop_duplicate_edges : bool) : option (list (option Z)) :=
  let unique_bins := unique_values bins in
  let edges :=
    if ((List.length unique_bins <? List.length bins)
        && negb (List.length bins =? 2))%nat
    then (if drop_duplicate_edges then Some unique_bins else None)
    else Some bins in
  match edges with
  | None => None
  | Some bins =>
      if has_duplicates labels then None
      else if negb (List.length labels =? List.length bins - 1)%nat then None
      else
        Some (map (fun v =>
                     let id0 := searchsorted_left bins v in
                     let id :=
                       if include_lowest
                          && match bins with b0 :: _ => Qeq_bool v b0 | [] => false end
                       then 1%nat else id0 in
                     if ((id =? List.length bins) || (id =? 0))%nat then None
                     else nth_error labels (id - 1))
                  x)
  end.

(** [pd.cut(x, bins=nbins, labels=labels, include_lowest=True)] *)
Definition pd_cut (x : list Q) (nbins : nat) (labels : list Z)
  : option (list (option Z)) :=
  match nbins_to_bins x nbins with
  | Some bins => bins_to_cuts x bins labels true false
  | None => None
  end.

(** [Series.quantile(p)], linear interpolation between order statistics. *)
Definition quantile (sorted : list Q) (p : Q) : Q :=
  let h := (inject_Z (Z.of_nat (List.length sorted - 1)) * p)%Q in
  let lo := Qfloor h in
  let a := nth (Z.to_nat lo) sorted 0%Q in
  let b := nth (Z.to_nat lo + 1) sorted a in
  (a + (h - inject_Z lo) * (b - a))%Q.

(** [pd.qcut(x, q, labels=labels, duplicates='drop')] *)
Definition pd_qcut (x : list Q) (q : nat) (labels : list Z)
  : option (list (option Z)) :=
  let sorted := insertion_sort Qle_bool x in
  let bins := map (quantile sorted) (linspace 0 1 (q + 1)) in
  bins_to_cuts x bins labels true true.

(** [.astype(int)] on the labels: a missing label raises. *)
Fixpoint astype_int (l : list (option Z)) : option (list Z) :=
  match l with
  | [] => Some []
  | Some v :: rest => option_map (cons v) (astype_int rest)
  | None :: _ => None
  end.

(** [min(n)] called with one integer: the built-in takes an iterable when it
    has a single argument, so the call raises TypeError ('int' object is not
    iterable), whatever [n] is. *)
Definition py_min_of_int (n : nat) : option nat := None.

(** [create_score(series, reverse)].  The arguments of a call are evaluated
    from left to right: in the reversed branch for fewer than 5 distinct
    values, [labels=range(5, 5-min(series.nunique()), -1)] is evaluated before
    [pd.cut] is entered, and no [try] encloses it. *)
Definition create_score (series : list Q) (reverse : bool) : option (list Z) :=
  let k := nunique series in
  if (k <? 5)%nat then
    if reverse then
      and_then (py_min_of_int k)
               (fun m =>
                  and_then (pd_cut (rank_first series) (Nat.min k 5)
                                   (py_range 5 (5 - Z.of_nat m) (-1)))
                           astype_int)
    else
      and_then (pd_cut (rank_first series) (Nat.min k 5)
                       (py_range 1 (Z.of_nat (Nat.min (k + 1) 6)) 1))
               astype_int
  else
    let attempt :=
      if reverse then
        and_then (pd_qcut series 5 [5; 4; 3; 2; 1]) astype_int
      else
        and_then (pd_qcut (rank_first series) 5 [1; 2; 3; 4; 5]) astype_int in
    match attempt with
    | Some scores => Some scores
    | None =>                                   (* except ValueError *)
        if reverse then
          and_then (pd_cut (rank_first series) 5 [5; 4; 3; 2; 1]) astype_int
        else
          and_then (pd_cut (rank_first series) 5 [1; 2; 3; 4; 5]) astype_int
    end.

(** [calculate_credit_score(row)] *)
Definition calculate_credit_score (c : Customer) : Z :=
  if balance c <=? 0 then 5
  else if np_le (dso c) (np_of_Z DSO_EXCELLENT) then 5
  else if np_le (dso c) (np_of_Z DSO_GOOD) then 4
  else if np_le (dso c) (np_of_Z DSO_FAIR) then 3
  else if np_le (dso c) (np_of_Z DSO_POOR) then 2
  else 1.

(** [calculate_profit_score(margin_pct)] *)
Definition calculate_profit_score (margin_pct : npfloat) : Z :=
  if np_le (np_of_Z MARGIN_EXCELLENT) margin_pct then 5
  else if np_le (np_of_Z MARGIN_GOOD) margin_pct then 4
  else if np_le (np_of_Z MARGIN_FAIR) margin_pct then 3
  else if np_le (np_of_Z MARGIN_LOW) margin_pct then 2
  else 1.

(** ** Combined scores, segment, risk flag and priority *)

(** A customer with the five sub-scores. *)
Record Scored : Type := mkScored {
  customer : Customer;
  R_Score : Z;
  F_Score : Z;
  M_Score : Z;
  C_Score : Z;
  P_Score : Z
}.

Definition Total_Score (s : Scored) : Z :=
  R_Score s * 4 + F_Score s * 3 + M_Score s * 6 + C_Score s * 4 + P_Score s * 3.

Definition RFM_Score (s : Scored) : Z := R_Score s + F_Score s + M_Score s.

(** [assign_segment(row)], on the columns of the row that it reads:
    [Total_Score], [C_Score], [P_Score], [balance] and [RFM_Score]. *)
Definition assign_segment (total c_score p_score bal rfm : Z) : string :=
  if (c_score =? 1) && (50000 <? bal) then "🚨 High Risk"
  else if (c_score <=? 2) && (20000 <? bal) then "⚠️ Credit Risk"
  else if (p_score <=? 2) && (10 <=? rfm) then "💸 Review Pricing"
  else if 85 <=? total then "👑 Champions"
  else if 70 <=? total then "💎 Loyal"
  else if 55 <=? total then "📈 Potential"
  else if 40 <=? total then "📉 At Risk"
  else "💤 Dormant".

Definition segment_of_row (s : Scored) : string :=
  assign_segment (Total_Score s) (C_Score s) (P_Score s) (balance (customer s))
                 (RFM_Score s).

(** [assign_risk_flag(row)] *)
Definition assign_risk_flag (s : Scored) : string :=
  let flags :=
    (if (C_Score s <=? 2) && (0 <? balance (customer s)) then ["CREDIT"] else [])
    ++ (if P_Score s <=? 2 then ["PROFIT"] else [])
    ++ (if R_Score s <=? 2 then ["INACTIVE"] else []) in
  match flags with
  | [] => "OK"
  | _ => String.concat " | " flags
  end.

(** [needle in haystack] for Python strings. *)
Definition contains (needle haystack : string) : bool :=
  match String.index 0 needle haystack with Some _ => true | None => false end.

(** [assign_priority(row)] *)
Definition assign_priority (s : Scored) : Z :=
  let segment := segment_of_row s in
  let risk := assign_risk_flag s in
  if contains "🚨" segment || contains "CREDIT" risk then 1
  else if contains "⚠️" segment || contains "💸" segment then 2
  else if contains "📈" segment || contains "📉" segment
          || contains "INACTIVE" risk then 3
  else if contains "👑" segment || contains "💎" segment then 4
  else 5.

(** One row of the scored frame ([include_all_columns=True]), after the
    "FORMAT" block has rounded the metric columns. *)
Record ScoreRecord : Type := mkScoreRecord {
  scored : Scored;
  Segment : string;
  Risk_Flag : string;
  Priority : Z;
  out_weekly_sales : npfloat;
  out_monthly_sales : npfloat;
  out_dso : npfloat;
  out_profit_margin_pct : npfloat;
  out_avg_order_value : npfloat;
  out_weeks_owing : npfloat;
  out_weeks_since_last_order : npfloat
}.

Definition format_row (s : Scored) : ScoreRecord :=
  let c := customer s in
  mkScoreRecord s (segment_of_row s) (assign_risk_flag s) (assign_priority s)
    (np_round 0 (np_fillna 0 (weekly_sales c)))
    (np_round 0 (np_fillna 0 (monthly_sales c)))
    (np_round 0 (np_fillna 0 (dso c)))
    (np_round 1 (np_fillna 0 (profit_margin_pct c)))
    (np_round 0 (np_fillna 0 (avg_order_value c)))
    (np_round 1 (np_fillna 0 (weeks_owing c)))
    (np_round 1 (np_fillna 0 (weeks_since_last_order c))).

(** Rows zipped with their three quantile scores. *)
Fixpoint attach_scores (cs : list Customer) (rs fs ms : list Z) : list Scored :=
  match cs, rs, fs, ms with
  | c :: cs', r :: rs', f :: fs', m :: ms' =>
      mkScored c r f m (calculate_credit_score c)
               (calculate_profit_score (profit_margin_pct c))
      :: attach_scores cs' rs' fs' ms'
  | _, _, _, _ => []
  end.

(** The column [df['recency']] of the cleaned frame. *)
Definition recency_values (cs : list Customer) : list Q :=
  map (fun c => inject_Z (recency c)) cs.

(** The "INDIVIDUAL SCORES" block over the cleaned frame; [None] when one of
    the [create_score] calls raises. *)
Definition score_customers (cs : list Customer) : option (list Scored) :=
  match create_score (recency_values cs) true,
        create_score (map (fun c => inject_Z (frequency c)) cs) false,
        create_score (map (fun c => inject_Z (monetary_value c)) cs) false with
  | Some rs, Some fs, Some ms => Some (attach_scores cs rs fs ms)
  | _, _, _ => None
  end.

(** [get_customer_scores(include_all_columns=True)] over the store, [now]
    being the time of the query. *)
Definition get_customer_scores {S : SortValues} {P : ArbitraryRow}
    (now : Time) (db : Database) : outcome (list ScoreRecord) :=
  match db with
  | None => Returned []                         (* no database, or no table *)
  | Some sales_data =>
      match scoring_query now sales_data with
      | [] => Returned []                       (* [df.empty] *)
      | df =>
          match score_customers (map clean_row df) with
          | None => Raised
          | Some rows =>
              Returned
                (sort_values (fun a b => Total_Score (scored b) <=? Total_Score (scored a))
                             (map format_row rows))
          end
      end
  end.

(** The scored population of the store has at least 5 distinct recency
    values, or there is nothing to score. *)
Definition enough_recencies {P : ArbitraryRow} (now : Time) (db : Database) : Prop :=
  match db with
  | None => True
  | Some sales_data =>
      scoring_query now sales_data = []
      \/ (5 <= nunique (recency_values (map clean_row (scoring_query now sales_data))))%nat
  end.

(** ** Vocabulary of the statements

    The identity sets that STEP 3B compares, and the conditions under which
    the reconciliation is said to fail. *)

Definition credit_identities (rows : list (CreditRec RawCode)) : option (list string) :=
  option_map (fun std => map (@cr_customer_code string) (drop_sentinel std))
             (standardize_credit_codes (load_credit rows)).

Definition sales_identities (dfs : list (list (SalesLine RawCode))) : list string :=
  map (fun l => standardize_sales (customer_code l)) (List.concat dfs).

(** The inputs that the model covers: float codes below 10^16 in absolute
    value, unsigned codes within the [uint64] range, and integer fields
    within the [int64] range. *)
Definition code_in_domain (c : RawCode) : Prop :=
  match c with
  | CodeFloat z => Z.abs z < 10 ^ 16
  | CodeUInt z => 0 <= z < 2 ^ 64
  | _ => True
  end.

Definition int_field_in_domain (v : option Z) : Prop :=
  match v with Some z => in_int64 z = true | None => True end.

Definition credit_row_in_domain (r : CreditRec RawCode) : Prop :=
  code_in_domain (cr_customer_code r) /\ int_field_in_domain (cr_balance r).

Definition sales_line_in_domain (l : SalesLine RawCode) : Prop :=
  int_field_in_domain (quantity l) /\ int_field_in_domain (amount l).

Definition sources_in_domain (src : Sources) : Prop :=
  (forall rows, credit_file src = FileData rows -> Forall credit_row_in_domain rows)
  /\ (forall rows, In (FileData rows) (sales_files src) ->
                   Forall sales_line_in_domain rows).

(** A code that [astype(int)] does not convert: a string that is not the
    literal of an integer of the [int64] range, or a Python int outside that
    range. *)
Definition unconvertible (c : RawCode) : Prop :=
  match c with
  | CodeStr s => forall z, py_int_of_str s = Some z -> in_int64 z = false
  | CodeInt z => in_int64 z = false
  | _ => False
  end.

Definition unreadable {A} (f : file_read A) : Prop :=
  f = FileNotFound \/ f = ReadError.

Inductive reconciliation_fails (src : Sources) : Prop :=
| credit_file_unreadable :
    unreadable (credit_file src) -> reconciliation_fails src
| sales_file_unreadable :
    forall f, In f (sales_files src) -> unreadable f -> reconciliation_fails src
| no_common_identity :
    forall credit_rows sales_dfs ids,
      credit_file src = FileData credit_rows ->
      read_sales_files (sales_files src) = Some sales_dfs ->
      credit_identities credit_rows = Some ids ->
      (forall c, In c ids -> ~ In c (sales_identities sales_dfs)) ->
      reconciliation_fails src.

(** ** Sample data used to run the model *)

Definition sample_line (code : RawCode) (invoice product : string)
    (qty amt : Z) (date : Time) : SalesLine RawCode :=
  mkSales (Some invoice) (Some date) (Some "B1") code (Some "Shop") (Some product)
          (Some qty) (Some amt) (Some "Co") (Some "R1").

(** Customer 7 held as a float on both sides: the credit side makes it
    ["7"], the sales side ["7.0"]. *)
Definition float_coded_sources : Sources :=
  mkSources (FileData [mkCredit (CodeFloat 7) (Some (-1000)) None])
            [FileData [sample_line (CodeFloat 7) "A1" "P1" 2 500 86400]]
            FileNotFound 864000 None.

(** The end-to-end scenario: customer 7 with a source balance of -1000, one
    invoice A1 of two product lines, and its margin record. *)
Definition scenario_sales : list (SalesLine RawCode) :=
  [sample_line (CodeStr "7") "A1" "P1" 2 500 86400;
   sample_line (CodeStr "7") "A1" "P2" 1 300 86400].

Definition scenario_sources : Sources :=
  mkSources (FileData [mkCredit (CodeInt 7) (Some (-1000)) None])
            [FileData scenario_sales]
            (FileData [mkMargin (Some "A1") (Some 800) (Some 100)])
            864000 None.

(** The same scenario with one more customer in the credit roster, who has
    no sales. *)
Definition scenario_sources_two_customers : Sources :=
  mkSources (FileData [mkCredit (CodeInt 7) (Some (-1000)) None;
                       mkCredit (CodeInt 8) (Some (-50)) None])
            [FileData scenario_sales]
            (FileData [mkMargin (Some "A1") (Some 800) (Some 100)])
            864000 None.

(** Reading of "the operation returns both a customer-summary table and a
    transaction-detail table": both tables can be had from the value that a
    successful run returns. *)
Definition output_carries_both_tables {S : SortValues} : Prop :=
  exists (summary_of : list DetailRow -> list CustomerSummary)
         (detail_of : list DetailRow -> list DetailRow),
    forall src st,
      reconcile src = Returned st ->
      exists out,
        load_clean_and_merge_data src = Returned out
        /\ summary_of out = final_df st
        /\ detail_of out = sales_detailed st.

(** Invoice INV1, product X, delivered twice, and an unrelated line. *)
Definition delivered_first : SalesLine RawCode :=
  sample_line (CodeInt 7) "INV1" "X" 1 100 86400.
Definition delivered_later : SalesLine RawCode :=
  sample_line (CodeInt 7) "INV1" "X" 1 120 172800.
Definition redelivered_sales : list (SalesLine RawCode) :=
  [delivered_later; sample_line (CodeInt 7) "INV2" "Y" 1 50 259200; delivered_first].

(** A ledger row of customer 7 (balance 0). *)
Definition ledger_line (invoice product : string) (date : option Time)
    (amt profit : Z) : LedgerRow :=
  mkLedger (Some invoice) date (Some "B1") "7" (Some "Shop") (Some product)
           (Some 1) (Some amt) (Some "Co") (Some "R1") (Some profit) (Some 0) None.

(** One invoice of three product lines, each carrying the invoice profit of
    900: delivered on three days, and delivered on one day. *)
Definition invoice_over_three_days : list LedgerRow :=
  [ledger_line "INV1" "P1" (Some 86400) 1000 900;
   ledger_line "INV1" "P2" (Some 172800) 1000 900;
   ledger_line "INV1" "P3" (Some 259200) 1000 900].

Definition invoice_on_one_day : list LedgerRow :=
  [ledger_line "INV1" "P1" (Some 86400) 1000 900;
   ledger_line "INV1" "P2" (Some 86400) 1000 900;
   ledger_line "INV1" "P3" (Some 86400) 1000 900].

(** The sources from which [update_database] writes [invoice_over_three_days]. *)
Definition three_days_sources : Sources :=
  let line product date :=
    mkSales (Some "INV1") (Some date) (Some "B1") (CodeInt 7) (Some "Shop")
            (Some product) (Some 1) (Some 1000) (Some "Co") (Some "R1") in
  mkSources (FileData [mkCredit (CodeInt 7) (Some 0) None])
            [FileData [line "P1" 86400; line "P2" 172800; line "P3" 259200]]
            (FileData [mkMargin (Some "INV1") (Some 3000) (Some 900)])
            864000 None.

(** A customer whose only lines have no delivery date, and positive sales. *)
Definition undated_ledger : list LedgerRow :=
  [ledger_line "INV9" "P1" None 5000 400; ledger_line "INV9" "P2" None 700 400].

(** The five sub-scores of a row lie between 1 and 5. *)
Definition sub_scores_in_range (s : Scored) : Prop :=
  1 <= R_Score s <= 5 /\ 1 <= F_Score s <= 5 /\ 1 <= M_Score s <= 5
  /\ 1 <= C_Score s <= 5 /\ 1 <= P_Score s <= 5.

(** A population of three customers; two of them share recency and
    frequency. *)
Definition three_customers : list Customer :=
  [mkCustomer (Some "A") "1" 3 4 9000 700 12000 30;
   mkCustomer (Some "B") "2" 3 4 2500 50 0 7;
   mkCustomer (Some "C") "3" 40 1 800 90 65000 7].

(** ** Auxiliary definitions used in the proofs *)

(** Value of a decimal numeral read from the left, as [digits_value] does. *)
Fixpoint uint_value (acc : Z) (d : Decimal.uint) : Z :=
  match d with
  | Nil => acc
  | D0 d' => uint_value (10 * acc + 0) d'
  | D1 d' => uint_value (10 * acc + 1) d'
  | D2 d' => uint_value (10 * acc + 2) d'
  | D3 d' => uint_value (10 * acc + 3) d'
  | D4 d' => uint_value (10 * acc + 4) d'
  | D5 d' => uint_value (10 * acc + 5) d'
  | D6 d' => uint_value (10 * acc + 6) d'
  | D7 d' => uint_value (10 * acc + 7) d'
  | D8 d' => uint_value (10 * acc + 8) d'
  | D9 d' => uint_value (10 * acc + 9) d'
  end.

(** No whitespace character in the string. *)
Fixpoint no_space (s : string) : bool :=
  match s with
  | EmptyString => true
  | String c rest => negb (is_space c) && no_space rest
  end.

(** The points of [linspace start stop (k+1)]. *)
Definition grid_point (start stop : Q) (k i : nat) : Q :=
  (start + inject_Z (Z.of_nat i) * ((stop - start) / inject_Z (Z.of_nat k)))%Q.

(** Labels assigned to every value. *)
Definition all_labelled (labels : list Z) (res : list (option Z)) : Prop :=
  Forall (fun o => exists z, o = Some z /\ In z labels) res.

(** The last row that satisfies [p]. *)
Fixpoint find_last {A} (p : A -> bool) (l : list A) : option A :=
  match l with
  | [] => None
  | x :: rest =>
      match find_last p rest with
      | Some y => Some y
      | None => if p x then Some x else None
      end
  end.

Definition same_raw_code (a b : CreditRec RawCode) : bool :=
  raw_code_eqb (cr_customer_code a) (cr_customer_code b).

(** The sales lines of one customer. *)
Definition lines_of (code : string) (sales_df : list (SalesLine string))
  : list (SalesLine string) :=
  filter (fun r => String.eqb (customer_code r) code) sales_df.

(** The customers of the credit roster with their test data. *)
Definition two_rows_of_customer_7 : list (CreditRec RawCode) :=
  [mkCredit (CodeInt 7) (Some (-500)) None;
   mkCredit (CodeInt 8) (Some 40) None;
   mkCredit (CodeFloat 7) (Some (-900)) (Some 86400)].

(** Only decimal digits and the minus sign. *)
Fixpoint only_sign_and_digits (s : string) : bool :=
  match s with
  | EmptyString => true
  | String c rest =>
      (match digit_of c with Some _ => true | None => Ascii.eqb c "-" end)
      && only_sign_and_digits rest
  end.

(** The aggregate of one customer's lines, when the customer has any. *)
Definition aggregate_of (dt : SalesDtypes) (code : string)
    (sales_df : list (SalesLine string))
  : option SalesAgg :=
  match lines_of code sales_df with
  | [] => None
  | ls => Some (aggregate_customer dt (code, ls))
  end.

(** Sample: three customers in the roster, sales for two of them. *)
Definition roster_of_three : list (CreditRec string) :=
  [mkCredit "7" (Some 1000) None;
   mkCredit "8" (Some (-20)) (Some 86400);
   mkCredit "9" None None].

Definition sales_of_two : list (SalesLine string) :=
  [mkSales (Some "A1") (Some 86400) (Some "B1") "7" (Some "Shop") (Some "P1")
           (Some 2) (Some 500) (Some "Co") (Some "R1");
   mkSales (Some "A2") (Some 172800) (Some "B2") "9" (Some "Kiosk") (Some "P1")
           (Some 1) (Some 250) (Some "Co") None;
   mkSales (Some "A1") (Some 86400) (Some "B1") "7" (Some "Shop") (Some "P2")
           (Some 1) (Some (-100)) (Some "Co") (Some "R1");
   mkSales (Some "A3") None (Some "B1") "5" (Some "Gone") (Some "P2")
           None (Some 70) (Some "Co") (Some "R3")].

(** Sum of an integer column. *)
Definition sum_Z (l : list Z) : Z := fold_right Z.add 0 l.

(** Margin records of one invoice number. *)
Definition margin_of_invoice (invoice : option string) (m : MarginRec) : bool :=
  opt_string_eqb invoice (mg_invoice_number m).

(** Sample margin file: invoice A1 twice, the second record being the valid
    one, and an invoice without a profit value. *)
Definition margin_with_duplicate : list MarginRec :=
  [mkMargin (Some "A1") (Some 400) (Some 30);
   mkMargin (Some "A2") (Some 250) None;
   mkMargin (Some "A1") (Some 400) (Some 45)].

(** A credit roster in which one code is not an integer literal. *)
Definition sources_with_bad_code : Sources :=
  mkSources (FileData [mkCredit (CodeInt 7) (Some (-1000)) None;
                       mkCredit (CodeStr "C-12") (Some 5) None])
            [FileData scenario_sales]
            FileNotFound 864000 None.

(** Sample store: three customers with dated sales. *)
Definition three_customer_ledger : list LedgerRow :=
  [mkLedger (Some "A1") (Some 86400) (Some "B1") "7" (Some "Shop") (Some "P1")
            (Some 2) (Some 5000) (Some "Co") (Some "R1") (Some 600) (Some 70000) None;
   mkLedger (Some "A2") (Some 432000) (Some "B1") "8" (Some "Kiosk") (Some "P1")
            (Some 1) (Some 900) (Some "Co") (Some "R1") (Some 10) (Some 0) None;
   mkLedger (Some "A3") (Some 172800) (Some "B2") "9" (Some "Stall") (Some "P2")
            (Some 4) (Some 2500) (Some "Co") (Some "R2") (Some 200) (Some 3000) None;
   mkLedger (Some "A4") (Some 777600) (Some "B1") "7" (Some "Shop") (Some "P2")
            (Some 1) (Some 1500) (Some "Co") (Some "R1") (Some 100) (Some 70000) None].

(** Sample store: five customers with dated sales and five different
    recencies. *)
Definition five_customer_ledger : list LedgerRow :=
  three_customer_ledger ++
  [mkLedger (Some "A5") (Some 345600) (Some "B2") "10" (Some "Mart") (Some "P1")
            (Some 3) (Some 4000) (Some "Co") (Some "R2") (Some 450) (Some 0) None;
   mkLedger (Some "A6") (Some 604800) (Some "B2") "11" (Some "Store") (Some "P3")
            (Some 6) (Some 12000) (Some "Co") (Some "R2") (Some 300) (Some 1500) None].

(** The body of [assign_priority], on the segment and the risk flag. *)
Definition priority_of (segment risk : string) : Z :=
  if contains "🚨" segment || contains "CREDIT" risk then 1
  else if contains "⚠️" segment || contains "💸" segment then 2
  else if contains "📈" segment || contains "📉" segment
          || contains "INACTIVE" risk then 3
  else if contains "👑" segment || contains "💎" segment then 4
  else 5.

(** ** Analysis functions of [scoring.py] *)

Definition np_add (a b : npfloat) : npfloat :=
  match a, b with
  | NaN, _ | _, NaN => NaN
  | Finite x, Finite y => Finite (x + y)
  | PosInf, NegInf | NegInf, PosInf => NaN
  | PosInf, _ | _, PosInf => PosInf
  | NegInf, _ | _, NegInf => NegInf
  end.

Definition np_isnan (a : npfloat) : bool :=
  match a with NaN => true | _ => false end.

(** [Series.mean()]: missing values are skipped; the mean of nothing is NaN. *)
Definition np_mean (l : list npfloat) : npfloat :=
  match filter (fun a => negb (np_isnan a)) l with
  | [] => NaN
  | xs => np_div (fold_right np_add (Finite 0) xs)
                 (np_of_Z (Z.of_nat (List.length xs)))
  end.

Definition rec_balance (r : ScoreRecord) : Z := balance (customer (scored r)).

(** The dictionary that [get_credit_summary] returns. *)
Record CreditSummary : Type := mkCreditSummary {
  total_customers : Z;
  customers_owing_count : Z;
  customers_owing_amount : Z;
  customers_we_owe_count : Z;
  customers_we_owe_amount : Z;
  net_balance : Z;
  avg_dso : npfloat;
  high_risk_count : Z;
  high_risk_amount : Z
}.

Definition count_rows {A} (l : list A) : Z := Z.of_nat (List.length l).

(** The dtypes of the three money columns of the scored frame: [int64] when
    the query delivers integers only, [float64] otherwise, which depends on
    how the columns of the table [sales_data] are stored (INTEGER or REAL). *)
Record ScoreDtypes : Type := mkScoreDtypes {
  balance_int64 : bool;
  sales_int64 : bool;
  profit_int64 : bool
}.

(** [abs] of an element of a column of that dtype. *)
Definition abs_as (int64 : bool) (z : Z) : Z :=
  if int64 then wrap64 (Z.abs z) else Z.abs z.

(** The body of [get_credit_summary] over the scored frame; [None] is the
    empty dictionary returned for an empty frame. *)
Definition credit_summary_of (dt : ScoreDtypes) (scores : list ScoreRecord)
  : option CreditSummary :=
  match scores with
  | [] => None
  | _ =>
      let sum := sum_as (balance_int64 dt) in
      let owing := filter (fun r => 0 <? rec_balance r) scores in
      let we_owe := filter (fun r => rec_balance r <? 0) scores in
      Some (mkCreditSummary
              (count_rows scores)
              (count_rows owing)
              (sum (map rec_balance owing))
              (count_rows we_owe)
              (abs_as (balance_int64 dt) (sum (map rec_balance we_owe)))
              (sum (map rec_balance scores))
              (if 0 <? count_rows owing then np_mean (map out_dso owing)
               else Finite 0)
              (count_rows (filter (fun r => C_Score (scored r) <=? 2) scores))
              (sum (map rec_balance
                        (filter (fun r => (C_Score (scored r) <=? 2)
                                          && (0 <? rec_balance r)) scores))))
  end.

Definition get_credit_summary {S : SortValues} {P : ArbitraryRow}
    (dt : ScoreDtypes) (now : Time) (db : Database) : outcome (option CreditSummary) :=
  scores <- get_customer_scores now db ;; Returned (credit_summary_of dt scores).

(** [DataFrame.head(n)]: the first [n] rows, or all but the last [-n]. *)
Definition head {A} (n : Z) (l : list A) : list A :=
  if 0 <=? n then firstn (Z.to_nat n) l
  else firstn (List.length l - Z.to_nat (- n)) l.

(** Order of [sort_values(['Priority', 'balance'], ascending=[True, False])]. *)
Definition by_priority_then_balance (a b : ScoreRecord) : bool :=
  (Priority a <? Priority b)
  || ((Priority a =? Priority b) && (rec_balance b <=? rec_balance a)).

(** The body of [get_risk_customers] over the scored frame.  [risk_type] is
    ["ALL"] or a plain word such as ["CREDIT"]: [str.contains] reads it as a
    regular expression, which for a word without special characters is the
    search of a substring. *)
Definition risk_customers_of {S : SortValues} (scores : list ScoreRecord)
    (risk_type : string) (limit : Z) : list ScoreRecord :=
  match scores with
  | [] => []
  | _ =>
      let risky :=
        if String.eqb risk_type "ALL"
        then filter (fun r => negb (String.eqb (Risk_Flag r) "OK")) scores
        else filter (fun r => contains risk_type (Risk_Flag r)) scores in
      head limit (sort_values by_priority_then_balance risky)
  end.

Definition get_risk_customers {S : SortValues} {P : ArbitraryRow}
    (now : Time) (db : Database) (risk_type : string) (limit : Z)
  : outcome (list ScoreRecord) :=
  scores <- get_customer_scores now db ;;
  Returned (risk_customers_of scores risk_type limit).

(** One row of the frame that [get_segment_summary] returns; the index is
    the segment, and [round(0)] makes the average score a whole number. *)
Record SegmentSummary : Type := mkSegmentSummary {
  seg_segment : string;
  seg_count : Z;
  seg_total_sales : Z;
  seg_total_balance : Z;
  seg_total_profit : Z;
  seg_avg_score : Z
}.

Definition rec_sales (r : ScoreRecord) : Z := monetary_value (customer (scored r)).
Definition rec_profit (r : ScoreRecord) : Z := total_profit (customer (scored r)).

Definition summarize_segment (dt : ScoreDtypes) (g : string * list ScoreRecord)
  : SegmentSummary :=
  let rows := snd g in
  mkSegmentSummary
    (fst g)
    (count_rows rows)
    (sum_as (sales_int64 dt) (map rec_sales rows))
    (sum_as (balance_int64 dt) (map rec_balance rows))
    (sum_as (profit_int64 dt) (map rec_profit rows))
    (round_half_even
       (inject_Z (sum_Z (map (fun r => Total_Score (scored r)) rows))
        / inject_Z (count_rows rows))).

(** The body of [get_segment_summary] over the scored frame: one row per
    segment, the highest average score first. *)
Definition segment_summary_of {S : SortValues} (dt : ScoreDtypes)
    (scores : list ScoreRecord) : list SegmentSummary :=
  match scores with
  | [] => []
  | _ =>
      sort_values (fun a b => seg_avg_score b <=? seg_avg_score a)
        (map (summarize_segment dt)
             (insertion_sort (fun a b => String.leb (fst a) (fst b))
                             (group_rows String.eqb Segment scores)))
  end.

Definition get_segment_summary {S : SortValues} {P : ArbitraryRow}
    (dt : ScoreDtypes) (now : Time) (db : Database) : outcome (list SegmentSummary) :=
  scores <- get_customer_scores now db ;; Returned (segment_summary_of dt scores).

(** Sample scored rows: two customers in one segment, one in another. *)
Definition sample_scored : list Scored :=
  [mkScored (mkCustomer (Some "A") "1" 3 4 9000 700 12000 30) 5 4 5 5 4;
   mkScored (mkCustomer (Some "B") "2" 5 3 7000 900 0 14) 5 4 4 5 5;
   mkScored (mkCustomer (Some "C") "3" 90 1 800 10 65000 7) 1 1 1 1 1].

(** The credit side gives the code [c] the identity [id]. *)
Definition has_identity (id : string) (c : RawCode) : bool :=
  match standardize_credit c with
  | Some s => String.eqb s id
  | None => false
  end.

(** The rows of the customer summary that carry the identity [id]. *)
Definition summary_rows_of (id : string) (summary : list CustomerSummary)
  : list CustomerSummary :=
  filter (fun c => String.eqb (cs_customer_code c) id) summary.

(** A credit file in which customer 7 appears twice, once with a numeric
    code and once with the code typed as text, and the sales of customer 7. *)
Definition mixed_code_sources : Sources :=
  mkSources (FileData [mkCredit (CodeInt 7) (Some (-1000)) None;
                       mkCredit (CodeStr "7") (Some (-250)) None])
            [FileData scenario_sales]
            FileNotFound 864000 None.

(** Reading of "for every pair of sales rows with the same (invoice number,
    product) but different delivery dates, the deduplication keeps exactly
    one of them, namely the row with the later delivery date". *)
Definition keeps_the_later_of_every_pair {S : SortValues} {C : Type}
    (sales_df : list (SalesLine C)) : Prop :=
  forall (earlier later : SalesLine C) (d1 d2 : Time),
    In earlier sales_df -> In later sales_df ->
    same_invoice_product earlier later = true ->
    delivery_date earlier = Some d1 -> delivery_date later = Some d2 ->
    d1 < d2 ->
    In later (deduplicate_sales sales_df)
    /\ ~ In earlier (deduplicate_sales sales_df).

(** One product line of one invoice delivered three times. *)
Definition delivered_last : SalesLine RawCode :=
  sample_line (CodeInt 7) "INV1" "X" 1 150 259200.
Definition delivered_three_times : list (SalesLine RawCode) :=
  [delivered_first; delivered_later; delivered_last].

(* ================================================================== *)
(** * Part II. Properties *)
(* ================================================================== *)

(** ** Segment assignment *)

(** C9. The rules of [assign_segment] are tried in order and the first that
    matches decides: a row with credit sub-score 1 and a balance above 50000
    (60000, say) is "High Risk" whatever its composite score, its profit
    sub-score and its RFM score are, hence also when the composite score is
    85 or more and the row would otherwise be a "Champions" row. *)
Theorem high_risk_rule_wins (total c_score p_score bal rfm : Z) :
  c_score = 1 ->
  50000 < bal ->
  assign_segment total c_score p_score bal rfm = "🚨 High Risk".
Proof.
  intros Hc Hb. unfold assign_segment.
  replace (c_score =? 1) with true by (symmetry; apply Z.eqb_eq; exact Hc).
  replace (50000 <? bal) with true by (symmetry; apply Z.ltb_lt; exact Hb).
  reflexivity.
Qed.

Lemma high_risk_rule_wins_witness :
  assign_segment 90 1 5 60000 15 = "🚨 High Risk".
Proof.
  apply (@high_risk_rule_wins 90 1 5 60000 15); [reflexivity | lia].
Defined.

(** Without the credit rule the same composite score gives "Champions". *)
Lemma champions_without_credit_rule :
  assign_segment 90 3 5 60000 15 = "👑 Champions".
Proof. reflexivity. Qed.

(** ** Days sales outstanding *)

Lemma Qlt_bool_iff (a b : Q) : Qlt_bool a b = true <-> (a < b)%Q.
Proof.
  unfold Qlt_bool. rewrite negb_true_iff.
  split; intro H.
  - apply Qnot_le_lt. intro Hle. apply Qle_bool_iff in Hle. congruence.
  - destruct (Qle_bool b a) eqn:E; [|reflexivity].
    apply Qle_bool_iff in E. exfalso. exact (Qlt_not_le _ _ H E).
Qed.

Lemma Qlt_bool_false_iff (a b : Q) : Qlt_bool a b = false <-> (b <= a)%Q.
Proof.
  unfold Qlt_bool. rewrite negb_false_iff. apply Qle_bool_iff.
Qed.

Lemma Qeq_bool_false_of_neq (a b : Q) : ~ (a == b)%Q -> Qeq_bool a b = false.
Proof.
  intro H. destruct (Qeq_bool a b) eqn:E; [|reflexivity].
  apply Qeq_bool_iff in E. contradiction.
Qed.

(** Clipping a finite value gives a finite value between the bounds. *)
Lemma np_clip_finite (lo hi q : Q) :
  (lo <= hi)%Q ->
  exists q', np_clip (Some lo) (Some hi) (Finite q) = Finite q'
             /\ (lo <= q' <= hi)%Q
             /\ (q' == Qmin hi (Qmax lo q))%Q.
Proof.
  intro Hlh. unfold np_clip, np_lt, np_le.
  destruct (Qle_bool lo q) eqn:E1; cbn [negb].
  - apply Qle_bool_iff in E1.
    destruct (Qle_bool q hi) eqn:E2; cbn [negb].
    + apply Qle_bool_iff in E2. exists q. split; [reflexivity|]. split; [tauto|].
      rewrite (Q.max_r lo q) by exact E1. rewrite Q.min_r by exact E2. reflexivity.
    + assert (hi < q)%Q as Hlt.
      { apply Qnot_le_lt. intro H. apply Qle_bool_iff in H. congruence. }
      exists hi. split; [reflexivity|]. split; [split; [exact Hlh | apply Qle_refl]|].
      rewrite (Q.max_r lo q) by exact E1.
      rewrite Q.min_l by (apply Qlt_le_weak; exact Hlt). reflexivity.
  - assert (q < lo)%Q as Hlt.
    { apply Qnot_le_lt. intro H. apply Qle_bool_iff in H. congruence. }
    replace (Qle_bool lo hi) with true by (symmetry; apply Qle_bool_iff; exact Hlh).
    cbn [negb]. exists lo. split; [reflexivity|].
    split; [split; [apply Qle_refl | exact Hlh]|].
    rewrite (Q.max_l lo q) by (apply Qlt_le_weak; exact Hlt).
    rewrite Q.min_r by exact Hlh. reflexivity.
Qed.

Lemma days_active_clean (r : QueryRow) : 7 <= days_active (clean_row r).
Proof. unfold clean_row; cbn. unfold VISIT_CYCLE_DAYS. lia. Qed.

(** After the cleaning, the weekly sales rate is a finite number: its
    divisor, the active span, is at least 7. *)
Lemma weekly_sales_clean (r : QueryRow) :
  weekly_sales (clean_row r) =
  Finite (inject_Z (monetary_value (clean_row r))
          / inject_Z (days_active (clean_row r)) * inject_Z VISIT_CYCLE_DAYS).
Proof.
  pose proof (days_active_clean r) as Hd.
  unfold weekly_sales, np_of_Z, np_div.
  generalize dependent (days_active (clean_row r)). intros d Hd.
  rewrite Qeq_bool_false_of_neq; [reflexivity|].
  intro H. unfold Qeq in H. cbn in H. lia.
Qed.

Lemma dso_unguarded (c : Customer) (w : Q) :
  weekly_sales c = Finite w ->
  ((w <= 0)%Q \/ balance c <= 0) ->
  dso c = Finite 0.
Proof.
  intros Hw Hcase. unfold dso. rewrite Hw.
  assert (np_lt (Finite 0) (Finite w) && (0 <? balance c) = false) as ->.
  { destruct Hcase as [H|H].
    - cbn. apply Qle_bool_iff in H. rewrite H. reflexivity.
    - apply andb_false_iff. right. apply Z.ltb_ge. exact H. }
  reflexivity.
Qed.

Lemma dso_guarded (c : Customer) (w : Q) :
  weekly_sales c = Finite w ->
  (0 < w)%Q -> 0 < balance c ->
  dso c = np_clip (Some 0%Q) (Some 999%Q)
                  (Finite (inject_Z (balance c) / w * inject_Z VISIT_CYCLE_DAYS)).
Proof.
  intros Hw Hpos Hb. unfold dso. rewrite Hw.
  assert (np_lt (Finite 0) (Finite w) && (0 <? balance c) = true) as ->.
  { apply andb_true_iff. split; [|apply Z.ltb_lt; exact Hb].
    cbn. apply negb_true_iff.
    destruct (Qle_bool w 0) eqn:E; [|reflexivity].
    apply Qle_bool_iff in E. exfalso. exact (Qlt_not_le _ _ Hpos E). }
  unfold np_where, np_of_Z, np_div.
  rewrite Qeq_bool_false_of_neq.
  - reflexivity.
  - intro H. rewrite H in Hpos. exact (Qlt_irrefl _ Hpos).
Qed.

(** C7. The DSO of a scored customer is computed without a division by zero
    and lies in [0, 999]: the weekly sales rate [w] is a finite number (the
    active span it is divided by is at least 7) and is positive for every
    customer the query lets through (monetary value above 0), so that the
    balance is never divided by 0 for them; with [w > 0] and a positive
    balance the DSO is [balance / w * 7] clamped to [0, 999]; whenever the
    balance is not positive or the weekly sales rate is 0 (in particular when
    the monetary value is 0 and the balance positive) the DSO is 0. *)
Theorem dso_zero_division_guard (r : QueryRow) :
  exists w d : Q,
    weekly_sales (clean_row r) = Finite w
    /\ dso (clean_row r) = Finite d
    /\ (0 <= d <= 999)%Q
    /\ ((0 < w)%Q -> 0 < balance (clean_row r) ->
        (d == Qmin 999 (Qmax 0 (inject_Z (balance (clean_row r)) / w * 7)))%Q)
    /\ (balance (clean_row r) <= 0 \/ (w == 0)%Q -> d = 0%Q)
    /\ (monetary_value (clean_row r) = 0 -> d = 0%Q)
    /\ (0 < monetary_value (clean_row r) -> (0 < w)%Q).
Proof.
  pose proof (weekly_sales_clean r) as Hw.
  pose proof (days_active_clean r) as Hdays.
  set (c := clean_row r) in *.
  set (w := (inject_Z (monetary_value c) / inject_Z (days_active c)
             * inject_Z VISIT_CYCLE_DAYS)%Q) in *.
  assert (forall d0, dso c = Finite d0 ->
                     balance c <= 0 \/ (w == 0)%Q -> d0 = 0%Q) as Hzero.
  { intros d0 Hd [Hb|Hz].
    - rewrite (dso_unguarded c Hw) in Hd by (right; exact Hb). congruence.
    - rewrite (dso_unguarded c Hw) in Hd
        by (left; rewrite Hz; apply Qle_refl). congruence. }
  assert (monetary_value c = 0 -> (w == 0)%Q) as Hmon.
  { intro Hm. unfold w. rewrite Hm. unfold Qeq. cbn. reflexivity. }
  assert (0 < monetary_value c -> (0 < w)%Q) as Hsold.
  { intro Hm. unfold w.
    assert (0 < inject_Z (monetary_value c))%Q as H1
        by (change 0%Q with (inject_Z 0); rewrite <- Zlt_Qlt; exact Hm).
    assert (0 < inject_Z (days_active c))%Q as H2
        by (change 0%Q with (inject_Z 0); rewrite <- Zlt_Qlt; lia).
    assert (0 < inject_Z (monetary_value c) / inject_Z (days_active c))%Q as H3
        by (apply Qlt_shift_div_l; [exact H2 | lra]).
    apply Qmult_lt_0_compat; [exact H3 | reflexivity]. }
  destruct (Qlt_le_dec 0 w) as [Hpos|Hnonpos].
  - destruct (Z_lt_le_dec 0 (balance c)) as [Hb|Hb].
    + destruct (@np_clip_finite 0 999
                  (inject_Z (balance c) / w * inject_Z VISIT_CYCLE_DAYS))
        as (d & Hclip & Hrange & Heq); [discriminate|].
      exists w, d. rewrite (dso_guarded c Hw Hpos Hb).
      split; [exact Hw|]. split; [exact Hclip|]. split; [exact Hrange|].
      split; [intros _ _; exact Heq|].
      split; [|split; [|exact Hsold]].
      * intros [Hb'|Hz]; [lia|]. rewrite Hz in Hpos.
        exfalso. exact (Qlt_irrefl _ Hpos).
      * intro Hm. apply Hmon in Hm. rewrite Hm in Hpos.
        exfalso. exact (Qlt_irrefl _ Hpos).
    + exists w, 0%Q. rewrite (dso_unguarded c Hw) by (right; exact Hb).
      split; [exact Hw|]. split; [reflexivity|].
      split; [split; discriminate|].
      split; [intros _ Hb'; lia|].
      split; [|split; [|exact Hsold]]; intros _; reflexivity.
  - exists w, 0%Q. rewrite (dso_unguarded c Hw) by (left; exact Hnonpos).
    split; [exact Hw|]. split; [reflexivity|].
    split; [split; discriminate|].
    split; [intro Hpos; exfalso; exact (Qlt_not_le _ _ Hpos Hnonpos)|].
    split; [|split; [|exact Hsold]]; intros _; reflexivity.
Qed.

(** The guard at work: no sales (monetary value 0) and a balance of 500. *)
Example dso_no_sales_balance_500 :
  dso (clean_row (mkQueryRow None "7" (Some 3) (Some 0) (Some 0) (Some 0)
                             (Some 500) (Some 0))) = Finite 0
  /\ calculate_credit_score
       (clean_row (mkQueryRow None "7" (Some 3) (Some 0) (Some 0) (Some 0)
                              (Some 500) (Some 0))) = 5.
Proof. split; reflexivity. Qed.

(** ** Identity standardization *)

Lemma digits_value_numeral (d : Decimal.uint) :
  forall acc after_digit,
    d <> Nil \/ after_digit = true ->
    digits_value acc after_digit (NilEmpty.string_of_uint d) = Some (uint_value acc d).
Proof.
  induction d; intros acc b Hb;
    try (cbn; apply IHd; right; reflexivity).
  cbn. destruct Hb as [H| ->]; [congruence | reflexivity].
Qed.

Lemma uint_value_of_uint_acc (d : Decimal.uint) :
  forall p, Z.pos (Pos.of_uint_acc d p) = uint_value (Z.pos p) d.
Proof.
  induction d; intro p; cbn [Pos.of_uint_acc uint_value];
    try reflexivity; rewrite IHd; f_equal; lia.
Qed.

Lemma uint_value_of_uint (d : Decimal.uint) :
  Z.of_N (Pos.of_uint d) = uint_value 0 d.
Proof.
  induction d; cbn [Pos.of_uint uint_value]; try reflexivity;
    try exact IHd; cbn [Z.of_N]; rewrite uint_value_of_uint_acc; reflexivity.
Qed.

Lemma uint_value_to_uint (p : positive) : uint_value 0 (Pos.to_uint p) = Z.pos p.
Proof.
  rewrite <- uint_value_of_uint, DecimalPos.Unsigned.of_to. reflexivity.
Qed.

Lemma rstrip_no_space (s : string) : no_space s = true -> rstrip s = s.
Proof.
  induction s as [|c rest IH]; cbn; [reflexivity|].
  intro H. apply andb_true_iff in H. destruct H as [Hc Hr].
  rewrite (IH Hr). apply negb_true_iff in Hc. rewrite Hc.
  destruct rest; reflexivity.
Qed.

Lemma strip_no_space (s : string) : no_space s = true -> strip s = s.
Proof.
  intro H. unfold strip.
  assert (lstrip s = s) as ->.
  { destruct s as [|c rest]; [reflexivity|]. cbn in *.
    apply andb_true_iff in H. destruct H as [Hc _].
    apply negb_true_iff in Hc. rewrite Hc. reflexivity. }
  apply rstrip_no_space. exact H.
Qed.

Lemma numeral_no_space (d : Decimal.uint) :
  no_space (NilEmpty.string_of_uint d) = true.
Proof. induction d; cbn; auto. Qed.

Lemma py_int_of_numeral (d : Decimal.uint) :
  d <> Nil ->
  py_int_of_str (NilEmpty.string_of_uint d) = Some (uint_value 0 d).
Proof.
  intro Hd. unfold py_int_of_str.
  rewrite strip_no_space by apply numeral_no_space.
  pose proof (@digits_value_numeral d 0 false (or_introl Hd)) as H.
  destruct d; try congruence; exact H.
Qed.

Lemma py_int_of_negative_numeral (d : Decimal.uint) :
  d <> Nil ->
  py_int_of_str (String "-" (NilEmpty.string_of_uint d)) = Some (- uint_value 0 d).
Proof.
  intro Hd. unfold py_int_of_str.
  rewrite strip_no_space by (cbn; apply numeral_no_space).
  rewrite (@digits_value_numeral d 0 false (or_introl Hd)). reflexivity.
Qed.

(** [int(str(z)) == z]: the decimal string of an integer parses back to it. *)
Lemma py_int_of_str_of_int (z : Z) : py_int_of_str (str_of_int z) = Some z.
Proof.
  unfold str_of_int. destruct z as [|p|p]; cbn [Z.to_int NilEmpty.string_of_int].
  - reflexivity.
  - rewrite py_int_of_numeral by apply DecimalPos.Unsigned.to_uint_nonnil.
    rewrite uint_value_to_uint. reflexivity.
  - rewrite py_int_of_negative_numeral by apply DecimalPos.Unsigned.to_uint_nonnil.
    rewrite uint_value_to_uint. reflexivity.
Qed.

Lemma length_append (s t : string) :
  String.length (s ++ t) = (String.length s + String.length t)%nat.
Proof. induction s as [|c s IH]; cbn; [reflexivity | rewrite IH; reflexivity]. Qed.

(** An identity never ends like a float: appending [".0"] changes the string. *)
Lemma append_suffix_neq (s t : string) : t <> "" -> (s ++ t)%string <> s.
Proof.
  intros Ht H.
  assert (String.length (s ++ t) = String.length s) as Hlen by (rewrite H; reflexivity).
  rewrite length_append in Hlen.
  destruct t; [congruence|]. cbn in Hlen. lia.
Qed.

(** Integer codes and their decimal strings are standardized alike on the
    two sides. *)
Lemma to_int64_some (z : Z) : in_int64 z = true -> to_int64 z = Some z.
Proof. unfold to_int64. intros ->. reflexivity. Qed.

Lemma to_int64_inv (z v : Z) : to_int64 z = Some v -> v = z /\ in_int64 z = true.
Proof.
  unfold to_int64. destruct (in_int64 z); [|discriminate].
  intros [= <-]. tauto.
Qed.

Lemma in_int64_iff (z : Z) : in_int64 z = true <-> - 2 ^ 63 <= z < 2 ^ 63.
Proof.
  unfold in_int64, INT64_MIN, INT64_MAX.
  rewrite andb_true_iff, !Z.leb_le. lia.
Qed.

Lemma wrap64_in_range (z : Z) : in_int64 (wrap64 z) = true.
Proof.
  apply in_int64_iff. unfold wrap64.
  pose proof (Z.mod_pos_bound (z + 2 ^ 63) (2 ^ 64) ltac:(lia)). lia.
Qed.

Lemma wrap64_small (z : Z) : in_int64 z = true -> wrap64 z = z.
Proof.
  intro H. apply in_int64_iff in H. unfold wrap64.
  rewrite Z.mod_small by lia. lia.
Qed.

Lemma int_codes_agree (z : Z) :
  in_int64 z = true ->
  standardize_credit (CodeInt z) = Some (standardize_sales (CodeInt z)).
Proof. intro H. cbn. rewrite (to_int64_some _ H). reflexivity. Qed.

Lemma decimal_string_codes_agree (z : Z) :
  in_int64 z = true ->
  standardize_credit (CodeStr (str_of_int z))
  = Some (standardize_sales (CodeStr (str_of_int z))).
Proof.
  intro H. cbn. rewrite py_int_of_str_of_int. cbn. rewrite (to_int64_some _ H).
  reflexivity.
Qed.

Lemma credit_side_representation_independent (z : Z) :
  in_int64 z = true ->
  standardize_credit (CodeInt z) = Some (str_of_int z)
  /\ standardize_credit (CodeFloat z) = Some (str_of_int z)
  /\ standardize_credit (CodeStr (str_of_int z)) = Some (str_of_int z).
Proof.
  intro H. cbn. rewrite py_int_of_str_of_int. cbn. rewrite (to_int64_some _ H).
  repeat split.
Qed.

(** C1 (fails on the sales side). A code that arrives as a float on the sales
    side keeps its float formatting: for the logical code 7 the credit side
    yields ["7"] for each of 7, 7.0 and "7", the sales side yields ["7"] for 7
    and "7" but ["7.0"] for 7.0, and no float code is ever standardized to the
    same identity by the two sides. *)
Theorem sales_side_keeps_float_formatting :
  standardize_credit (CodeInt 7) = Some "7"
  /\ standardize_credit (CodeFloat 7) = Some "7"
  /\ standardize_credit (CodeStr "7") = Some "7"
  /\ standardize_sales (CodeInt 7) = "7"
  /\ standardize_sales (CodeStr "7") = "7"
  /\ standardize_sales (CodeFloat 7) = "7.0"
  /\ forall z, standardize_credit (CodeFloat z)
               <> Some (standardize_sales (CodeFloat z)).
Proof.
  repeat split.
  intros z H. cbn in H. destruct (to_int64 z) as [v|] eqn:E; [|discriminate].
  apply to_int64_inv in E. destruct E as [-> _].
  cbn in H. injection H as H. symmetry in H.
  revert H. apply append_suffix_neq. discriminate.
Qed.

(** ** Facts about the table operations *)

Section TableFacts.
Variable A : Type.
Variable same : A -> A -> bool.

Lemma drop_duplicates_from_In (l : list A) :
  forall seen x, In x (drop_duplicates_from same seen l) -> In x l.
Proof.
  induction l as [|y l IH]; intros seen x H; cbn in *; [exact H|].
  destruct (existsb (same y) seen).
  - right. exact (IH _ _ H).
  - destruct H as [H|H]; [left; exact H | right; exact (IH _ _ H)].
Qed.

Lemma drop_duplicates_first_In (l : list A) (x : A) :
  In x (drop_duplicates_first same l) -> In x l.
Proof. apply drop_duplicates_from_In. Qed.

Lemma drop_duplicates_last_In (l : list A) (x : A) :
  In x (drop_duplicates_last same l) -> In x l.
Proof.
  induction l as [|y l IH]; cbn; [tauto|].
  destruct (existsb (same y) l); cbn; intuition.
Qed.

Lemma filter_none (p : A -> bool) (l : list A) :
  (forall x, In x l -> p x = false) -> filter p l = [].
Proof.
  induction l as [|y l IH]; intro H; cbn; [reflexivity|].
  rewrite (H y (or_introl eq_refl)). apply IH.
  intros x Hx. apply H. right. exact Hx.
Qed.
End TableFacts.

(** ** Failure of the reconciliation *)

Lemma read_sales_files_unreadable (fs : list (file_read (SalesLine RawCode))) f :
  In f fs -> unreadable f -> read_sales_files fs = None.
Proof.
  induction fs as [|g fs IH]; intros Hin Hf; [contradiction|].
  destruct Hin as [->|Hin].
  - destruct Hf as [-> | ->]; reflexivity.
  - cbn. destruct g; try reflexivity. rewrite (IH Hin Hf). reflexivity.
Qed.

Lemma immediate_matches_disjoint (credit_df : list (CreditRec string))
    (sales_df : list (SalesLine string)) :
  (forall c, In c (map (@cr_customer_code string) credit_df) ->
             ~ In c (map (@customer_code string) sales_df)) ->
  immediate_matches credit_df sales_df = 0%nat.
Proof.
  intro H. unfold immediate_matches. rewrite filter_none; [reflexivity|].
  intros c Hc. apply drop_duplicates_first_In in Hc.
  destruct (existsb (fun s => (c =? customer_code s)%string) sales_df) eqn:E;
    [|reflexivity].
  apply existsb_exists in E. destruct E as (s & Hs & Heq).
  apply String.eqb_eq in Heq. exfalso. apply (H c Hc).
  rewrite Heq. apply in_map. exact Hs.
Qed.

Lemma reconcile_fails {S : SortValues} (src : Sources) :
  reconciliation_fails src -> reconcile src = ReturnedNone.
Proof.
  intros [Hc | f Hin Hf | credit_rows sales_dfs ids Hc Hs Hids Hdisj];
    unfold reconcile.
  - destruct Hc as [-> | ->]; reflexivity.
  - rewrite (read_sales_files_unreadable _ Hin Hf).
    destruct (credit_file src); reflexivity.
  - rewrite Hc, Hs. cbn [bind].
    destruct sales_dfs as [|df dfs]; [reflexivity|]. cbn [bind].
    unfold credit_identities in Hids.
    destruct (standardize_credit_codes (load_credit credit_rows)) as [std|];
      [|discriminate].
    cbn [bind]. injection Hids as Hids. subst ids.
    rewrite immediate_matches_disjoint; [reflexivity|].
    intros c Hcin Hsin. apply (Hdisj c Hcin).
    unfold sales_identities. rewrite map_map in Hsin. exact Hsin.
Qed.

(** C3. Whenever the reconciliation fails (the credit file or one of the
    sales files is missing or cannot be read, or the identities of the credit
    roster and of the sales lines have nothing in common after the
    standardization), [load_clean_and_merge_data] returns [None], and
    [update_database] returns [False] and leaves the store as it was. *)
Theorem failed_reconciliation_keeps_ledger {S : SortValues} (src : Sources)
    (db : Database) :
  reconciliation_fails src ->
  load_clean_and_merge_data src = ReturnedNone
  /\ update_database src db = (Returned false, db).
Proof.
  intro H. apply reconcile_fails in H.
  unfold update_database, load_clean_and_merge_data. rewrite H. split; reflexivity.
Qed.

Lemma failed_reconciliation_keeps_ledger_witness :
  load_clean_and_merge_data float_coded_sources = ReturnedNone
  /\ update_database float_coded_sources (Some []) = (Returned false, Some []).
Proof.
  apply (@failed_reconciliation_keeps_ledger insertion_sort_values
           float_coded_sources (Some [])).
  eapply no_common_identity; try reflexivity.
  intros c [<-|[]] [H|[]]. discriminate H.
Defined.

(** ** The reference sort satisfies the laws of [sort_values] *)

Section InsertionSort.
Variable A : Type.
Variable le : A -> A -> bool.

Lemma insert_sorted_perm (x : A) (l : list A) :
  Permutation (x :: l) (insert_sorted le x l).
Proof.
  induction l as [|y l IH]; cbn; [apply Permutation_refl|].
  destruct (le x y); [apply Permutation_refl|].
  eapply perm_trans; [apply perm_swap|]. apply perm_skip. exact IH.
Qed.

Lemma insertion_sort_perm (l : list A) : Permutation l (insertion_sort le l).
Proof.
  induction l as [|x l IH]; cbn; [apply perm_nil|].
  eapply perm_trans; [apply perm_skip; exact IH|]. apply insert_sorted_perm.
Qed.

Hypothesis le_total : forall a b, le a b = true \/ le b a = true.
Hypothesis le_trans : forall a b c, le a b = true -> le b c = true -> le a c = true.

Lemma insert_sorted_sorted (x : A) (l : list A) :
  StronglySorted (fun a b => le a b = true) l ->
  StronglySorted (fun a b => le a b = true) (insert_sorted le x l).
Proof.
  induction l as [|y l IH]; intro Hs; cbn.
  - constructor; constructor.
  - inversion Hs as [|? ? Hs' Hall]; subst.
    destruct (le x y) eqn:E.
    + constructor; [exact Hs|]. constructor; [exact E|].
      eapply Forall_impl; [|exact Hall]. intros z Hz. exact (le_trans E Hz).
    + constructor; [exact (IH Hs')|].
      apply (Permutation_Forall (insert_sorted_perm x l)).
      constructor; [|exact Hall].
      destruct (le_total x y) as [H|H]; [congruence | exact H].
Qed.

Lemma insertion_sort_sorted (l : list A) :
  StronglySorted (fun a b => le a b = true) (insertion_sort le l).
Proof.
  induction l as [|x l IH]; cbn; [constructor|].
  apply insert_sorted_sorted. exact IH.
Qed.
End InsertionSort.

#[export] Instance insertion_sort_laws : SortValuesLaws insertion_sort_values.
Proof.
  split.
  - intros A le l. apply insertion_sort_perm.
  - intros A le l Htot Htrans. apply insertion_sort_sorted; assumption.
Qed.

#[export] Instance first_row_laws : ArbitraryRowLaws first_row.
Proof. intros A x xs. left. reflexivity. Qed.

(** ** Cardinality of the customer summary *)

Section DistinctKeys.
Variable A : Type.
Variable same : A -> A -> bool.

Lemma drop_duplicates_from_unseen (l : list A) :
  forall seen x,
    In x (drop_duplicates_from same seen l) -> existsb (same x) seen = false.
Proof.
  induction l as [|y l IH]; intros seen x H; cbn in H; [contradiction|].
  destruct (existsb (same y) seen) eqn:E.
  - exact (IH _ _ H).
  - destruct H as [<-|H]; [exact E|].
    apply IH in H. cbn in H. apply orb_false_iff in H. tauto.
Qed.

Hypothesis same_refl : forall a, same a a = true.

Lemma drop_duplicates_from_NoDup (l : list A) :
  forall seen, NoDup (drop_duplicates_from same seen l).
Proof.
  induction l as [|y l IH]; intro seen; cbn; [constructor|].
  destruct (existsb (same y) seen); [apply IH|].
  constructor; [|apply IH].
  intro H. apply drop_duplicates_from_unseen in H.
  cbn in H. rewrite same_refl in H. discriminate.
Qed.
End DistinctKeys.

Section UniqueKey.
Variables (R K : Type) (key : R -> K) (keyeq : K -> K -> bool).
Hypothesis keyeq_eq : forall a b, keyeq a b = true -> a = b.

Lemma filter_unique_key (c : K) (rows : list R) :
  NoDup (map key rows) ->
  (List.length (filter (fun r => keyeq c (key r)) rows) <= 1)%nat.
Proof.
  induction rows as [|y rows IH]; intro Hnd; cbn; [lia|].
  inversion Hnd as [|? ? Hnotin Hnd']; subst.
  destruct (keyeq c (key y)) eqn:E; [|exact (IH Hnd')].
  rewrite filter_none; [cbn; lia|].
  intros x Hx. destruct (keyeq c (key x)) eqn:E'; [|reflexivity].
  apply keyeq_eq in E, E'. exfalso. apply Hnotin.
  rewrite <- E, E'. apply in_map. exact Hx.
Qed.
End UniqueKey.

(** A left merge against a table in which no key occurs twice has exactly
    one row per left row, in the order of the left table. *)
Lemma merge_left_one_per_row {L R O P : Type} (matches : L -> R -> bool)
    (combine : L -> option R -> O) (proj : O -> P) (p : L -> P)
    (left : list L) (right : list R) :
  (forall l r, proj (combine l r) = p l) ->
  (forall l, (List.length (filter (matches l) right) <= 1)%nat) ->
  map proj (merge_left matches combine left right) = map p left.
Proof.
  intros Hproj Hone. unfold merge_left.
  induction left as [|l left IH]; [reflexivity|].
  cbn [flat_map]. rewrite map_app, IH. cbn [map]. 
  change (p l :: map p left) with ([p l] ++ map p left). f_equal.
  specialize (Hone l).
  destruct (filter (matches l) right) as [|r [|r' rs]]; cbn in *;
    [rewrite Hproj; reflexivity | rewrite Hproj; reflexivity | lia].
Qed.

Lemma group_rows_keys {R K} (keyeq : K -> K -> bool) (key : R -> K) (rows : list R) :
  map fst (group_rows keyeq key rows) = drop_duplicates_first keyeq (map key rows).
Proof.
  unfold group_rows. rewrite map_map. cbn. apply map_id.
Qed.

(** The identities of [sales_aggregated] are pairwise distinct. *)
Lemma aggregate_sales_distinct (dt : SalesDtypes) (sales_df : list (SalesLine string)) :
  NoDup (map ag_customer_code (aggregate_sales dt sales_df)).
Proof.
  unfold aggregate_sales. rewrite map_map. cbn.
  change (fun x : string * list (SalesLine string) => fst x)
    with (@fst string (list (SalesLine string))).
  eapply Permutation_NoDup.
  - apply Permutation_map. apply insertion_sort_perm.
  - rewrite group_rows_keys. apply drop_duplicates_from_NoDup.
    apply String.eqb_refl.
Qed.

(** The merge of STEP 8 gives exactly one summary row per row of the credit
    roster it is given, with the identities in the same order, whatever the
    sales lines are. *)
Lemma merge_summary_identities (now : Time) (credit_df : list (CreditRec string))
    (dt : SalesDtypes) (sales_df : list (SalesLine string)) :
  map cs_customer_code (merge_summary now credit_df (aggregate_sales dt sales_df))
  = map (@cr_customer_code string) credit_df.
Proof.
  unfold merge_summary. apply merge_left_one_per_row.
  - intros l r. reflexivity.
  - intro l. apply filter_unique_key.
    + intros a b Hab. apply String.eqb_eq. exact Hab.
    + apply aggregate_sales_distinct.
Qed.

(** On a whole run: the summary that the loader holds at its last line lists
    the identities of the rows of the credit roster, deduplicated on the raw
    codes and stripped of the sentinel. *)
Lemma reconcile_summary_identities {S : SortValues} (src : Sources) (st : Reconciled) :
  reconcile src = Returned st ->
  exists rows ids,
    credit_file src = FileData rows
    /\ credit_identities rows = Some ids
    /\ map cs_customer_code (final_df st) = ids.
Proof.
  unfold reconcile. intro H.
  destruct (credit_file src) as [| |rows]; try discriminate. cbn [bind] in H.
  destruct (read_sales_files (sales_files src)) as [[|df dfs]|]; try discriminate.
  cbn [bind] in H.
  exists rows. unfold credit_identities.
  destruct (standardize_credit_codes (load_credit rows)) as [std|]; try discriminate.
  cbn [bind] in H.
  destruct (immediate_matches _ _ =? 0)%nat; try discriminate.
  injection H as <-. cbn [final_df option_map].
  eexists. split; [reflexivity|]. split; [reflexivity|].
  apply merge_summary_identities.
Qed.

(** ** What the loader returns *)

(** Every left row of a left merge appears in the result, and nothing else. *)
Lemma merge_left_covers {L R O P : Type} (matches : L -> R -> bool)
    (combine : L -> option R -> O) (proj : O -> P) (p : L -> P)
    (left : list L) (right : list R) :
  (forall l r, proj (combine l r) = p l) ->
  forall x, In x (map proj (merge_left matches combine left right))
            <-> In x (map p left).
Proof.
  intros Hproj x. unfold merge_left.
  induction left as [|l left IH]; [reflexivity|].
  cbn [flat_map map]. rewrite map_app, in_app_iff, IH.
  cbn [In].
  assert (In x (map proj
                  match filter (matches l) right with
                  | [] => [combine l None]
                  | r :: rs => map (fun r0 => combine l (Some r0)) (r :: rs)
                  end) <-> p l = x) as ->; [|reflexivity].
  destruct (filter (matches l) right) as [|r rs].
  - cbn. rewrite Hproj. tauto.
  - rewrite map_map. split.
    + intro H. apply in_map_iff in H. destruct H as (r0 & <- & _). symmetry. apply Hproj.
    + intros <-. left. apply Hproj.
Qed.

Lemma merge_detail_lines (sales_df : list (SalesLine string))
    (margin_df : list MarginRec) (credit_df : list (CreditRec string)) :
  forall line, In line (map dt_line (merge_detail sales_df margin_df credit_df))
               <-> In line sales_df.
Proof.
  intro line. unfold merge_detail.
  rewrite (merge_left_covers _ detail_row dt_line fst); [|reflexivity].
  rewrite (merge_left_covers _ (fun l m => (l, m)) fst (fun l => l)); [|reflexivity].
  rewrite map_id. reflexivity.
Qed.

(** C5 (amended). On every successful run [load_clean_and_merge_data] returns
    one table, the transaction detail: the [sales_detailed] frame, whose rows
    are exactly the deduplicated, standardized sales lines, each extended with
    profit and balance.  The customer summary is computed but is not part of
    what is returned. *)
Theorem returns_transaction_detail_only {S : SortValues} (src : Sources)
    (out : list DetailRow) :
  load_clean_and_merge_data src = Returned out ->
  exists st dfs,
    reconcile src = Returned st
    /\ out = sales_detailed st
    /\ read_sales_files (sales_files src) = Some dfs
    /\ forall line,
         In line (map dt_line out)
         <-> In line (deduplicate_sales (map standardize_sales_line (List.concat dfs))).
Proof.
  unfold load_clean_and_merge_data. intro H.
  destruct (reconcile src) as [st| |] eqn:E; try discriminate.
  cbn [bind] in H. injection H as <-.
  exists st. unfold reconcile in E.
  destruct (credit_file src) as [| |rows]; try discriminate. cbn [bind] in E.
  destruct (read_sales_files (sales_files src)) as [[|df dfs]|]; try discriminate.
  cbn [bind] in E. exists (df :: dfs).
  destruct (standardize_credit_codes (load_credit rows)) as [std|]; try discriminate.
  cbn [bind] in E.
  destruct (immediate_matches _ _ =? 0)%nat; try discriminate.
  injection E as <-. cbn [sales_detailed].
  repeat split; try reflexivity; apply merge_detail_lines.
Qed.

Lemma returns_transaction_detail_only_witness :
  exists out st dfs,
    load_clean_and_merge_data scenario_sources = Returned out
    /\ reconcile scenario_sources = Returned st
    /\ out = sales_detailed st
    /\ read_sales_files (sales_files scenario_sources) = Some dfs
    /\ forall line,
         In line (map dt_line out)
         <-> In line (deduplicate_sales (map standardize_sales_line (List.concat dfs))).
Proof.
  destruct (load_clean_and_merge_data scenario_sources) as [out| |] eqn:E;
    [|vm_compute in E; discriminate E ..].
  exists out.
  destruct (@returns_transaction_detail_only insertion_sort_values
              scenario_sources out E) as (st & dfs & H).
  exists st, dfs. split; [reflexivity | exact H].
Defined.

(** C5 (as stated, refuted). Two runs that differ only by a credit customer
    without sales return the same value, while their customer summaries
    differ: the summary cannot be had from what is returned. *)
Lemma customer_summary_is_not_returned :
  ~ @output_carries_both_tables insertion_sort_values.
Proof.
  intros (summary_of & detail_of & H).
  assert (exists st1 st2,
             reconcile scenario_sources = Returned st1
             /\ reconcile scenario_sources_two_customers = Returned st2
             /\ sales_detailed st1 = sales_detailed st2
             /\ List.length (final_df st1) = 1%nat
             /\ List.length (final_df st2) = 2%nat)
    as (st1 & st2 & E1 & E2 & Hsame & L1 & L2).
  { eexists. eexists. split; [vm_compute; reflexivity|].
    split; [vm_compute; reflexivity|]. repeat split. }
  destruct (H _ _ E1) as (out1 & R1 & S1 & _).
  destruct (H _ _ E2) as (out2 & R2 & S2 & _).
  unfold load_clean_and_merge_data in R1, R2. rewrite E1 in R1. rewrite E2 in R2.
  cbn [bind] in R1, R2. injection R1 as <-. injection R2 as <-.
  rewrite Hsame in S1. rewrite S1 in S2. rewrite S2 in L1. rewrite L1 in L2.
  discriminate L2.
Qed.

(** The margin file is not a required source: without it the run succeeds
    and every line has profit 0. *)
Example margin_file_is_optional :
  option_map (map dt_profit)
             (match load_clean_and_merge_data
                      (mkSources (credit_file scenario_sources)
                                 (sales_files scenario_sources)
                                 FileNotFound 864000 None) with
              | Returned out => Some out | _ => None end)
  = Some [0; 0].
Proof. vm_compute. reflexivity. Qed.

(** The end-to-end scenario, run: one customer, balance 1000, sales 800 on
    one invoice, and a profit of 100 carried by each of the two lines. *)
Example scenario_summary :
  option_map (fun st => map (fun c => (cs_customer_code c, cs_balance c,
                                        cs_total_sales_amount c, cs_invoice_count c))
                            (final_df st))
             (match reconcile scenario_sources with
              | Returned st => Some st | _ => None end)
  = Some [("7", Some 1000, 800, 1)].
Proof. vm_compute. reflexivity. Qed.

(** ** Deduplication of the sales lines *)

Lemma Permutation_filter {A} (p : A -> bool) (l l' : list A) :
  Permutation l l' -> Permutation (filter p l) (filter p l').
Proof.
  induction 1 as [|x l l' _ IH|x y l|l l' l'' _ IH1 _ IH2]; cbn.
  - apply perm_nil.
  - destruct (p x); [apply perm_skip|]; exact IH.
  - destruct (p x), (p y); try apply Permutation_refl. apply perm_swap.
  - exact (perm_trans IH1 IH2).
Qed.

Lemma StronglySorted_suffix {A} (R : A -> A -> Prop) (l1 l2 : list A) :
  StronglySorted R (l1 ++ l2) -> StronglySorted R l2.
Proof.
  induction l1 as [|x l1 IH]; cbn; intro H; [exact H|].
  inversion H; subst. apply IH. assumption.
Qed.

(** The first row that satisfies [p], with what precedes it. *)
Lemma find_first_split {A} (p : A -> bool) (l : list A) (x : A) :
  find p l = Some x ->
  exists before after,
    l = before ++ x :: after /\ p x = true
    /\ forall y, In y before -> p y = false.
Proof.
  induction l as [|y l IH]; cbn; [discriminate|].
  destruct (p y) eqn:E.
  - intros [= ->]. exists [], l. repeat split; [exact E | contradiction].
  - intro H. destruct (IH H) as (b & a & -> & Hx & Hb).
    exists (y :: b), a. repeat split; [exact Hx|].
    intros z [<-|Hz]; [exact E | exact (Hb z Hz)].
Qed.

Section KeepFirst.
Variable A : Type.
Variable same : A -> A -> bool.
Hypothesis same_sym : forall a b, same a b = same b a.
Hypothesis same_trans :
  forall a b c, same a b = true -> same b c = true -> same a c = true.

Lemma existsb_same_compat (a b : A) (seen : list A) :
  same a b = true -> existsb (same a) seen = existsb (same b) seen.
Proof.
  intro Hab. induction seen as [|z seen IH]; cbn; [reflexivity|].
  rewrite IH. f_equal.
  destruct (same a z) eqn:Ea, (same b z) eqn:Eb; try reflexivity.
  - rewrite same_sym in Hab. rewrite (same_trans Hab Ea) in Eb. discriminate.
  - rewrite (same_trans Hab Eb) in Ea. discriminate.
Qed.

(** Of the rows with a given key, [keep='first'] keeps the first one in
    the table, and only that one. *)
Lemma drop_duplicates_from_key (k : A) (l : list A) :
  forall seen,
    filter (fun r => same r k) (drop_duplicates_from same seen l)
    = if existsb (same k) seen then []
      else match find (fun r => same r k) l with
           | Some r => [r]
           | None => []
           end.
Proof.
  induction l as [|y l IH]; intro seen; cbn.
  - destruct (existsb (same k) seen); reflexivity.
  - destruct (existsb (same y) seen) eqn:Ey.
    + rewrite IH. destruct (existsb (same k) seen) eqn:Ek; [reflexivity|].
      destruct (same y k) eqn:Eyk; [|reflexivity].
      rewrite (existsb_same_compat seen Eyk) in Ey. congruence.
    + cbn. rewrite IH. cbn. rewrite (same_sym k y).
      destruct (same y k) eqn:Eyk; cbn.
      * rewrite (existsb_same_compat seen Eyk) in Ey. rewrite Ey. reflexivity.
      * reflexivity.
Qed.

Lemma drop_duplicates_first_key (k : A) (l : list A) :
  filter (fun r => same r k) (drop_duplicates_first same l)
  = match find (fun r => same r k) l with
    | Some r => [r]
    | None => []
    end.
Proof. exact (drop_duplicates_from_key k l []). Qed.
End KeepFirst.

Lemma opt_string_eqb_eq (a b : option string) : opt_string_eqb a b = true <-> a = b.
Proof.
  destruct a as [x|], b as [y|]; cbn; try (split; congruence).
  rewrite String.eqb_eq. split; congruence.
Qed.

Lemma same_invoice_product_iff {C} (a b : SalesLine C) :
  same_invoice_product a b = true
  <-> invoice_number a = invoice_number b /\ product_name a = product_name b.
Proof.
  unfold same_invoice_product.
  rewrite andb_true_iff, !opt_string_eqb_eq. reflexivity.
Qed.

Lemma same_invoice_product_sym {C} (a b : SalesLine C) :
  same_invoice_product a b = same_invoice_product b a.
Proof.
  destruct (same_invoice_product a b) eqn:E1, (same_invoice_product b a) eqn:E2;
    try reflexivity.
  - apply same_invoice_product_iff in E1. destruct E1 as [H1 H2].
    assert (same_invoice_product b a = true) as H
        by (apply same_invoice_product_iff; split; congruence).
    congruence.
  - apply same_invoice_product_iff in E2. destruct E2 as [H1 H2].
    assert (same_invoice_product a b = true) as H
        by (apply same_invoice_product_iff; split; congruence).
    congruence.
Qed.

Lemma same_invoice_product_trans {C} (a b c : SalesLine C) :
  same_invoice_product a b = true -> same_invoice_product b c = true ->
  same_invoice_product a c = true.
Proof.
  rewrite !same_invoice_product_iff. intros [H1 H2] [H3 H4]. split; congruence.
Qed.

Lemma same_invoice_product_refl {C} (a : SalesLine C) :
  same_invoice_product a a = true.
Proof. apply same_invoice_product_iff. split; reflexivity. Qed.

Lemma date_le_total (asc : bool) (a b : option Time) :
  date_le asc a b = true \/ date_le asc b a = true.
Proof.
  destruct a as [x|], b as [y|], asc; cbn; auto;
    rewrite !Z.leb_le; lia.
Qed.

Lemma date_le_trans (asc : bool) (a b c : option Time) :
  date_le asc a b = true -> date_le asc b c = true -> date_le asc a c = true.
Proof.
  destruct a as [x|], b as [y|], c as [z|], asc; cbn; auto; try discriminate;
    rewrite !Z.leb_le; lia.
Qed.

Section Deduplication.
Context {S : SortValues} {L : SortValuesLaws S} {C : Type}.
Variable sales_df : list (SalesLine C).

Lemma sorted_descending :
  StronglySorted (fun a b : SalesLine C => by_delivery_date false a b = true)
                 (latest_first sales_df).
Proof.
  unfold latest_first. apply sort_values_sorted.
  - intros a b. apply date_le_total.
  - intros a b c. apply date_le_trans.
Qed.

(** The row kept for a key is the first of that key in descending date
    order; no row of the key has a later date. *)
Lemma kept_row_of_key (k : SalesLine C) :
  filter (fun r => same_invoice_product r k)
         (drop_duplicates_first same_invoice_product (latest_first sales_df))
  = match find (fun r => same_invoice_product r k) (latest_first sales_df) with
    | Some r => [r]
    | None => []
    end.
Proof.
  apply drop_duplicates_first_key.
  - intros a b. apply same_invoice_product_sym.
  - intros a b c. apply same_invoice_product_trans.
Qed.

Lemma first_of_key_is_latest (k first r : SalesLine C) (d1 d2 : Time) :
  find (fun r => same_invoice_product r k) (latest_first sales_df) = Some first ->
  In r sales_df -> same_invoice_product r k = true ->
  delivery_date first = Some d1 -> delivery_date r = Some d2 ->
  d2 <= d1.
Proof.
  intros Hfind Hin Hkey Hd1 Hd2.
  destruct (find_first_split _ _ Hfind) as (before & after & Heq & _ & Hbefore).
  pose proof sorted_descending as Hs. rewrite Heq in Hs.
  apply (Permutation_in _ (sort_values_perm (by_delivery_date false) sales_df)) in Hin.
  fold (latest_first sales_df) in Hin. rewrite Heq in Hin.
  apply in_app_or in Hin. destruct Hin as [Hin|[<-|Hin]].
  - rewrite (Hbefore r Hin) in Hkey. discriminate.
  - rewrite Hd1 in Hd2. injection Hd2 as ->. lia.
  - apply StronglySorted_suffix in Hs.
    inversion Hs as [|? ? _ Hall]; subst.
    rewrite Forall_forall in Hall. specialize (Hall r Hin).
    unfold by_delivery_date in Hall. rewrite Hd1, Hd2 in Hall. cbn in Hall.
    apply Z.leb_le in Hall. exact Hall.
Qed.

Lemma deduplicate_sales_filter (p : SalesLine C -> bool) :
  Permutation
    (filter p (drop_duplicates_first same_invoice_product (latest_first sales_df)))
    (filter p (deduplicate_sales sales_df)).
Proof.
  apply Permutation_filter. unfold deduplicate_sales. apply sort_values_perm.
Qed.

(** Whatever else the table holds, the earlier of two rows of one
    (invoice, product) pair does not survive. *)
Lemma earlier_row_is_dropped (earlier later : SalesLine C) (d1 d2 : Time) :
  In later sales_df ->
  same_invoice_product earlier later = true ->
  delivery_date earlier = Some d1 -> delivery_date later = Some d2 ->
  d1 < d2 ->
  ~ In earlier (deduplicate_sales sales_df).
Proof.
  intros Hlater Hkey Hd1 Hd2 Hlt Hin.
  assert (In earlier (filter (fun r => same_invoice_product r later)
                             (deduplicate_sales sales_df))) as Hf
      by (apply filter_In; split; assumption).
  apply (Permutation_in _ (Permutation_sym (deduplicate_sales_filter _))) in Hf.
  rewrite kept_row_of_key in Hf.
  destruct (find (fun r => same_invoice_product r later) (latest_first sales_df))
    as [first|] eqn:E; [|contradiction].
  destruct Hf as [->|[]].
  pose proof (@first_of_key_is_latest later _ _ _ _ E Hlater
                (same_invoice_product_refl later) Hd1 Hd2).
  lia.
Qed.

End Deduplication.

Lemma kept_row_precedes {S : SortValues} {L : SortValuesLaws S} {C : Type}
    (sales_df : list (SalesLine C)) (k first r : SalesLine C) :
  find (fun x => same_invoice_product x k) (latest_first sales_df) = Some first ->
  In r sales_df -> same_invoice_product r k = true ->
  by_delivery_date false first r = true.
Proof.
  intros Hfind Hin Hkey.
  destruct (find_first_split _ _ Hfind) as (before & after & Heq & _ & Hbefore).
  pose proof (sorted_descending sales_df) as Hs. rewrite Heq in Hs.
  apply (Permutation_in _ (sort_values_perm (by_delivery_date false) sales_df)) in Hin.
  fold (latest_first sales_df) in Hin. rewrite Heq in Hin.
  apply in_app_or in Hin. destruct Hin as [Hin|[<-|Hin]].
  - rewrite (Hbefore r Hin) in Hkey. discriminate.
  - destruct (date_le_total false (delivery_date first) (delivery_date first));
      assumption.
  - apply StronglySorted_suffix in Hs.
    inversion Hs as [|? ? _ Hall]; subst.
    rewrite Forall_forall in Hall. exact (Hall r Hin).
Qed.

(** C6 (amended). Of two sales rows with the same (invoice number, product)
    and different delivery dates, the deduplication never keeps the earlier
    one, and it keeps exactly one row of their (invoice number, product) key:
    a row of the key with its latest delivery date, dated no earlier than the
    later row of the two.  That row is the later row of the two whenever no
    other row of the key is dated as late or later, in particular when the
    two rows are the only ones of the key.  This holds for every sort that
    [sort_values] may be, whatever order it gives to rows with equal dates. *)
Theorem dedup_keeps_latest_of_key {S : SortValues} {L : SortValuesLaws S}
    {C : Type} (sales_df : list (SalesLine C)) (earlier later : SalesLine C)
    (d1 d2 : Time) :
  In earlier sales_df -> In later sales_df ->
  same_invoice_product earlier later = true ->
  delivery_date earlier = Some d1 -> delivery_date later = Some d2 ->
  d1 < d2 ->
  ~ In earlier (deduplicate_sales sales_df)
  /\ (exists kept d,
         filter (fun r => same_invoice_product r later) (deduplicate_sales sales_df)
         = [kept]
         /\ In kept sales_df
         /\ delivery_date kept = Some d
         /\ d2 <= d
         /\ forall other d', In other sales_df ->
                             same_invoice_product other later = true ->
                             delivery_date other = Some d' -> d' <= d)
  /\ ((forall other, In other sales_df -> same_invoice_product other later = true ->
                     other = later
                     \/ date_le false (delivery_date other) (delivery_date later)
                        = false) ->
      filter (fun r => same_invoice_product r later) (deduplicate_sales sales_df)
      = [later]).
Proof.
  intros Hearlier Hlater Hkey Hd1 Hd2 Hlt.
  destruct (find (fun r => same_invoice_product r later) (latest_first sales_df))
    as [first|] eqn:E.
  2:{ apply (Permutation_in _ (sort_values_perm (by_delivery_date false) sales_df))
        in Hlater.
      pose proof (find_none _ _ E later Hlater) as H. cbn in H.
      rewrite same_invoice_product_refl in H. discriminate. }
  assert (filter (fun r => same_invoice_product r later) (deduplicate_sales sales_df)
          = [first]) as Hfilter.
  { apply Permutation_length_1_inv.
    eapply perm_trans; [|apply deduplicate_sales_filter].
    rewrite kept_row_of_key, E. apply Permutation_refl. }
  assert (In first sales_df /\ same_invoice_product first later = true)
    as [Hfirst Hsame].
  { apply find_some in E. destruct E as [Hin Hs]. split; [|exact Hs].
    apply (Permutation_in _ (Permutation_sym
             (sort_values_perm (by_delivery_date false) sales_df))).
    exact Hin. }
  assert (forall other, In other sales_df -> same_invoice_product other later = true ->
                        date_le false (delivery_date first) (delivery_date other) = true)
    as Hlatest.
  { intros other Hin Hs.
    exact (@kept_row_precedes S L C sales_df later first other E Hin Hs). }
  assert (exists d, delivery_date first = Some d /\ d2 <= d) as (d & Hd & Hle).
  { pose proof (Hlatest later Hlater (same_invoice_product_refl later)) as H.
    rewrite Hd2 in H. destruct (delivery_date first) as [d|]; [|discriminate H].
    cbn in H. apply Z.leb_le in H. eauto. }
  split; [|split].
  - intro Hin.
    assert (In earlier (filter (fun r => same_invoice_product r later)
                               (deduplicate_sales sales_df))) as Hf
        by (apply filter_In; split; assumption).
    rewrite Hfilter in Hf. destruct Hf as [->|[]]. rewrite Hd1 in Hd.
    injection Hd as ->. lia.
  - exists first, d. split; [exact Hfilter|]. split; [exact Hfirst|].
    split; [exact Hd|]. split; [exact Hle|].
    intros other d' Hin Hs Hd'. pose proof (Hlatest other Hin Hs) as H.
    rewrite Hd, Hd' in H. cbn in H. apply Z.leb_le in H. exact H.
  - intro Honly. rewrite Hfilter. f_equal.
    destruct (Honly first Hfirst Hsame) as [->|Hbefore]; [reflexivity|].
    pose proof (Hlatest later Hlater (same_invoice_product_refl later)) as H.
    rewrite Hd, Hd2 in H, Hbefore. cbn in H, Hbefore.
    apply Z.leb_le in H. apply Z.leb_gt in Hbefore. lia.
Qed.

Lemma dedup_keeps_latest_of_key_witness :
  ~ In delivered_first (deduplicate_sales delivered_three_times)
  /\ (exists kept d,
         filter (fun r => same_invoice_product r delivered_later)
                (deduplicate_sales delivered_three_times)
         = [kept]
         /\ In kept delivered_three_times
         /\ delivery_date kept = Some d
         /\ 172800 <= d
         /\ forall other d', In other delivered_three_times ->
                             same_invoice_product other delivered_later = true ->
                             delivery_date other = Some d' -> d' <= d)
  /\ ((forall other, In other delivered_three_times ->
                     same_invoice_product other delivered_later = true ->
                     other = delivered_later
                     \/ date_le false (delivery_date other)
                                (delivery_date delivered_later) = false) ->
      filter (fun r => same_invoice_product r delivered_later)
             (deduplicate_sales delivered_three_times)
      = [delivered_later]).
Proof.
  apply (@dedup_keeps_latest_of_key insertion_sort_values insertion_sort_laws
           RawCode delivered_three_times delivered_first delivered_later
           86400 172800).
  - left. reflexivity.
  - right. left. reflexivity.
  - reflexivity.
  - reflexivity.
  - reflexivity.
  - lia.
Defined.

(** C6 (as stated, refuted). When a third row of the same (invoice number,
    product) is dated later still, the later row of the first two does not
    survive: of that pair the deduplication keeps neither. *)
Lemma later_of_a_pair_is_dropped :
  ~ @keeps_the_later_of_every_pair insertion_sort_values RawCode
      delivered_three_times.
Proof.
  intro H.
  destruct (H delivered_first delivered_later 86400 172800) as [Hin _];
    try reflexivity; try lia.
  - left. reflexivity.
  - right. left. reflexivity.
  - revert Hin.
    apply (@earlier_row_is_dropped insertion_sort_values insertion_sort_laws RawCode
             delivered_three_times delivered_later delivered_last 172800 259200);
      try reflexivity; try lia.
    right. right. left. reflexivity.
Qed.

(** The three deliveries, and the two deliveries of the claim's example. *)
Example three_deliveries_keep_the_last :
  deduplicate_sales delivered_three_times = [delivered_last]
  /\ filter (fun r => same_invoice_product r delivered_later)
            (deduplicate_sales redelivered_sales)
     = [delivered_later].
Proof. split; vm_compute; reflexivity. Qed.

(** ** The scoring query *)

Lemma filter_idempotent {A} (p : A -> bool) (l : list A) :
  filter p (filter p l) = filter p l.
Proof.
  induction l as [|x l IH]; cbn; [reflexivity|].
  destruct (p x) eqn:E; cbn; [rewrite E, IH; reflexivity | exact IH].
Qed.

(** The query reads the ledger only through its dated lines. *)
Lemma scoring_query_dated_only {P : ArbitraryRow} (now : Time)
    (sales_data : list LedgerRow) :
  scoring_query now sales_data
  = scoring_query now (filter has_delivery_date sales_data).
Proof.
  unfold scoring_query, invoice_level, product_aggregates.
  rewrite filter_idempotent. reflexivity.
Qed.

Lemma select_group_code {P : ArbitraryRow} (now : Time)
    (g : (string * option string) * list (InvoiceLevel * ProductAggregate))
    (q : QueryRow) :
  select_group now g = Some q -> q_customer_code q = fst (fst g).
Proof.
  unfold select_group. destruct (snd g) as [|first others]; [discriminate|].
  destruct (pa_total_amount _) as [total|]; [|discriminate].
  destruct (0 <? total); [|discriminate].
  intros [= <-]. reflexivity.
Qed.

(** Every row of the result is the row of a customer with a dated line. *)
Lemma scoring_query_customer {P : ArbitraryRow} (now : Time)
    (sales_data : list LedgerRow) (q : QueryRow) :
  In q (scoring_query now sales_data) ->
  exists r, In r sales_data
            /\ has_delivery_date r = true
            /\ db_customer_code r = q_customer_code q.
Proof.
  unfold scoring_query. intro H.
  apply in_flat_map in H. destruct H as (g & Hg & Hq).
  destruct (select_group now g) as [q'|] eqn:E; [|contradiction].
  destruct Hq as [<-|[]].
  apply select_group_code in E. rewrite E.
  assert (In (fst g) (map fst (group_rows code_name_eqb
            (fun ip : InvoiceLevel * ProductAggregate =>
               (il_customer_code (fst ip), il_customer_name (fst ip)))
            (join_on_customer_code (invoice_level sales_data)
                                   (product_aggregates sales_data)))))
    as Hkey by (apply in_map; exact Hg).
  rewrite group_rows_keys in Hkey. apply drop_duplicates_first_In in Hkey.
  apply in_map_iff in Hkey. destruct Hkey as ([i p] & Hk & Hip).
  unfold join_on_customer_code in Hip. apply in_flat_map in Hip.
  destruct Hip as (i' & Hi' & Hip).
  apply in_map_iff in Hip. destruct Hip as (p' & [= <- <-] & _).
  unfold invoice_level in Hi'. apply drop_duplicates_first_In in Hi'.
  apply in_map_iff in Hi'. destruct Hi' as (r & <- & Hr).
  apply filter_In in Hr. destruct Hr as [Hr Hdate].
  exists r. repeat split; [exact Hr | exact Hdate|].
  rewrite <- Hk. reflexivity.
Qed.

(** C10. The scoring engine ignores the ledger lines without a delivery
    date: the result of the scoring query (recency, frequency, monetary
    value, profit, balance and active span of every customer), and with it
    every score, is what it is on the ledger without these lines; and a
    customer all of whose lines lack a delivery date has no row in the
    result, whatever the amounts of these lines. *)
Theorem undated_lines_are_ignored {S : SortValues} {P : ArbitraryRow}
    (now : Time) (sales_data : list LedgerRow) :
  scoring_query now sales_data
  = scoring_query now (filter has_delivery_date sales_data)
  /\ get_customer_scores now (Some sales_data)
     = get_customer_scores now (Some (filter has_delivery_date sales_data))
  /\ forall code,
       (forall r, In r sales_data -> db_customer_code r = code ->
                  db_delivery_date r = None) ->
       forall q, In q (scoring_query now sales_data) -> q_customer_code q <> code.
Proof.
  split; [apply scoring_query_dated_only|].
  split.
  - unfold get_customer_scores. rewrite <- scoring_query_dated_only. reflexivity.
  - intros code Hundated q Hq Hcode.
    destruct (scoring_query_customer _ _ _ Hq) as (r & Hr & Hdate & Hc).
    unfold has_delivery_date in Hdate.
    rewrite (Hundated r Hr (eq_trans Hc Hcode)) in Hdate. discriminate.
Qed.

(** A customer with sales of 5700 on undated lines only: no score record. *)
Example undated_customer_not_scored :
  get_customer_scores 864000 (Some undated_ledger) = Returned [].
Proof. reflexivity. Qed.

(** C2 (fails). An invoice of three product lines that all carry the invoice
    profit of 900 contributes 900 to the total profit of its customer when
    the three lines have the same delivery date, but 2700 when they have three
    different delivery dates: [SELECT DISTINCT] keeps one row per delivery date
    of the invoice. *)
Theorem profit_counted_once_per_delivery_date {P : ArbitraryRow}
    {PL : ArbitraryRowLaws P} (now : Time) :
  map q_total_profit (scoring_query now invoice_on_one_day) = [Some 900]
  /\ map q_frequency (scoring_query now invoice_over_three_days) = [Some 1]
  /\ map q_total_profit (scoring_query now invoice_over_three_days) = [Some 2700].
Proof.
  unfold scoring_query.
  split; [|split].
  - set (groups := group_rows _ _ _). vm_compute in groups. subst groups.
    cbn [flat_map]. unfold select_group. cbn [snd fst].
    match goal with |- context [arbitrary_row ?x ?xs] =>
      destruct (arbitrary_row_in x xs) as [<-|[]] end.
    reflexivity.
  - set (groups := group_rows _ _ _). vm_compute in groups. subst groups.
    cbn [flat_map]. unfold select_group. cbn [snd fst].
    match goal with |- context [arbitrary_row ?x ?xs] =>
      destruct (arbitrary_row_in x xs) as [<-|[<-|[<-|[]]]] end; reflexivity.
  - set (groups := group_rows _ _ _). vm_compute in groups. subst groups.
    cbn [flat_map]. unfold select_group. cbn [snd fst].
    match goal with |- context [arbitrary_row ?x ?xs] =>
      destruct (arbitrary_row_in x xs) as [<-|[<-|[<-|[]]]] end; reflexivity.
Qed.

Lemma profit_counted_once_per_delivery_date_witness :
  map q_total_profit (scoring_query 864000 invoice_on_one_day) = [Some 900]
  /\ map q_frequency (scoring_query 864000 invoice_over_three_days) = [Some 1]
  /\ map q_total_profit (scoring_query 864000 invoice_over_three_days) = [Some 2700].
Proof.
  exact (@profit_counted_once_per_delivery_date first_row first_row_laws 864000).
Defined.

(** The ledger of that invoice is one that [update_database] writes. *)
Example three_days_ledger_is_written :
  update_database three_days_sources None = (Returned true, Some invoice_over_three_days).
Proof. vm_compute. reflexivity. Qed.

(** ** Binning never fails on a non-empty series *)

Lemma fold_Qmin_le (x0 : Q) (xs : list Q) (v : Q) :
  In v (x0 :: xs) -> (fold_right Qmin x0 xs <= v)%Q.
Proof.
  induction xs as [|y ys IH]; cbn.
  - intros [->|[]]. apply Qle_refl.
  - intros [->|[->|H]].
    + eapply Qle_trans; [apply Q.le_min_r|]. apply IH. left. reflexivity.
    + apply Q.le_min_l.
    + eapply Qle_trans; [apply Q.le_min_r|]. apply IH. right. exact H.
Qed.

Lemma fold_Qmax_ge (x0 : Q) (xs : list Q) (v : Q) :
  In v (x0 :: xs) -> (v <= fold_right Qmax x0 xs)%Q.
Proof.
  induction xs as [|y ys IH]; cbn.
  - intros [->|[]]. apply Qle_refl.
  - intros [->|[->|H]].
    + eapply Qle_trans; [|apply Q.le_max_r]. apply IH. left. reflexivity.
    + apply Q.le_max_l.
    + eapply Qle_trans; [|apply Q.le_max_r]. apply IH. right. exact H.
Qed.

Lemma Qabs_positive (x : Q) : ~ (x == 0)%Q -> (0 < Qabs x)%Q.
Proof.
  intro H. apply Qabs_case; intro Hx.
  - destruct (Qlt_le_dec 0 x) as [Hlt|Hle]; [exact Hlt|].
    exfalso. apply H. apply Qle_antisym; assumption.
  - destruct (Qlt_le_dec x 0) as [Hlt|Hle]; [lra|].
    exfalso. apply H. apply Qle_antisym; assumption.
Qed.

Lemma linspace_points (start stop : Q) (k : nat) :
  linspace start stop (S k) = map (grid_point start stop k) (seq 0 (S k)).
Proof.
  unfold linspace, grid_point. replace (S k - 1)%nat with k by lia. reflexivity.
Qed.

Lemma grid_point_first (start stop : Q) (k : nat) :
  (grid_point start stop k 0 == start)%Q.
Proof. unfold grid_point. cbn [Z.of_nat]. ring. Qed.

Lemma grid_point_last (start stop : Q) (k : nat) :
  (1 <= k)%nat -> (grid_point start stop k k == stop)%Q.
Proof.
  intro Hk. unfold grid_point. field.
  intro H. unfold Qeq in H. cbn in H. lia.
Qed.

Lemma grid_point_increasing (start stop : Q) (k i j : nat) :
  (start < stop)%Q -> (1 <= k)%nat -> (i < j)%nat ->
  (grid_point start stop k i < grid_point start stop k j)%Q.
Proof.
  intros Hlt Hk Hij. unfold grid_point.
  assert (0 < (stop - start) / inject_Z (Z.of_nat k))%Q as Hstep.
  { apply Qlt_shift_div_l.
    - change 0%Q with (inject_Z 0). rewrite <- Zlt_Qlt. lia.
    - lra. }
  assert (inject_Z (Z.of_nat i) < inject_Z (Z.of_nat j))%Q as Hq
      by (rewrite <- Zlt_Qlt; lia).
  set (s := ((stop - start) / inject_Z (Z.of_nat k))%Q) in *.
  nra.
Qed.

Lemma map_seq_sorted (f : nat -> Q) (n : nat) :
  (forall i j, (i < j)%nat -> (f i < f j)%Q) ->
  forall start, StronglySorted Qlt (map f (seq start n)).
Proof.
  intro Hf. induction n as [|n IH]; intro start; cbn; constructor.
  - apply IH.
  - apply Forall_forall. intros y Hy.
    apply in_map_iff in Hy. destruct Hy as (j & <- & Hj).
    apply in_seq in Hj. apply Hf. lia.
Qed.

(** The edges computed for [nbins] intervals over a non-empty series: one
    more than [nbins], strictly increasing, the lowest below every value and
    the highest not below any. *)
Lemma nbins_to_bins_edges (x0 : Q) (xs : list Q) (nbins : nat) :
  (1 <= nbins)%nat ->
  exists b0 rest,
    nbins_to_bins (x0 :: xs) nbins = Some (b0 :: rest)
    /\ List.length rest = nbins
    /\ StronglySorted Qlt (b0 :: rest)
    /\ forall v, In v (x0 :: xs) ->
                 (b0 < v)%Q /\ exists e, In e rest /\ (v <= e)%Q.
Proof.
  intro Hk. unfold nbins_to_bins.
  replace (nbins <? 1)%nat with false by (symmetry; apply Nat.ltb_ge; exact Hk).
  set (mn := fold_right Qmin x0 xs). set (mx := fold_right Qmax x0 xs).
  assert (forall v, In v (x0 :: xs) -> (mn <= v <= mx)%Q) as Hrange
      by (intros v Hv; split; [apply fold_Qmin_le | apply fold_Qmax_ge]; exact Hv).
  replace (nbins + 1)%nat with (S nbins) by lia.
  assert (forall a b, (a < b)%Q ->
            exists rest,
              linspace a b (S nbins) = grid_point a b nbins 0 :: rest
              /\ List.length rest = nbins
              /\ StronglySorted Qlt (grid_point a b nbins 0 :: rest)
              /\ In (grid_point a b nbins nbins) rest) as Hgrid.
  { intros a b Hab. rewrite linspace_points.
    exists (map (grid_point a b nbins) (seq 1 nbins)).
    split; [reflexivity|]. split; [rewrite length_map, length_seq; reflexivity|].
    split.
    - apply (map_seq_sorted (grid_point a b nbins) (S nbins)).
      intros i j. apply grid_point_increasing; assumption.
    - apply in_map. apply in_seq. lia. }
  destruct (Qeq_bool mn mx) eqn:E.
  - apply Qeq_bool_iff in E.
    set (lo := (mn - (if Qeq_bool mn 0 then 1 # 1000 else (1 # 1000) * Qabs mn))%Q).
    set (hi := (mx + (if Qeq_bool mx 0 then 1 # 1000 else (1 # 1000) * Qabs mx))%Q).
    assert (lo < mn)%Q as Hlo.
    { unfold lo. destruct (Qeq_bool mn 0) eqn:E0; [lra|].
      assert (0 < Qabs mn)%Q
        by (apply Qabs_positive; intro H; apply Qeq_bool_iff in H; congruence).
      lra. }
    assert (mx < hi)%Q as Hhi.
    { unfold hi. destruct (Qeq_bool mx 0) eqn:E0; [lra|].
      assert (0 < Qabs mx)%Q
        by (apply Qabs_positive; intro H; apply Qeq_bool_iff in H; congruence).
      lra. }
    destruct (Hgrid lo hi) as (rest & Heq & Hlen & Hsorted & Hlast); [lra|].
    exists (grid_point lo hi nbins 0), rest. rewrite Heq.
    split; [reflexivity|]. split; [exact Hlen|]. split; [exact Hsorted|].
    intros v Hv. destruct (Hrange v Hv) as [H1 H2]. split.
    + rewrite grid_point_first. lra.
    + exists (grid_point lo hi nbins nbins). split; [exact Hlast|].
      rewrite grid_point_last by exact Hk. lra.
  - assert (mn < mx)%Q as Hlt.
    { destruct (Hrange x0 (or_introl eq_refl)) as [H1 H2].
      destruct (Qlt_le_dec mn mx) as [H|H]; [exact H|].
      assert (mn == mx)%Q as Heq by (apply Qle_antisym; lra).
      apply Qeq_bool_iff in Heq. congruence. }
    destruct (Hgrid mn mx Hlt) as (rest & Heq & Hlen & Hsorted & Hlast).
    rewrite Heq.
    exists (grid_point mn mx nbins 0 - (mx - mn) * (1 # 1000))%Q, rest.
    split; [reflexivity|]. split; [exact Hlen|].
    pose proof (grid_point_first mn mx nbins) as Hfirst.
    split.
    + inversion Hsorted as [|? ? Hs Hall]; subst.
      constructor; [exact Hs|].
      eapply Forall_impl; [|exact Hall]. intros e He. cbn beta in *. lra.
    + intros v Hv. destruct (Hrange v Hv) as [H1 H2]. split; [lra|].
      exists (grid_point mn mx nbins nbins). split; [exact Hlast|].
      rewrite grid_point_last by exact Hk. exact H2.
Qed.

Lemma drop_duplicates_from_distinct (l : list Q) :
  StronglySorted Qlt l ->
  forall seen,
    (forall x s, In x l -> In s seen -> Qeq_bool x s = false) ->
    drop_duplicates_from Qeq_bool seen l = l.
Proof.
  induction 1 as [|y l Hs IH Hall]; intros seen Hseen; cbn; [reflexivity|].
  assert (existsb (Qeq_bool y) seen = false) as ->.
  { destruct (existsb (Qeq_bool y) seen) eqn:E; [|reflexivity].
    apply existsb_exists in E. destruct E as (s & Hin & Heq).
    rewrite (Hseen y s (or_introl eq_refl) Hin) in Heq. discriminate. }
  f_equal. apply IH. intros x s Hx [<-|Hin].
  - rewrite Forall_forall in Hall. specialize (Hall x Hx).
    apply Qeq_bool_false_of_neq. intro H. rewrite H in Hall.
    exact (Qlt_irrefl _ Hall).
  - apply Hseen; [right; exact Hx | exact Hin].
Qed.

Lemma unique_values_sorted (l : list Q) :
  StronglySorted Qlt l -> unique_values l = l.
Proof.
  intro H. apply drop_duplicates_from_distinct; [exact H|]. intros x s _ [].
Qed.

Lemma count_if_le_length {A} (p : A -> bool) (l : list A) :
  (count_if p l <= List.length l)%nat.
Proof. apply filter_length_le. Qed.

Lemma count_if_lt_length {A} (p : A -> bool) (l : list A) (e : A) :
  In e l -> p e = false -> (count_if p l < List.length l)%nat.
Proof.
  unfold count_if. induction l as [|y l IH]; [contradiction|].
  intros [->|Hin] He; cbn.
  - rewrite He. pose proof (filter_length_le p l). lia.
  - specialize (IH Hin He). destruct (p y); cbn; lia.
Qed.

(** A value on an edge or between the lowest and the highest edge falls in
    one of the intervals and receives its label. *)
Lemma interval_label (b0 : Q) (rest : list Q) (labels : list Z) (v : Q) :
  List.length labels = List.length rest ->
  (b0 < v)%Q -> (exists e, In e rest /\ (v <= e)%Q) ->
  exists z,
    (let id0 := searchsorted_left (b0 :: rest) v in
     let id := if true && Qeq_bool v b0 then 1%nat else id0 in
     if ((id =? List.length (b0 :: rest)) || (id =? 0))%nat then None
     else nth_error labels (id - 1)) = Some z
    /\ In z labels.
Proof.
  intros Hlen Hlow (e & He & Hve).
  assert (Qeq_bool v b0 = false) as ->.
  { apply Qeq_bool_false_of_neq. intro H. rewrite H in Hlow.
    exact (Qlt_irrefl _ Hlow). }
  cbn [andb]. cbv zeta. unfold searchsorted_left.
  assert (1 <= count_if (fun b => Qlt_bool b v) (b0 :: rest))%nat as H1.
  { unfold count_if. cbn [filter].
    replace (Qlt_bool b0 v) with true by (symmetry; apply Qlt_bool_iff; exact Hlow).
    cbn. lia. }
  assert (count_if (fun b => Qlt_bool b v) (b0 :: rest) < List.length (b0 :: rest))%nat
    as H2.
  { apply (count_if_lt_length _ (b0 :: rest) e); [right; exact He|].
    apply Qlt_bool_false_iff. exact Hve. }
  set (id := count_if (fun b => Qlt_bool b v) (b0 :: rest)) in *.
  cbn [List.length] in *.
  replace (id =? S (List.length rest))%nat with false
    by (symmetry; apply Nat.eqb_neq; lia).
  replace (id =? 0)%nat with false by (symmetry; apply Nat.eqb_neq; lia).
  cbn [orb].
  destruct (nth_error labels (id - 1)) as [z|] eqn:E.
  - exists z. split; [reflexivity|]. exact (nth_error_In _ _ E).
  - apply nth_error_None in E. lia.
Qed.

Lemma pd_cut_labels (x0 : Q) (xs : list Q) (nbins : nat) (labels : list Z) :
  (1 <= nbins)%nat ->
  List.length labels = nbins ->
  has_duplicates labels = false ->
  exists res,
    pd_cut (x0 :: xs) nbins labels = Some res
    /\ List.length res = List.length (x0 :: xs)
    /\ all_labelled labels res.
Proof.
  intros Hk Hlen Hdup. unfold pd_cut.
  destruct (@nbins_to_bins_edges x0 xs nbins Hk)
    as (b0 & rest & -> & Hrest & Hsorted & Hin).
  unfold bins_to_cuts.
  rewrite (unique_values_sorted Hsorted), Nat.ltb_irrefl. cbn [andb].
  rewrite Hdup.
  replace (List.length labels =? List.length (b0 :: rest) - 1)%nat with true
    by (symmetry; apply Nat.eqb_eq; cbn; lia).
  cbn [negb]. eexists. split; [reflexivity|].
  split; [apply length_map|].
  unfold all_labelled. apply Forall_forall. intros o Ho.
  apply in_map_iff in Ho. destruct Ho as (v & <- & Hv).
  destruct (Hin v Hv) as [Hlow Hhigh].
  apply interval_label; [lia | exact Hlow | exact Hhigh].
Qed.

Lemma astype_int_labelled (labels : list Z) (res : list (option Z)) :
  all_labelled labels res ->
  exists zs, astype_int res = Some zs
             /\ List.length zs = List.length res
             /\ Forall (fun z => In z labels) zs.
Proof.
  induction 1 as [|o res (z & -> & Hz) _ (zs & Hzs & Hlen & Hall)]; cbn.
  - exists []. repeat split. constructor.
  - rewrite Hzs. exists (z :: zs). cbn. repeat split; [lia|].
    constructor; assumption.
Qed.

Lemma astype_int_some (res : list (option Z)) (zs : list Z) :
  astype_int res = Some zs -> res = map Some zs.
Proof.
  revert zs. induction res as [|[v|] res IH]; cbn; intros zs H.
  - injection H as <-. reflexivity.
  - destruct (astype_int res) as [zs'|]; [|discriminate].
    injection H as <-. cbn. f_equal. apply IH. reflexivity.
  - discriminate.
Qed.

(** Whatever [_bins_to_cuts] returns without raising holds labels only, one
    entry per value. *)
Lemma bins_to_cuts_labels (x bins : list Q) (labels : list Z)
    (include_lowest drop : bool) (res : list (option Z)) (zs : list Z) :
  bins_to_cuts x bins labels include_lowest drop = Some res ->
  astype_int res = Some zs ->
  List.length zs = List.length x /\ Forall (fun z => In z labels) zs.
Proof.
  unfold bins_to_cuts. intros H Hzs.
  destruct (if (_ && _)%bool then _ else _) as [edges|]; [|discriminate].
  destruct (has_duplicates labels); [discriminate|].
  destruct (negb _); [discriminate|].
  injection H as <-. apply astype_int_some in Hzs.
  split.
  - rewrite <- (length_map Some zs), <- Hzs. apply length_map.
  - apply Forall_forall. intros z Hz.
    assert (In (Some z) (map Some zs)) as Hin by (apply in_map; exact Hz).
    rewrite <- Hzs in Hin. apply in_map_iff in Hin.
    destruct Hin as (v & Hv & _).
    destruct (_ || _)%bool; [discriminate|].
    exact (nth_error_In _ _ Hv).
Qed.

Lemma nunique_positive (x0 : Q) (xs : list Q) : (1 <= nunique (x0 :: xs))%nat.
Proof. unfold nunique, unique_values, drop_duplicates_first. cbn. lia. Qed.

Lemma rank_from_length (earlier all rest : list Q) :
  List.length (rank_from earlier all rest) = List.length rest.
Proof.
  revert earlier. induction rest as [|x rest IH]; intro earlier; cbn;
    [reflexivity | rewrite IH; reflexivity].
Qed.

Lemma rank_first_length (series : list Q) :
  List.length (rank_first series) = List.length series.
Proof. apply rank_from_length. Qed.

(** The reversed call raises when the series has fewer than 5 distinct
    values. *)
Lemma create_score_reversed_raises (series : list Q) :
  (nunique series < 5)%nat -> create_score series true = None.
Proof.
  intro H. unfold create_score. apply Nat.ltb_lt in H. rewrite H. reflexivity.
Qed.

(** In every other case [create_score] on a non-empty series returns one
    score per value, all between 1 and 5. *)
Lemma create_score_in_range (series : list Q) (reverse : bool) :
  series <> [] ->
  (reverse = true -> (5 <= nunique series)%nat) ->
  exists scores,
    create_score series reverse = Some scores
    /\ List.length scores = List.length series
    /\ Forall (fun z => 1 <= z <= 5) scores.
Proof.
  intros Hne Hrev.
  assert (exists r0 rs, rank_first series = r0 :: rs) as (r0 & rs & Hrank).
  { pose proof (rank_first_length series) as H.
    destruct (rank_first series) as [|r0 rs]; [|eauto].
    destruct series; [congruence | discriminate]. }
  assert (forall nbins labels,
             (1 <= nbins)%nat -> List.length labels = nbins ->
             has_duplicates labels = false ->
             Forall (fun z => 1 <= z <= 5) labels ->
             exists scores,
               and_then (pd_cut (rank_first series) nbins labels) astype_int
               = Some scores
               /\ List.length scores = List.length series
               /\ Forall (fun z => 1 <= z <= 5) scores) as Hcut.
  { intros nbins labels Hk Hlen Hdup Hlab. rewrite Hrank.
    destruct (@pd_cut_labels r0 rs nbins labels Hk Hlen Hdup)
      as (res & -> & Hres & Hall).
    destruct (astype_int_labelled Hall) as (zs & Hzs & Hlz & Hin).
    exists zs. cbn [and_then]. split; [exact Hzs|].
    split; [rewrite Hlz, Hres, <- Hrank; apply rank_first_length|].
    eapply Forall_impl; [|exact Hin].
    intros z Hz. rewrite Forall_forall in Hlab. exact (Hlab z Hz). }
  assert (forall x labels scores,
             List.length x = List.length series ->
             Forall (fun z => 1 <= z <= 5) labels ->
             and_then (pd_qcut x 5 labels) astype_int = Some scores ->
             List.length scores = List.length series
             /\ Forall (fun z => 1 <= z <= 5) scores) as Hqcut.
  { intros x labels scores Hx Hlab H. unfold pd_qcut in H.
    destruct (bins_to_cuts _ _ _ _ _) as [res|] eqn:E; [|discriminate].
    cbn [and_then] in H.
    destruct (@bins_to_cuts_labels _ _ _ _ _ _ _ E H) as [Hl Hin].
    split; [congruence|].
    eapply Forall_impl; [|exact Hin].
    intros z Hz. rewrite Forall_forall in Hlab. exact (Hlab z Hz). }
  assert (forall l : list Z, Forall (fun z => 1 <= z <= 5) l
                             <-> forallb (fun z => (1 <=? z) && (z <=? 5)) l = true)
    as Hdec.
  { intro l. rewrite forallb_forall, Forall_forall.
    split; intros H z Hz; specialize (H z Hz).
    - apply andb_true_iff. rewrite !Z.leb_le. exact H.
    - apply andb_true_iff in H. rewrite !Z.leb_le in H. exact H. }
  unfold create_score.
  destruct series as [|x0 xs]; [congruence|].
  pose proof (nunique_positive x0 xs) as Hpos.
  set (k := nunique (x0 :: xs)) in *.
  destruct (k <? 5)%nat eqn:Ek.
  - apply Nat.ltb_lt in Ek.
    destruct reverse; [specialize (Hrev eq_refl); lia|].
    assert (k = 1 \/ k = 2 \/ k = 3 \/ k = 4)%nat as Hcases by lia.
    destruct Hcases as [-> | [-> | [-> | ->]]];
      apply Hcut; try reflexivity; try (cbn; lia);
      apply Hdec; reflexivity.
  - destruct reverse.
    + destruct (and_then (pd_qcut (x0 :: xs) 5 [5; 4; 3; 2; 1]) astype_int)
        as [scores|] eqn:E.
      * exists scores. split; [reflexivity|].
        apply (Hqcut (x0 :: xs) [5; 4; 3; 2; 1]); [reflexivity | | exact E].
        apply Hdec. reflexivity.
      * apply Hcut; try reflexivity; try (cbn; lia). apply Hdec. reflexivity.
    + destruct (and_then (pd_qcut (rank_first (x0 :: xs)) 5 [1; 2; 3; 4; 5]) astype_int)
        as [scores|] eqn:E.
      * exists scores. split; [reflexivity|].
        apply (Hqcut (rank_first (x0 :: xs)) [1; 2; 3; 4; 5]);
          [apply rank_first_length | | exact E].
        apply Hdec. reflexivity.
      * apply Hcut; try reflexivity; try (cbn; lia). apply Hdec. reflexivity.
Qed.

(** ** Scoring a population *)

Lemma calculate_credit_score_range (c : Customer) :
  1 <= calculate_credit_score c <= 5.
Proof.
  unfold calculate_credit_score.
  repeat match goal with |- context [if ?b then _ else _] => destruct b end; lia.
Qed.

Lemma calculate_profit_score_range (m : npfloat) :
  1 <= calculate_profit_score m <= 5.
Proof.
  unfold calculate_profit_score.
  repeat match goal with |- context [if ?b then _ else _] => destruct b end; lia.
Qed.

Lemma attach_scores_in_range (cs : list Customer) :
  forall rs fs ms,
    List.length rs = List.length cs ->
    List.length fs = List.length cs ->
    List.length ms = List.length cs ->
    Forall (fun z => 1 <= z <= 5) rs ->
    Forall (fun z => 1 <= z <= 5) fs ->
    Forall (fun z => 1 <= z <= 5) ms ->
    map customer (attach_scores cs rs fs ms) = cs
    /\ Forall sub_scores_in_range (attach_scores cs rs fs ms).
Proof.
  induction cs as [|c cs IH]; intros rs fs ms Hr Hf Hm Fr Ff Fm.
  - split; [reflexivity | constructor].
  - destruct rs as [|r rs], fs as [|f fs], ms as [|m ms]; try discriminate.
    inversion Fr; inversion Ff; inversion Fm; subst.
    cbn in Hr, Hf, Hm.
    destruct (IH rs fs ms) as [Hmap Hall]; try lia; try assumption.
    cbn [attach_scores map]. split; [rewrite Hmap; reflexivity|].
    constructor; [|exact Hall].
    unfold sub_scores_in_range. cbn.
    pose proof (calculate_credit_score_range c).
    pose proof (calculate_profit_score_range (profit_margin_pct c)).
    tauto.
Qed.

Lemma score_customers_in_range (cs : list Customer) :
  (5 <= nunique (recency_values cs))%nat ->
  exists rows,
    score_customers cs = Some rows
    /\ map customer rows = cs
    /\ Forall sub_scores_in_range rows.
Proof.
  intro Hrec. unfold score_customers.
  assert (cs <> []) as Hne by (intros ->; cbn in Hrec; lia).
  assert (forall f : Customer -> Q, map f cs <> []) as Hmap
      by (intros f H; apply map_eq_nil in H; contradiction).
  destruct (@create_score_in_range (recency_values cs) true)
    as (rs & -> & Lr & Fr); [apply Hmap | intros _; exact Hrec |].
  unfold recency_values in Lr.
  destruct (@create_score_in_range (map (fun c => inject_Z (frequency c)) cs) false)
    as (fs & -> & Lf & Ff); [apply Hmap | discriminate |].
  destruct (@create_score_in_range (map (fun c => inject_Z (monetary_value c)) cs) false)
    as (ms & -> & Lm & Fm); [apply Hmap | discriminate |].
  rewrite length_map in Lr, Lf, Lm.
  eexists. split; [reflexivity|].
  apply attach_scores_in_range; assumption.
Qed.

Lemma drop_duplicates_from_length {A} (same : A -> A -> bool) (l : list A) :
  forall seen, (List.length (drop_duplicates_from same seen l) <= List.length l)%nat.
Proof.
  induction l as [|x l IH]; intro seen; cbn; [lia|].
  destruct (existsb (same x) seen); cbn; [specialize (IH seen) | specialize (IH (x :: seen))];
    lia.
Qed.

Lemma nunique_le_length (series : list Q) : (nunique series <= List.length series)%nat.
Proof. apply drop_duplicates_from_length. Qed.

(** C8. The scoring computation raises on every population whose recency
    has fewer than 5 distinct values, in particular on every population of
    fewer than 5 customers: the recency score is the reversed call of
    [create_score], whose branch for fewer than 5 distinct values raises
    before any score is computed.  So does [get_customer_scores] on every
    store whose query result is such a population and is not empty. *)
Theorem small_population_raises (cs : list Customer) :
  (List.length cs < 5)%nat \/ (nunique (recency_values cs) < 5)%nat ->
  create_score (recency_values cs) true = None
  /\ score_customers cs = None
  /\ forall (S : SortValues) (P : ArbitraryRow) (now : Time)
            (sales_data : list LedgerRow),
       scoring_query now sales_data <> [] ->
       map clean_row (scoring_query now sales_data) = cs ->
       get_customer_scores now (Some sales_data) = Raised.
Proof.
  intro H.
  assert (nunique (recency_values cs) < 5)%nat as Hfew.
  { destruct H as [H|H]; [|exact H].
    pose proof (nunique_le_length (recency_values cs)) as Hle.
    unfold recency_values in Hle. rewrite length_map in Hle.
    unfold recency_values. lia. }
  assert (create_score (recency_values cs) true = None) as Hr
      by (apply create_score_reversed_raises; exact Hfew).
  assert (score_customers cs = None) as Hs.
  { unfold score_customers. fold (recency_values cs). rewrite Hr. reflexivity. }
  split; [exact Hr|]. split; [exact Hs|].
  intros S P now sales_data Hne Hcs. unfold get_customer_scores.
  destruct (scoring_query now sales_data) as [|q df]; [congruence|].
  rewrite Hcs, Hs. reflexivity.
Qed.

Lemma small_population_raises_witness :
  ((List.length three_customers < 5)%nat
   \/ (nunique (recency_values three_customers) < 5)%nat)
  /\ create_score (recency_values three_customers) true = None
  /\ score_customers three_customers = None
  /\ forall (S : SortValues) (P : ArbitraryRow) (now : Time)
            (sales_data : list LedgerRow),
       scoring_query now sales_data <> [] ->
       map clean_row (scoring_query now sales_data) = three_customers ->
       get_customer_scores now (Some sales_data) = Raised.
Proof.
  split; [left; cbn; lia|].
  apply (@small_population_raises three_customers). left. cbn. lia.
Defined.

(** The frequency and monetary scores of the same three customers, for which
    [create_score] is not reversed. *)
Example three_customers_unreversed_scores :
  create_score (map (fun c => inject_Z (frequency c)) three_customers) false
  = Some [1; 2; 1]
  /\ create_score (map (fun c => inject_Z (monetary_value c)) three_customers) false
     = Some [3; 2; 1].
Proof. split; vm_compute; reflexivity. Qed.

Example three_customer_store_raises :
  get_customer_scores 864000 (Some three_customer_ledger) = Raised.
Proof. vm_compute. reflexivity. Qed.

(** With at least 5 distinct recency values [get_customer_scores] returns,
    and the sub-scores of every record it returns are between 1 and 5; it
    also returns (an empty frame) when there is no store or no scored row. *)
Lemma get_customer_scores_returns {S : SortValues} {L : SortValuesLaws S}
    {P : ArbitraryRow} (now : Time) (db : Database) :
  enough_recencies now db ->
  exists records,
    get_customer_scores now db = Returned records
    /\ Forall (fun r => sub_scores_in_range (scored r)) records.
Proof.
  unfold get_customer_scores, enough_recencies. destruct db as [sales_data|];
    [|exists []; split; [reflexivity | constructor]].
  intro Hrec.
  destruct (scoring_query now sales_data) as [|q df];
    [exists []; split; [reflexivity | constructor]|].
  destruct (@score_customers_in_range (map clean_row (q :: df)))
    as (rows & -> & _ & Hall); [destruct Hrec; [discriminate | assumption]|].
  eexists. split; [reflexivity|].
  eapply Permutation_Forall; [apply sort_values_perm|].
  apply Forall_map. exact Hall.
Qed.

(* ================================================================== *)
(** * Part III. Further properties of the loader *)
(* ================================================================== *)

(** ** Keeping the last duplicate *)

Lemma find_last_none {A} (p : A -> bool) (l : list A) :
  find_last p l = None -> forall y, In y l -> p y = false.
Proof.
  induction l as [|x l IH]; cbn; [contradiction|].
  destruct (find_last p l); [discriminate|].
  destruct (p x) eqn:E; [discriminate|].
  intros _ y [<-|Hy]; [exact E | exact (IH eq_refl y Hy)].
Qed.

Lemma find_last_some {A} (p : A -> bool) (l : list A) (x : A) :
  find_last p l = Some x -> In x l /\ p x = true.
Proof.
  induction l as [|y l IH]; cbn; [discriminate|].
  destruct (find_last p l) as [z|].
  - intros [= ->]. destruct (IH eq_refl). tauto.
  - destruct (p y) eqn:E; [|discriminate]. intros [= ->]. tauto.
Qed.

Lemma find_last_exists {A} (p : A -> bool) (l : list A) (y : A) :
  In y l -> p y = true -> exists x, find_last p l = Some x.
Proof.
  intros Hy Hp. destruct (find_last p l) as [x|] eqn:E; [eauto|].
  rewrite (find_last_none _ _ E y Hy) in Hp. discriminate.
Qed.

Lemma find_last_map {A B} (f : A -> B) (p : B -> bool) (q : A -> bool) (l : list A) :
  (forall a, p (f a) = q a) ->
  find_last p (map f l) = option_map f (find_last q l).
Proof.
  intro H. induction l as [|x l IH]; cbn; [reflexivity|].
  rewrite IH, H. destruct (find_last q l); cbn; [reflexivity|].
  destruct (q x); reflexivity.
Qed.

Section KeepLast.
Variable A : Type.
Variable same : A -> A -> bool.
Hypothesis same_sym : forall a b, same a b = same b a.
Hypothesis same_trans :
  forall a b c, same a b = true -> same b c = true -> same a c = true.

(** Of the rows with a given key, [keep='last'] keeps the last one in the
    table, and only that one. *)
Lemma drop_duplicates_last_key (k : A) (l : list A) :
  filter (fun r => same r k) (drop_duplicates_last same l)
  = match find_last (fun r => same r k) l with
    | Some r => [r]
    | None => []
    end.
Proof.
  induction l as [|x l IH]; cbn; [reflexivity|].
  destruct (existsb (same x) l) eqn:Ex.
  - rewrite IH. destruct (find_last (fun r => same r k) l) as [y|] eqn:E;
      [reflexivity|].
    destruct (same x k) eqn:Exk; [|reflexivity].
    apply existsb_exists in Ex. destruct Ex as (y & Hy & Hxy).
    pose proof (find_last_none _ _ E y Hy) as Hyk. cbn in Hyk.
    rewrite same_sym in Hxy. rewrite (same_trans Hxy Exk) in Hyk. discriminate.
  - cbn. rewrite IH.
    destruct (same x k) eqn:Exk.
    + destruct (find_last (fun r => same r k) l) as [y|] eqn:E; [|reflexivity].
      apply find_last_some in E. destruct E as [Hy Hyk].
      assert (same x y = true) as Hxy
          by (apply (same_trans Exk); rewrite same_sym; exact Hyk).
      assert (existsb (same x) l = true) as H
          by (apply existsb_exists; exists y; tauto).
      congruence.
    + destruct (find_last (fun r => same r k) l); reflexivity.
Qed.
End KeepLast.

Lemma raw_code_eqb_sym (a b : RawCode) : raw_code_eqb a b = raw_code_eqb b a.
Proof.
  destruct a, b; cbn; try reflexivity; try apply Z.eqb_sym; apply String.eqb_sym.
Qed.

Lemma raw_code_eqb_trans (a b c : RawCode) :
  raw_code_eqb a b = true -> raw_code_eqb b c = true -> raw_code_eqb a c = true.
Proof.
  destruct a, b, c; cbn; try discriminate; try reflexivity;
    rewrite ?Z.eqb_eq, ?String.eqb_eq; congruence.
Qed.

Lemma raw_code_eqb_refl (a : RawCode) : raw_code_eqb a a = true.
Proof. destruct a; cbn; try reflexivity; [apply Z.eqb_refl .. | apply String.eqb_refl]. Qed.

Lemma mul_as_minus_one (int64 : bool) (b : Z) :
  - 2 ^ 63 < b < 2 ^ 63 -> mul_as int64 b (-1) = - b.
Proof.
  intro H. unfold mul_as. destruct int64; [|lia].
  rewrite wrap64_small by (apply in_int64_iff; lia). lia.
Qed.

(** X1. For every customer code of the credit file, the roster that STEP 1
    builds holds exactly one row with that code: the last row of the file
    with the code (7 and 7.0 being one code), with its last invoice date.
    The balance of that row has its sign inverted, for every balance above
    -2^63 and below 2^63; the balance -2^63 of a column without a missing
    value wraps around and is left as it is. *)
Theorem credit_roster_keeps_last_row (rows : list (CreditRec RawCode))
    (r : CreditRec RawCode) :
  In r rows ->
  exists last kept,
    find_last (fun x => same_raw_code x r) rows = Some last
    /\ filter (fun x => same_raw_code x r) (load_credit rows) = [kept]
    /\ cr_customer_code kept = cr_customer_code last
    /\ cr_last_invoice_date kept = cr_last_invoice_date last
    /\ (cr_balance last = None -> cr_balance kept = None)
    /\ (forall b, cr_balance last = Some b -> - 2 ^ 63 < b < 2 ^ 63 ->
                  cr_balance kept = Some (- b))
    /\ (int64_column (map (@cr_balance RawCode) rows) = true ->
        cr_balance last = Some (- 2 ^ 63) -> cr_balance kept = Some (- 2 ^ 63)).
Proof.
  intro Hr.
  destruct (@find_last_exists _ (fun x => same_raw_code x r) rows r Hr
              (raw_code_eqb_refl _)) as (last & Hlast).
  set (int64 := int64_column (map (@cr_balance RawCode) rows)).
  exists last, (invert_balance int64 last). split; [exact Hlast|].
  split.
  - unfold load_credit. fold int64.
    change (fun a b : CreditRec RawCode =>
              raw_code_eqb (cr_customer_code a) (cr_customer_code b))
      with same_raw_code.
    assert (filter (fun x => same_raw_code x r)
                   (drop_duplicates_last same_raw_code (map (invert_balance int64) rows))
            = filter (fun x => same_raw_code x (invert_balance int64 r))
                     (drop_duplicates_last same_raw_code
                        (map (invert_balance int64) rows)))
      as -> by reflexivity.
    rewrite drop_duplicates_last_key.
    + rewrite (find_last_map (invert_balance int64) _ (fun x => same_raw_code x r))
        by reflexivity.
      rewrite Hlast. reflexivity.
    + intros a b. apply raw_code_eqb_sym.
    + intros a b c. apply raw_code_eqb_trans.
  - cbn [invert_balance cr_customer_code cr_last_invoice_date cr_balance].
    repeat split.
    + intros ->. reflexivity.
    + intros b -> Hb. cbn [option_map]. rewrite mul_as_minus_one by exact Hb.
      reflexivity.
    + intros Hint ->. cbn [option_map]. rewrite Hint. reflexivity.
Qed.

Lemma credit_roster_keeps_last_row_witness :
  exists last kept,
    find_last (fun x => same_raw_code x (mkCredit (CodeInt 7) (Some (-500)) None))
              two_rows_of_customer_7 = Some last
    /\ filter (fun x => same_raw_code x (mkCredit (CodeInt 7) (Some (-500)) None))
              (load_credit two_rows_of_customer_7) = [kept]
    /\ cr_customer_code kept = cr_customer_code last
    /\ cr_last_invoice_date kept = cr_last_invoice_date last
    /\ (cr_balance last = None -> cr_balance kept = None)
    /\ (forall b, cr_balance last = Some b -> - 2 ^ 63 < b < 2 ^ 63 ->
                  cr_balance kept = Some (- b))
    /\ (int64_column (map (@cr_balance RawCode) two_rows_of_customer_7) = true ->
        cr_balance last = Some (- 2 ^ 63) -> cr_balance kept = Some (- 2 ^ 63)).
Proof.
  apply (@credit_roster_keeps_last_row two_rows_of_customer_7
           (mkCredit (CodeInt 7) (Some (-500)) None)).
  left. reflexivity.
Defined.

(** The balance -2^63 in a column without a missing value, and in a column
    with one. *)
Example lowest_balance_in_both_dtypes :
  map (@cr_balance RawCode)
      (load_credit [mkCredit (CodeInt 7) (Some (- 2 ^ 63)) None;
                    mkCredit (CodeInt 8) (Some 40) None])
  = [Some (- 2 ^ 63); Some (-40)]
  /\ map (@cr_balance RawCode)
         (load_credit [mkCredit (CodeInt 7) (Some (- 2 ^ 63)) None;
                       mkCredit (CodeInt 8) None None])
     = [Some (2 ^ 63); None].
Proof. split; vm_compute; reflexivity. Qed.

(** ** Identities *)

Lemma standardize_credit_canonical (c : RawCode) (s : string) :
  standardize_credit c = Some s ->
  exists z, s = str_of_int z /\ in_int64 z = true.
Proof.
  destruct c as [|z|z|z|t]; cbn [standardize_credit].
  - intros [= <-]. exists (-1). split; reflexivity.
  - destruct (to_int64 z) as [v|] eqn:E; [|discriminate].
    apply to_int64_inv in E. destruct E as [-> E].
    intros [= <-]. exists z. tauto.
  - intros [= <-]. exists (wrap64 z). split; [reflexivity | apply wrap64_in_range].
  - destruct (to_int64 z) as [v|] eqn:E; [|discriminate].
    apply to_int64_inv in E. destruct E as [-> E].
    intros [= <-]. exists z. tauto.
  - destruct (py_int_of_str t) as [z|]; cbn [and_then option_map]; [|discriminate].
    destruct (to_int64 z) as [v|] eqn:E; [|discriminate].
    apply to_int64_inv in E. destruct E as [-> E].
    intros [= <-]. exists z. tauto.
Qed.

Lemma numeral_sign_and_digits (d : Decimal.uint) :
  only_sign_and_digits (NilEmpty.string_of_uint d) = true.
Proof. induction d; cbn; auto. Qed.

Lemma str_of_int_sign_and_digits (z : Z) : only_sign_and_digits (str_of_int z) = true.
Proof.
  unfold str_of_int. destruct (Z.to_int z); cbn; apply numeral_sign_and_digits.
Qed.

Lemma only_sign_and_digits_append (s t : string) :
  only_sign_and_digits (s ++ t)
  = only_sign_and_digits s && only_sign_and_digits t.
Proof.
  induction s as [|c s IH]; cbn; [reflexivity|].
  rewrite IH. apply andb_assoc.
Qed.

Lemma str_of_int_injective (a b : Z) : str_of_int a = str_of_int b -> a = b.
Proof.
  intro H. pose proof (py_int_of_str_of_int a) as Ha.
  rewrite H, py_int_of_str_of_int in Ha. congruence.
Qed.

(** X2. The identity that the credit side gives to a code is the decimal
    string of an integer, and standardizing it again, on either side, leaves
    it as it is. *)
Theorem credit_identity_is_stable (c : RawCode) (s : string) :
  standardize_credit c = Some s ->
  (exists z, s = str_of_int z)
  /\ standardize_credit (CodeStr s) = Some s
  /\ standardize_sales (CodeStr s) = s.
Proof.
  intro H. destruct (standardize_credit_canonical c H) as (z & -> & Hz).
  split; [eauto|]. split; [|reflexivity].
  cbn. rewrite py_int_of_str_of_int. cbn. rewrite (to_int64_some _ Hz). reflexivity.
Qed.

Lemma credit_identity_is_stable_witness :
  (exists z, "42" = str_of_int z)
  /\ standardize_credit (CodeStr "42") = Some "42"
  /\ standardize_sales (CodeStr "42") = "42".
Proof.
  apply (@credit_identity_is_stable (CodeStr " +4_2 ") "42"). reflexivity.
Defined.

(** X3. A sales line whose customer code is read as a float, or is missing,
    matches no customer of the credit roster, whatever the roster holds: the
    identities of the credit side never end in [.0] and none is [nan]. *)
Theorem float_coded_sales_never_match (c : RawCode) (s : string) (z : Z) :
  standardize_credit c = Some s ->
  s <> standardize_sales (CodeFloat z) /\ s <> standardize_sales CodeNaN.
Proof.
  intro H. destruct (standardize_credit_canonical c H) as (z' & -> & _).
  pose proof (str_of_int_sign_and_digits z') as Hd.
  split; intro Heq; rewrite Heq in Hd; cbn in Hd.
  - unfold str_of_whole_float in Hd.
    rewrite only_sign_and_digits_append in Hd.
    rewrite andb_comm in Hd. discriminate Hd.
  - discriminate Hd.
Qed.

Lemma float_coded_sales_never_match_witness :
  "7" <> standardize_sales (CodeFloat 7) /\ "7" <> standardize_sales CodeNaN.
Proof.
  apply (@float_coded_sales_never_match (CodeFloat 7) "7" 7). reflexivity.
Defined.

(** X4. Different integer codes of the [int64] range never share an
    identity, on either side, and a string that [int] reads as an integer is
    treated on the credit side like that integer: it gets its identity, or
    raises with it when it is outside the range.  An unsigned code of 2^63 or
    more wraps around on the credit side and so takes the identity of a
    negative code. *)
Theorem integer_codes_do_not_collide (a b : Z) (s : string) :
  (in_int64 a = true ->
   standardize_credit (CodeInt a) = standardize_credit (CodeInt b) -> a = b)
  /\ (standardize_sales (CodeInt a) = standardize_sales (CodeInt b) -> a = b)
  /\ (py_int_of_str s = Some a ->
      standardize_credit (CodeStr s) = standardize_credit (CodeInt a))
  /\ (2 ^ 63 <= a < 2 ^ 64 ->
      standardize_credit (CodeUInt a) = standardize_credit (CodeInt (a - 2 ^ 64))
      /\ standardize_credit (CodeUInt a) <> Some (standardize_sales (CodeUInt a))).
Proof.
  split; [|split; [|split]].
  - intros Ha. cbn. rewrite (to_int64_some _ Ha). cbn.
    destruct (to_int64 b) as [v|] eqn:E; [|discriminate].
    apply to_int64_inv in E. destruct E as [-> _].
    intros [= H]. exact (str_of_int_injective _ _ H).
  - cbn. apply str_of_int_injective.
  - intro H. cbn. rewrite H. reflexivity.
  - intro Ha.
    assert (wrap64 a = a - 2 ^ 64) as Hw.
    { unfold wrap64.
      replace (a + 2 ^ 63) with ((a - 2 ^ 63) + 1 * 2 ^ 64) by lia.
      rewrite Z.mod_add by lia. rewrite Z.mod_small by lia. lia. }
    cbn [standardize_credit standardize_sales]. rewrite Hw.
    rewrite to_int64_some by (apply in_int64_iff; lia).
    split; [reflexivity|].
    intros [= H]. apply str_of_int_injective in H. lia.
Qed.

Example unsigned_code_wraps :
  standardize_credit (CodeUInt (2 ^ 63)) = Some "-9223372036854775808"
  /\ standardize_sales (CodeUInt (2 ^ 63)) = "9223372036854775808"
  /\ standardize_credit (CodeInt (2 ^ 63)) = None
  /\ standardize_credit (CodeStr "9223372036854775808") = None
  /\ standardize_credit (CodeStr "9223372036854775807") = Some "9223372036854775807".
Proof. repeat split; vm_compute; reflexivity. Qed.

(** The whitespace of [int]: a no-break space is skipped, a file separator
    (U+001C) is not. *)
Example int_whitespace :
  py_int_of_str (String (ascii_of_nat 160) " 12 ") = Some 12
  /\ py_int_of_str (String (ascii_of_nat 28) "12") = None
  /\ py_int_of_str "1_000" = Some 1000
  /\ py_int_of_str "1__0" = None
  /\ py_int_of_str "- 5" = None
  /\ py_int_of_str "7.0" = None.
Proof. repeat split; vm_compute; reflexivity. Qed.

(** ** Content of the customer summary *)

Lemma filter_of_map {A B} (f : A -> B) (p : B -> bool) (l : list A) :
  filter p (map f l) = map f (filter (fun a => p (f a)) l).
Proof.
  induction l as [|x l IH]; cbn; [reflexivity|].
  rewrite IH. destruct (p (f x)); reflexivity.
Qed.

Lemma Permutation_of_at_most_one {A} (l l' : list A) :
  Permutation l l' -> (List.length l <= 1)%nat -> l' = l.
Proof.
  intros H Hlen. destruct l as [|x [|y l]]; cbn in Hlen; try lia.
  - apply Permutation_nil. exact H.
  - apply Permutation_length_1_inv. exact H.
Qed.

Lemma lines_of_nil_iff (code : string) (sales_df : list (SalesLine string)) :
  lines_of code sales_df = []
  <-> find (fun k => String.eqb k code) (map (@customer_code string) sales_df) = None.
Proof.
  unfold lines_of. induction sales_df as [|r df IH]; cbn; [tauto|].
  destruct (String.eqb (customer_code r) code); [split; discriminate | exact IH].
Qed.

(** The rows of [sales_aggregated] for one identity: the aggregate of the
    lines of that customer, if there are any. *)
Lemma aggregate_sales_of_customer (dt : SalesDtypes) (code : string)
    (sales_df : list (SalesLine string)) :
  filter (fun a => String.eqb code (ag_customer_code a)) (aggregate_sales dt sales_df)
  = match aggregate_of dt code sales_df with Some a => [a] | None => [] end.
Proof.
  unfold aggregate_sales. rewrite filter_of_map. cbn [ag_customer_code aggregate_customer].
  set (groups := group_rows String.eqb (@customer_code string) sales_df).
  assert (filter (fun g : string * list (SalesLine string) => String.eqb code (fst g))
                 groups
          = match lines_of code sales_df with
            | [] => []
            | _ => [(code, lines_of code sales_df)]
            end) as Hgroups.
  { unfold groups, group_rows. rewrite filter_of_map. cbn [fst].
    assert (filter (fun k => String.eqb code k)
                   (drop_duplicates_first String.eqb
                      (map (@customer_code string) sales_df))
            = filter (fun k => String.eqb k code)
                     (drop_duplicates_first String.eqb
                        (map (@customer_code string) sales_df))) as ->
        by (apply filter_ext; intro k; apply String.eqb_sym).
    rewrite drop_duplicates_first_key.
    - destruct (find (fun k => String.eqb k code)
                     (map (@customer_code string) sales_df)) as [k|] eqn:E.
      + destruct (lines_of code sales_df) as [|l ls] eqn:El.
        * apply lines_of_nil_iff in El. congruence.
        * apply find_some in E. destruct E as [_ Hk]. apply String.eqb_eq in Hk.
          subst k. cbn [map]. f_equal. f_equal. exact El.
      + apply lines_of_nil_iff in E. rewrite E. reflexivity.
    - intros a b. apply String.eqb_sym.
    - intros a b c Hab Hbc. apply String.eqb_eq in Hab, Hbc. subst.
      apply String.eqb_refl. }
  assert (filter (fun g : string * list (SalesLine string) => String.eqb code (fst g))
                 (insertion_sort (fun a b => String.leb (fst a) (fst b)) groups)
          = match lines_of code sales_df with
            | [] => []
            | _ => [(code, lines_of code sales_df)]
            end) as ->.
  { rewrite <- Hgroups. apply Permutation_of_at_most_one.
    - apply Permutation_filter. apply insertion_sort_perm.
    - rewrite Hgroups. destruct (lines_of code sales_df); cbn; lia. }
  unfold aggregate_of. destruct (lines_of code sales_df); reflexivity.
Qed.

Lemma merge_left_by_lookup {L R O : Type} (matches : L -> R -> bool)
    (combine : L -> option R -> O) (lookup : L -> option R)
    (left : list L) (right : list R) :
  (forall l, filter (matches l) right
             = match lookup l with Some r => [r] | None => [] end) ->
  merge_left matches combine left right = map (fun l => combine l (lookup l)) left.
Proof.
  intro H. unfold merge_left. induction left as [|l left IH]; [reflexivity|].
  cbn [flat_map]. rewrite IH, H.
  destruct (lookup l) eqn:E; cbn; rewrite E; reflexivity.
Qed.

(** The customer summary, customer by customer. *)
Lemma merge_summary_by_customer (now : Time) (credit_df : list (CreditRec string))
    (dt : SalesDtypes) (sales_df : list (SalesLine string)) :
  merge_summary now credit_df (aggregate_sales dt sales_df)
  = map (fun c => summary_row now c (aggregate_of dt (cr_customer_code c) sales_df))
        credit_df.
Proof.
  unfold merge_summary. apply merge_left_by_lookup.
  intro c. apply aggregate_sales_of_customer.
Qed.

(** Sums in the dtype of the column. *)
Lemma wrap64_add_l (a b : Z) : wrap64 (wrap64 a + b) = wrap64 (a + b).
Proof.
  unfold wrap64. f_equal.
  replace ((a + 2 ^ 63) mod 2 ^ 64 - 2 ^ 63 + b + 2 ^ 63)
    with ((a + 2 ^ 63) mod 2 ^ 64 + b) by lia.
  rewrite Zplus_mod_idemp_l. f_equal. lia.
Qed.

Lemma wrap64_add_r (a b : Z) : wrap64 (a + wrap64 b) = wrap64 (a + b).
Proof. rewrite (Z.add_comm a), wrap64_add_l. f_equal. lia. Qed.

Lemma sum_as_float (values : list Z) : sum_as false values = fold_right Z.add 0 values.
Proof.
  unfold sum_as.
  assert (forall acc, fold_left (add_as false) values acc
                      = acc + fold_right Z.add 0 values) as H.
  { induction values as [|x values IH]; intro acc; cbn [fold_left fold_right]; [lia|].
    rewrite IH. unfold add_as. lia. }
  exact (H 0).
Qed.

Lemma sum_as_int64 (values : list Z) :
  sum_as true values = wrap64 (fold_right Z.add 0 values).
Proof.
  unfold sum_as.
  assert (forall acc, fold_left (add_as true) values (wrap64 acc)
                      = wrap64 (acc + fold_right Z.add 0 values)) as H.
  { induction values as [|x values IH]; intro acc; cbn [fold_left fold_right].
    - f_equal. lia.
    - unfold add_as at 2. rewrite wrap64_add_l, IH. f_equal. lia. }
  exact (H 0).
Qed.

Lemma sum_within_magnitude (values : list Z) :
  Z.abs (fold_right Z.add 0 values) <= magnitude values.
Proof.
  unfold magnitude. induction values as [|x values IH]; cbn [map fold_right]; lia.
Qed.

Lemma magnitude_nonneg (values : list Z) : 0 <= magnitude values.
Proof.
  unfold magnitude. induction values as [|x values IH]; cbn [map fold_right]; lia.
Qed.

(** Within the exact range the sum of a column is the sum of its values,
    whatever the dtype. *)
Lemma sum_as_exact (int64 : bool) (values : list Z) :
  exactly_summable values -> sum_as int64 values = fold_right Z.add 0 values.
Proof.
  unfold exactly_summable. intro H. destruct int64; [|apply sum_as_float].
  rewrite sum_as_int64. apply wrap64_small. apply in_int64_iff.
  pose proof (sum_within_magnitude values). lia.
Qed.

Lemma magnitude_app (l l' : list Z) : magnitude (l ++ l') = magnitude l + magnitude l'.
Proof.
  unfold magnitude. induction l as [|x l IH]; [cbn; lia|].
  rewrite <- app_comm_cons. cbn [map fold_right]. rewrite IH. lia.
Qed.

(** The rows of a group, or any selection of rows, stay within the range of
    the whole column. *)
Lemma magnitude_of_selection {R} (value : R -> option Z) (p : R -> bool)
    (rows : list R) :
  magnitude (notnull (map value (filter p rows)))
  <= magnitude (notnull (map value rows)).
Proof.
  induction rows as [|r rows IH]; cbn [filter map]; [lia|].
  change (notnull (value r :: map value rows))
    with (match value r with Some a => [a] | None => [] end
          ++ notnull (map value rows)).
  rewrite magnitude_app.
  pose proof (magnitude_nonneg match value r with Some a => [a] | None => [] end).
  destruct (p r); [|lia].
  cbn [map].
  change (notnull (value r :: map value (filter p rows)))
    with (match value r with Some a => [a] | None => [] end
          ++ notnull (map value (filter p rows))).
  rewrite magnitude_app. lia.
Qed.

(** X5. Every row of the customer summary carries the balance and the last
    invoice date of a credit-roster row with the same identity, and its sales
    figures are those of the sales lines of that identity and of no other:
    the invoice count is the number of their distinct invoice numbers, the
    last delivery date is their latest delivery date, and, when their amounts
    and their quantities are within the range in which the sums of the column
    are exact (absolute values adding up to at most 2^53), total amount and
    total quantity are their sums; for a customer without a sales line this
    gives 0, 0, 0 and no date. *)
Theorem summary_figures_are_the_customers_own (now : Time)
    (credit_df : list (CreditRec string)) (dt : SalesDtypes)
    (sales_df : list (SalesLine string)) (c : CustomerSummary) :
  In c (merge_summary now credit_df (aggregate_sales dt sales_df)) ->
  exactly_summable
    (notnull (map (@amount string) (lines_of (cs_customer_code c) sales_df))) ->
  exactly_summable
    (notnull (map (@quantity string) (lines_of (cs_customer_code c) sales_df))) ->
  (exists cr, In cr credit_df
              /\ cr_customer_code cr = cs_customer_code c
              /\ cr_balance cr = cs_balance c
              /\ cr_last_invoice_date cr = cs_last_invoice_date c)
  /\ cs_total_sales_amount c
     = sum_notnull (map (@amount string) (lines_of (cs_customer_code c) sales_df))
  /\ cs_total_quantity c
     = sum_notnull (map (@quantity string) (lines_of (cs_customer_code c) sales_df))
  /\ cs_invoice_count c
     = nunique_strings
         (map (@invoice_number string) (lines_of (cs_customer_code c) sales_df))
  /\ cs_last_delivery_date c
     = max_notnull
         (map (@delivery_date string) (lines_of (cs_customer_code c) sales_df)).
Proof.
  rewrite merge_summary_by_customer. intro H.
  apply in_map_iff in H. destruct H as (cr & <- & Hcr).
  cbn [cs_customer_code summary_row]. intros Ha Hq.
  split; [exists cr; repeat split; assumption|].
  unfold summary_row, aggregate_of. cbn.
  destruct (lines_of (cr_customer_code cr) sales_df) as [|l ls] eqn:El;
    [repeat split|].
  cbn [option_map fillna aggregate_customer total_sales_amount total_quantity
       invoice_count last_delivery_date snd].
  rewrite (sum_as_exact _ Ha), (sum_as_exact _ Hq). repeat split.
Qed.

Lemma summary_figures_are_the_customers_own_witness :
  (exists cr, In cr roster_of_three
              /\ cr_customer_code cr = "7"
              /\ cr_balance cr = Some 1000
              /\ cr_last_invoice_date cr = None)
  /\ 400 = sum_notnull (map (@amount string) (lines_of "7" sales_of_two))
  /\ 3 = sum_notnull (map (@quantity string) (lines_of "7" sales_of_two))
  /\ 1 = nunique_strings (map (@invoice_number string) (lines_of "7" sales_of_two))
  /\ Some 86400
     = max_notnull (map (@delivery_date string) (lines_of "7" sales_of_two)).
Proof.
  apply (@summary_figures_are_the_customers_own 864000 roster_of_three
           (sales_dtypes sales_of_two) sales_of_two
           (mkSummary "7" (Some 1000) None 400 3 (Some 86400) 1 "R1" "B1" "Co" 9)).
  - left. reflexivity.
  - unfold exactly_summable. vm_compute. discriminate.
  - unfold exactly_summable. vm_compute. discriminate.
Defined.

(** X6. Days since the last activity follow a chain of fallbacks: the latest
    delivery date of the customer's sales lines when one of them has a date,
    otherwise the last invoice date of the credit roster, otherwise 999; and a
    customer without any sales line has route, booker and company ["N/A"]. *)
Theorem days_since_falls_back (now : Time)
    (credit_df : list (CreditRec string)) (dt : SalesDtypes)
    (sales_df : list (SalesLine string)) (c : CustomerSummary) :
  In c (merge_summary now credit_df (aggregate_sales dt sales_df)) ->
  days_since_last_sale c
  = match max_notnull
            (map (@delivery_date string) (lines_of (cs_customer_code c) sales_df)),
          cs_last_invoice_date c with
    | Some delivered, _ => (now - delivered) / 86400
    | None, Some invoiced => (now - invoiced) / 86400
    | None, None => 999
    end
  /\ (lines_of (cs_customer_code c) sales_df = [] ->
      cs_route c = "N/A" /\ cs_booker_name c = "N/A" /\ cs_company c = "N/A").
Proof.
  rewrite merge_summary_by_customer. intro H.
  apply in_map_iff in H. destruct H as (cr & <- & Hcr).
  unfold summary_row, aggregate_of. cbn.
  destruct (lines_of (cr_customer_code cr) sales_df) as [|l ls]; cbn.
  - split; [reflexivity|]. intros _. repeat split.
  - split; [reflexivity|]. discriminate.
Qed.

Lemma days_since_falls_back_witness :
  9 = match max_notnull (map (@delivery_date string) (lines_of "8" sales_of_two)),
            Some 86400 with
      | Some delivered, _ => (864000 - delivered) / 86400
      | None, Some invoiced => (864000 - invoiced) / 86400
      | None, None => 999
      end
  /\ (lines_of "8" sales_of_two = [] ->
      "N/A" = "N/A" /\ "N/A" = "N/A" /\ "N/A" = "N/A").
Proof.
  apply (@days_since_falls_back 864000 roster_of_three (sales_dtypes sales_of_two)
           sales_of_two
           (mkSummary "8" (Some (-20)) (Some 86400) 0 0 None 0 "N/A" "N/A" "N/A" 9)).
  right. left. reflexivity.
Defined.

(** ** Aggregation conserves the totals *)

Lemma sum_Z_app (l l' : list Z) : sum_Z (l ++ l') = sum_Z l + sum_Z l'.
Proof. unfold sum_Z. induction l as [|x l IH]; cbn; [reflexivity | rewrite IH; lia]. Qed.

Lemma sum_Z_perm (l l' : list Z) : Permutation l l' -> sum_Z l = sum_Z l'.
Proof. unfold sum_Z. induction 1; cbn; lia. Qed.

Lemma sum_notnull_cons (v : option Z) (l : list (option Z)) :
  sum_notnull (v :: l) = fillna 0 v + sum_notnull l.
Proof. unfold sum_notnull, notnull. destruct v; cbn; reflexivity. Qed.

Section Partition.
Variable R : Type.
Variable key : R -> string.
Variable value : R -> option Z.

Let total (rows : list R) : Z := sum_notnull (map value rows).

Lemma total_of_disjoint (p q : R -> bool) (rows : list R) :
  (forall r, p r = true -> q r = true -> False) ->
  total (filter (fun r => p r || q r) rows)
  = total (filter p rows) + total (filter q rows).
Proof.
  intro Hdis. unfold total. induction rows as [|r rows IH]; [reflexivity|].
  cbn [filter]. destruct (p r) eqn:Ep, (q r) eqn:Eq; cbn [orb map].
  - exfalso. exact (Hdis r Ep Eq).
  - rewrite !sum_notnull_cons, IH. lia.
  - rewrite !sum_notnull_cons, IH. lia.
  - exact IH.
Qed.

Lemma total_by_keys (keys : list string) (rows : list R) :
  NoDup keys ->
  sum_Z (map (fun k => total (filter (fun r => String.eqb (key r) k) rows)) keys)
  = total (filter (fun r => existsb (String.eqb (key r)) keys) rows).
Proof.
  induction 1 as [|k keys Hnotin Hnd IH]; cbn [map existsb].
  - unfold total. rewrite filter_none by reflexivity. reflexivity.
  - change (sum_Z (?x :: ?l)) with (x + sum_Z l). rewrite IH.
    symmetry. apply total_of_disjoint.
    intros r Hk Hin. apply String.eqb_eq in Hk.
    apply existsb_exists in Hin. destruct Hin as (k' & Hk' & Heq).
    apply String.eqb_eq in Heq. apply Hnotin. congruence.
Qed.

Lemma filter_all (p : R -> bool) (rows : list R) :
  (forall r, In r rows -> p r = true) -> filter p rows = rows.
Proof.
  induction rows as [|r rows IH]; intro H; cbn; [reflexivity|].
  rewrite (H r (or_introl eq_refl)). f_equal. apply IH.
  intros x Hx. apply H. right. exact Hx.
Qed.
End Partition.

Lemma drop_duplicates_first_covers (l : list string) (x : string) :
  In x l -> In x (drop_duplicates_first String.eqb l).
Proof.
  intro Hx.
  assert (In x (filter (fun k => String.eqb k x)
                       (drop_duplicates_first String.eqb l))) as H.
  { rewrite drop_duplicates_first_key.
    - destruct (find (fun k => String.eqb k x) l) as [y|] eqn:E.
      + apply find_some in E. destruct E as [_ Hy]. apply String.eqb_eq in Hy.
        left. exact Hy.
      + pose proof (find_none _ _ E x Hx) as H. cbn in H.
        rewrite String.eqb_refl in H. discriminate.
    - intros a b. apply String.eqb_sym.
    - intros a b c Hab Hbc. apply String.eqb_eq in Hab, Hbc. subst.
      apply String.eqb_refl. }
  apply filter_In in H. tauto.
Qed.

(** The groups of a table cover it: a column summed group by group gives
    the sum of the column. *)
Lemma grouped_total {R} (key : R -> string) (value : R -> option Z) (rows : list R) :
  sum_Z (map (fun g => sum_notnull (map value (snd g)))
             (group_rows String.eqb key rows))
  = sum_notnull (map value rows).
Proof.
  unfold group_rows. rewrite map_map. cbn [snd].
  rewrite (total_by_keys key value).
  - rewrite filter_all; [reflexivity|].
    intros r Hr. apply existsb_exists. exists (key r).
    split; [|apply String.eqb_refl].
    apply drop_duplicates_first_covers. apply in_map. exact Hr.
  - apply drop_duplicates_from_NoDup. apply String.eqb_refl.
Qed.

Lemma group_rows_selection {R} (key : R -> string) (rows : list R)
    (g : string * list R) :
  In g (group_rows String.eqb key rows) ->
  snd g = filter (fun r => String.eqb (key r) (fst g)) rows.
Proof.
  unfold group_rows. intro H. apply in_map_iff in H.
  destruct H as (k & <- & _). reflexivity.
Qed.

Lemma wrap64_sum_map {A} (f : A -> Z) (l : list A) :
  wrap64 (sum_Z (map (fun a => wrap64 (f a)) l)) = wrap64 (sum_Z (map f l)).
Proof.
  unfold sum_Z. induction l as [|x l IH]; [reflexivity|].
  cbn [map fold_right]. rewrite wrap64_add_l.
  rewrite <- wrap64_add_r, IH, wrap64_add_r. reflexivity.
Qed.

(** A column summed group by group: within the exact range the group sums
    add up to the sum of the column; in an [int64] column they do so modulo
    2^64. *)
Lemma grouped_sums_exact {R} (key : R -> string) (value : R -> option Z)
    (int64 : bool) (rows : list R) :
  exactly_summable (notnull (map value rows)) ->
  sum_Z (map (fun g => sum_as int64 (notnull (map value (snd g))))
             (group_rows String.eqb key rows))
  = sum_notnull (map value rows).
Proof.
  intro H. rewrite <- (grouped_total key value rows). f_equal.
  apply map_ext_in. intros g Hg.
  rewrite (group_rows_selection _ _ _ Hg).
  apply sum_as_exact. unfold exactly_summable in *.
  pose proof (magnitude_of_selection value
                (fun r => String.eqb (key r) (fst g)) rows). lia.
Qed.

Lemma grouped_sums_wrap {R} (key : R -> string) (value : R -> option Z)
    (rows : list R) :
  wrap64 (sum_Z (map (fun g => sum_as true (notnull (map value (snd g))))
                     (group_rows String.eqb key rows)))
  = wrap64 (sum_notnull (map value rows)).
Proof.
  rewrite <- (grouped_total key value rows).
  rewrite <- (wrap64_sum_map (fun g => sum_notnull (map value (snd g)))).
  f_equal. f_equal. apply map_ext. intro g. apply sum_as_int64.
Qed.

(** X7. Aggregation per customer conserves the totals.  When the amounts of
    the sales lines are within the range in which the sums of the column are
    exact (absolute values adding up to at most 2^53), the amounts of
    [sales_aggregated] add up to the amount of all the sales lines, missing
    values counting for 0; and in an [int64] column the two totals agree
    modulo 2^64 whatever the amounts are, each group sum having wrapped
    around on its own.  The same holds of the quantities. *)
Theorem aggregation_conserves_totals (dt : SalesDtypes)
    (sales_df : list (SalesLine string)) :
  (exactly_summable (notnull (map (@amount string) sales_df)) ->
   sum_Z (map total_sales_amount (aggregate_sales dt sales_df))
   = sum_notnull (map (@amount string) sales_df))
  /\ (exactly_summable (notnull (map (@quantity string) sales_df)) ->
      sum_Z (map total_quantity (aggregate_sales dt sales_df))
      = sum_notnull (map (@quantity string) sales_df))
  /\ (amount_int64 dt = true ->
      wrap64 (sum_Z (map total_sales_amount (aggregate_sales dt sales_df)))
      = wrap64 (sum_notnull (map (@amount string) sales_df)))
  /\ (quantity_int64 dt = true ->
      wrap64 (sum_Z (map total_quantity (aggregate_sales dt sales_df)))
      = wrap64 (sum_notnull (map (@quantity string) sales_df))).
Proof.
  unfold aggregate_sales. rewrite !map_map.
  cbn [total_sales_amount total_quantity aggregate_customer].
  assert (forall f : string * list (SalesLine string) -> Z,
             sum_Z (map f (insertion_sort (fun a b => String.leb (fst a) (fst b))
                             (group_rows String.eqb (@customer_code string) sales_df)))
             = sum_Z (map f (group_rows String.eqb (@customer_code string) sales_df)))
    as Hsorted.
  { intro f. apply sum_Z_perm. apply Permutation_map. apply Permutation_sym.
    apply insertion_sort_perm. }
  rewrite !Hsorted.
  split; [|split; [|split]].
  - apply grouped_sums_exact.
  - apply grouped_sums_exact.
  - intros ->. apply grouped_sums_wrap.
  - intros ->. apply grouped_sums_wrap.
Qed.

(** Two amounts of 5 * 10^18 for one customer: in an [int64] column their
    sum wraps around to a negative total, in a [float64] column (a missing
    amount elsewhere) it does not. *)
Example large_amounts_wrap :
  map total_sales_amount
      (aggregate_sales (mkSalesDtypes true true)
         [mkSales (Some "A1") (Some 86400) None "7" None (Some "P1")
                  (Some 1) (Some (5 * 10 ^ 18)) None None;
          mkSales (Some "A1") (Some 86400) None "7" None (Some "P2")
                  (Some 1) (Some (5 * 10 ^ 18)) None None])
  = [-8446744073709551616]
  /\ map total_sales_amount
         (aggregate_sales (mkSalesDtypes false true)
            [mkSales (Some "A1") (Some 86400) None "7" None (Some "P1")
                     (Some 1) (Some (5 * 10 ^ 18)) None None;
             mkSales (Some "A1") (Some 86400) None "7" None (Some "P2")
                     (Some 1) (Some (5 * 10 ^ 18)) None None])
     = [10 ^ 19].
Proof. split; vm_compute; reflexivity. Qed.

(** ** Content of the transaction detail *)

Lemma merge_left_In {L R O : Type} (matches : L -> R -> bool)
    (combine : L -> option R -> O) (left : list L) (right : list R) (o : O) :
  In o (merge_left matches combine left right) ->
  exists l, In l left
            /\ ((filter (matches l) right = [] /\ o = combine l None)
                \/ exists r, In r (filter (matches l) right) /\ o = combine l (Some r)).
Proof.
  unfold merge_left. intro H. apply in_flat_map in H.
  destruct H as (l & Hl & Ho). exists l. split; [exact Hl|].
  destruct (filter (matches l) right) as [|r rs] eqn:E.
  - left. destruct Ho as [<-|[]]. split; reflexivity.
  - right. apply in_map_iff in Ho. destruct Ho as (r0 & <- & Hr0). eauto.
Qed.

Lemma opt_string_eqb_sym (a b : option string) :
  opt_string_eqb a b = opt_string_eqb b a.
Proof. destruct a, b; cbn; try reflexivity. apply String.eqb_sym. Qed.

Lemma opt_string_eqb_trans (a b c : option string) :
  opt_string_eqb a b = true -> opt_string_eqb b c = true -> opt_string_eqb a c = true.
Proof. rewrite !opt_string_eqb_eq. congruence. Qed.

(** The margin records that a sales line is merged with: the last record of
    its invoice number in the margin file, if there is one. *)
Lemma margin_of_line (margin_rows : list MarginRec) (invoice : option string) :
  filter (margin_of_invoice invoice) (load_margin (FileData margin_rows))
  = match find_last (margin_of_invoice invoice) margin_rows with
    | Some m => [m]
    | None => []
    end.
Proof.
  cbn [load_margin].
  pose proof (@drop_duplicates_last_key MarginRec
                (fun a b => opt_string_eqb (mg_invoice_number a) (mg_invoice_number b))
                (fun a b => opt_string_eqb_sym _ _)
                (fun a b c => @opt_string_eqb_trans _ _ _)
                (mkMargin invoice None None) margin_rows) as H.
  cbn [mg_invoice_number] in H.
  assert (forall l, filter (margin_of_invoice invoice) l
                    = filter (fun r => opt_string_eqb (mg_invoice_number r) invoice) l)
    as Hf by (intro l; apply filter_ext; intro m; apply opt_string_eqb_sym).
  rewrite Hf, H.
  assert (find_last (fun r => opt_string_eqb (mg_invoice_number r) invoice) margin_rows
          = find_last (margin_of_invoice invoice) margin_rows) as ->; [|reflexivity].
  clear. induction margin_rows as [|m l IH]; cbn; [reflexivity|].
  rewrite IH. unfold margin_of_invoice at 2. rewrite opt_string_eqb_sym. reflexivity.
Qed.

(** X8. The profit that a row of the transaction detail carries is the
    profit of the last record of its invoice number in the margin file, and
    0 when the file has no record of the invoice or that record has no profit
    value; when the margin file cannot be read, every row has profit 0. *)
Theorem detail_profit_is_last_margin_record (sales_df : list (SalesLine string))
    (margin : file_read MarginRec) (credit_df : list (CreditRec string))
    (row : DetailRow) :
  In row (merge_detail sales_df (load_margin margin) credit_df) ->
  dt_profit row
  = match margin with
    | FileData margin_rows =>
        match find_last (margin_of_invoice (invoice_number (dt_line row)))
                        margin_rows with
        | Some m => fillna 0 (mg_profit m)
        | None => 0
        end
    | _ => 0
    end.
Proof.
  unfold merge_detail. intro H.
  apply merge_left_In in H. destruct H as ([l m] & Hlm & Hrow).
  assert (dt_line row = l /\ dt_profit row
                              = fillna 0 (match m with
                                          | Some m0 => mg_profit m0
                                          | None => None
                                          end)) as [Hline Hprofit]
      by (destruct Hrow as [[_ ->]|(c & _ & ->)]; split; reflexivity).
  rewrite Hprofit, Hline. clear Hrow Hprofit Hline.
  apply merge_left_In in Hlm. destruct Hlm as (l0 & _ & Hm).
  change (fun m0 : MarginRec => opt_string_eqb (invoice_number l0) (mg_invoice_number m0))
    with (margin_of_invoice (invoice_number l0)) in Hm.
  destruct margin as [| |margin_rows].
  - destruct Hm as [[_ [= -> ->]]|(r & Hr & _)]; [reflexivity | destruct Hr].
  - destruct Hm as [[_ [= -> ->]]|(r & Hr & _)]; [reflexivity | destruct Hr].
  - rewrite margin_of_line in Hm.
    destruct (find_last (margin_of_invoice (invoice_number l0)) margin_rows)
      as [last|] eqn:E.
    + destruct Hm as [[Hnil _]|(r & [<-|[]] & [= -> ->])]; [discriminate|].
      rewrite E. reflexivity.
    + destruct Hm as [[_ [= -> ->]]|(r & [] & _)]. rewrite E. reflexivity.
Qed.

Lemma detail_profit_is_last_margin_record_witness :
  45 = match find_last (margin_of_invoice (Some "A1")) margin_with_duplicate with
       | Some m => fillna 0 (mg_profit m)
       | None => 0
       end.
Proof.
  apply (@detail_profit_is_last_margin_record sales_of_two
           (FileData margin_with_duplicate) roster_of_three
           (mkDetail (mkSales (Some "A1") (Some 86400) (Some "B1") "7" (Some "Shop")
                              (Some "P1") (Some 2) (Some 500) (Some "Co") (Some "R1"))
                     45 1000 None)).
  left. reflexivity.
Defined.

(** X9. The balance that a row of the transaction detail carries is the
    balance of a credit-roster row with the identity of the line (0 when that
    balance is missing), together with its last invoice date; a line whose
    identity is not in the roster is kept, with balance 0 and no date. *)
Theorem detail_balance_is_credit_balance (sales_df : list (SalesLine string))
    (margin_df : list MarginRec) (credit_df : list (CreditRec string))
    (row : DetailRow) :
  In row (merge_detail sales_df margin_df credit_df) ->
  (exists c, In c credit_df
             /\ cr_customer_code c = customer_code (dt_line row)
             /\ dt_balance row = fillna 0 (cr_balance c)
             /\ dt_last_invoice_date row = cr_last_invoice_date c)
  \/ ((forall c, In c credit_df -> cr_customer_code c <> customer_code (dt_line row))
      /\ dt_balance row = 0
      /\ dt_last_invoice_date row = None).
Proof.
  unfold merge_detail. intro H.
  apply merge_left_In in H. destruct H as (lm & _ & [[Hnone ->]|(c & Hc & ->)]).
  - right. split; [|split; reflexivity].
    intros c Hc Heq. cbn [dt_line detail_row] in Heq.
    assert (In c (filter (fun c0 => String.eqb (customer_code (fst lm))
                                               (cr_customer_code c0)) credit_df)) as Hin
        by (apply filter_In; split; [exact Hc | rewrite Heq; apply String.eqb_refl]).
    rewrite Hnone in Hin. destruct Hin.
  - left. apply filter_In in Hc. destruct Hc as [Hc Heq].
    apply String.eqb_eq in Heq. exists c.
    split; [exact Hc|]. split; [symmetry; exact Heq|]. split; reflexivity.
Qed.

Lemma detail_balance_is_credit_balance_witness :
  (exists c, In c roster_of_three
             /\ cr_customer_code c = "5"
             /\ 0 = fillna 0 (cr_balance c)
             /\ None = cr_last_invoice_date c)
  \/ ((forall c, In c roster_of_three -> cr_customer_code c <> "5")
      /\ 0 = 0 /\ @None Time = None).
Proof.
  apply (@detail_balance_is_credit_balance sales_of_two [] roster_of_three
           (mkDetail (mkSales (Some "A3") None (Some "B1") "5" (Some "Gone")
                              (Some "P2") None (Some 70) (Some "Co") (Some "R3"))
                     0 0 None)).
  right. right. right. left. reflexivity.
Defined.

(** X10. When no two rows of the credit roster have the same identity, the
    transaction detail has exactly one row per sales line, in the order of the
    sales lines; the merge with the margin records never multiplies a line. *)
Theorem detail_has_one_row_per_line (sales_df : list (SalesLine string))
    (margin : file_read MarginRec) (credit_df : list (CreditRec string)) :
  NoDup (map (@cr_customer_code string) credit_df) ->
  map dt_line (merge_detail sales_df (load_margin margin) credit_df) = sales_df.
Proof.
  intro Hnd. unfold merge_detail.
  rewrite (merge_left_one_per_row _ detail_row dt_line fst).
  - rewrite (merge_left_one_per_row _ (fun l m => (l, m)) fst (fun l => l)).
    + apply map_id.
    + reflexivity.
    + intro l.
      change (fun m : MarginRec => opt_string_eqb (invoice_number l) (mg_invoice_number m))
        with (margin_of_invoice (invoice_number l)).
      destruct margin as [| |margin_rows]; cbn [load_margin filter List.length]; try lia.
      change (drop_duplicates_last _ margin_rows)
        with (load_margin (FileData margin_rows)).
      rewrite margin_of_line. destruct (find_last _ _); cbn; lia.
  - reflexivity.
  - intro lm. apply filter_unique_key; [|exact Hnd].
    intros a b Hab. apply String.eqb_eq. exact Hab.
Qed.

Lemma detail_has_one_row_per_line_witness :
  map dt_line (merge_detail sales_of_two (load_margin (FileData margin_with_duplicate))
                            roster_of_three)
  = sales_of_two.
Proof.
  apply (@detail_has_one_row_per_line sales_of_two (FileData margin_with_duplicate)
           roster_of_three).
  repeat constructor; cbn; intuition discriminate.
Defined.

(** ** Invariants of the deduplicated sales lines *)

(** X11. After the deduplication every (invoice number, product) pair of the
    sales lines is left with exactly one row; that row is a row of the input
    with the latest delivery date of the pair (a row without a date being kept
    only when no row of the pair has one); and the lines are in ascending
    order of delivery date, those without a date last. *)
Theorem deduplication_invariants {S : SortValues} {L : SortValuesLaws S} {C : Type}
    (sales_df : list (SalesLine C)) (r : SalesLine C) :
  In r sales_df ->
  (exists kept,
      filter (fun x => same_invoice_product x r) (deduplicate_sales sales_df) = [kept]
      /\ In kept sales_df
      /\ forall other, In other sales_df -> same_invoice_product other r = true ->
                       date_le false (delivery_date kept) (delivery_date other) = true)
  /\ StronglySorted (fun a b => date_le true (delivery_date a) (delivery_date b) = true)
                    (deduplicate_sales sales_df).
Proof.
  intro Hr. split.
  - destruct (find (fun x => same_invoice_product x r) (latest_first sales_df))
      as [first|] eqn:E.
    + exists first. split; [|split].
      * apply Permutation_length_1_inv.
        eapply perm_trans; [|apply deduplicate_sales_filter].
        rewrite kept_row_of_key, E. apply Permutation_refl.
      * apply find_some in E. destruct E as [Hin _].
        apply (Permutation_in _ (Permutation_sym
                 (sort_values_perm (by_delivery_date false) sales_df))).
        exact Hin.
      * intros other Hin Hsame.
        exact (@kept_row_precedes S L C sales_df r first other E Hin Hsame).
    + apply (Permutation_in _ (sort_values_perm (by_delivery_date false) sales_df))
        in Hr.
      pose proof (find_none _ _ E r Hr) as H. cbn in H.
      rewrite same_invoice_product_refl in H. discriminate.
  - unfold deduplicate_sales. apply (sort_values_sorted (by_delivery_date true)).
    + intros a b. apply date_le_total.
    + intros a b c. apply date_le_trans.
Qed.

Lemma deduplication_invariants_witness :
  (exists kept,
      filter (fun x => same_invoice_product x delivered_first)
             (deduplicate_sales redelivered_sales) = [kept]
      /\ In kept redelivered_sales
      /\ forall other, In other redelivered_sales ->
                       same_invoice_product other delivered_first = true ->
                       date_le false (delivery_date kept) (delivery_date other) = true)
  /\ StronglySorted (fun a b => date_le true (delivery_date a) (delivery_date b) = true)
                    (deduplicate_sales redelivered_sales).
Proof.
  apply (@deduplication_invariants insertion_sort_values insertion_sort_laws RawCode
           redelivered_sales delivered_first).
  right. right. left. reflexivity.
Defined.

(** ** Whole runs of the loader *)

Lemma standardize_credit_codes_In (rows : list (CreditRec RawCode)) :
  forall std s,
    standardize_credit_codes rows = Some std -> In s std ->
    exists r, In r rows
              /\ standardize_credit (cr_customer_code r) = Some (cr_customer_code s)
              /\ cr_balance s = cr_balance r
              /\ cr_last_invoice_date s = cr_last_invoice_date r.
Proof.
  induction rows as [|r rows IH]; intros std s H Hs; cbn in H.
  - injection H as <-. destruct Hs.
  - destruct (standardize_credit (cr_customer_code r)) as [c|] eqn:Ec; [|discriminate].
    destruct (standardize_credit_codes rows) as [rest|]; [|discriminate].
    injection H as <-. destruct Hs as [<-|Hs].
    + exists r. cbn. repeat split; [left; reflexivity | exact Ec].
    + destruct (IH rest s eq_refl Hs) as (r' & Hr' & H'). exists r'.
      split; [right; exact Hr' | exact H'].
Qed.

Lemma standardize_credit_codes_none (rows : list (CreditRec RawCode)) :
  standardize_credit_codes rows = None
  <-> exists r, In r rows /\ standardize_credit (cr_customer_code r) = None.
Proof.
  induction rows as [|r rows IH]; cbn.
  - split; [discriminate | intros (r & [] & _)].
  - destruct (standardize_credit (cr_customer_code r)) as [c|] eqn:Ec.
    + destruct (standardize_credit_codes rows) as [rest|].
      * split; [discriminate|]. intros (r' & [<-|Hr'] & Hn); [congruence|].
        assert (Some rest = None) as H by (apply IH; eauto). discriminate H.
      * split; [|reflexivity]. intros _.
        destruct (proj1 IH eq_refl) as (r' & Hr' & Hn). eauto.
    + split; [|reflexivity]. intros _. exists r. split; [left; reflexivity | exact Ec].
Qed.

Lemma immediate_matches_positive (credit_df : list (CreditRec string))
    (sales_df : list (SalesLine string)) :
  immediate_matches credit_df sales_df <> 0%nat
  <-> exists c, In c (map (@cr_customer_code string) credit_df)
                /\ In c (map (@customer_code string) sales_df).
Proof.
  split.
  - intro H. destruct (immediate_matches credit_df sales_df) eqn:E; [congruence|].
    unfold immediate_matches in E.
    destruct (filter _ _) as [|c rest] eqn:Ef; [discriminate|].
    assert (In c (c :: rest)) as Hc by (left; reflexivity).
    rewrite <- Ef in Hc. apply filter_In in Hc. destruct Hc as [Hc Hex].
    apply drop_duplicates_first_In in Hc.
    apply existsb_exists in Hex. destruct Hex as (s & Hs & Heq).
    apply String.eqb_eq in Heq. exists c. split; [exact Hc|].
    rewrite Heq. apply in_map. exact Hs.
  - intros (c & Hc & Hs). unfold immediate_matches.
    assert (In c (filter
                    (fun c0 => existsb (fun s => String.eqb c0 (customer_code s))
                                       sales_df)
                    (drop_duplicates_first String.eqb
                       (map (@cr_customer_code string) credit_df)))) as Hin.
    { apply filter_In. split; [apply drop_duplicates_first_covers; exact Hc|].
      apply in_map_iff in Hs. destruct Hs as (s & Hs & Hin).
      apply existsb_exists. exists s. split; [exact Hin|].
      rewrite Hs. apply String.eqb_refl. }
    destruct (filter _ _); [destruct Hin | discriminate].
Qed.

(** What [reconcile] has done when it returns its two tables. *)
Lemma reconcile_returned {S : SortValues} (src : Sources) (st : Reconciled) :
  reconcile src = Returned st ->
  exists rows df dfs std,
    credit_file src = FileData rows
    /\ read_sales_files (sales_files src) = Some (df :: dfs)
    /\ standardize_credit_codes (load_credit rows) = Some std
    /\ immediate_matches (drop_sentinel std)
                         (map standardize_sales_line (List.concat (df :: dfs)))
       <> 0%nat
    /\ st = mkReconciled
              (merge_summary (today src) (drop_sentinel std)
                 (aggregate_sales
                    (sales_dtypes (List.concat (df :: dfs)))
                    (deduplicate_sales
                       (map standardize_sales_line (List.concat (df :: dfs))))))
              (merge_detail
                 (deduplicate_sales
                    (map standardize_sales_line (List.concat (df :: dfs))))
                 (load_margin (margin_file src)) (drop_sentinel std)).
Proof.
  unfold reconcile. intro H.
  destruct (credit_file src) as [| |rows] eqn:Ef; try discriminate. cbn [bind] in H.
  destruct (read_sales_files (sales_files src)) as [[|df dfs]|] eqn:Es;
    try discriminate.
  cbn [bind] in H.
  destruct (standardize_credit_codes (load_credit rows)) as [std|] eqn:Ec;
    try discriminate.
  cbn [bind] in H.
  destruct (immediate_matches _ _ =? 0)%nat eqn:E; try discriminate.
  apply Nat.eqb_neq in E. injection H as <-.
  exists rows, df, dfs, std.
  split; [reflexivity|]. split; [reflexivity|]. split; [exact Ec|].
  split; [exact E | reflexivity].
Qed.

(** ** One record per customer *)

Lemma load_credit_keeps_a_row (rows : list (CreditRec RawCode))
    (r : CreditRec RawCode) :
  In r rows ->
  exists kept, In kept (load_credit rows) /\ same_raw_code kept r = true.
Proof.
  intro Hr.
  set (int64 := int64_column (map (@cr_balance RawCode) rows)).
  destruct (@find_last_exists _ (fun x => same_raw_code x r) rows r Hr
              (raw_code_eqb_refl _)) as (last & Hlast).
  assert (filter (fun x => same_raw_code x (invert_balance int64 r)) (load_credit rows)
          = [invert_balance int64 last]) as H.
  { unfold load_credit. fold int64.
    change (fun a b : CreditRec RawCode =>
              raw_code_eqb (cr_customer_code a) (cr_customer_code b))
      with same_raw_code.
    rewrite drop_duplicates_last_key.
    - rewrite (find_last_map (invert_balance int64) _ (fun x => same_raw_code x r))
        by reflexivity.
      rewrite Hlast. reflexivity.
    - intros a b. apply raw_code_eqb_sym.
    - intros a b c. apply raw_code_eqb_trans. }
  exists (invert_balance int64 last).
  assert (In (invert_balance int64 last)
             (filter (fun x => same_raw_code x (invert_balance int64 r))
                     (load_credit rows))) as Hin
      by (rewrite H; left; reflexivity).
  apply filter_In in Hin. exact Hin.
Qed.

Lemma two_selected {A} (p : A -> bool) (l : list A) (a b : A) :
  In a l -> In b l -> a <> b -> p a = true -> p b = true ->
  (2 <= List.length (filter p l))%nat.
Proof.
  intros Ha Hb Hab Hpa Hpb.
  assert (In a (filter p l)) as Fa by (apply filter_In; tauto).
  assert (In b (filter p l)) as Fb by (apply filter_In; tauto).
  destruct (filter p l) as [|x [|y rest]].
  - destruct Fa.
  - destruct Fa as [<-|[]], Fb as [<-|[]]. congruence.
  - cbn. lia.
Qed.

Lemma standardized_rows_of_identity (id : string) (rows : list (CreditRec RawCode)) :
  forall std,
    standardize_credit_codes rows = Some std ->
    List.length (filter (fun s => String.eqb (cr_customer_code s) id) std)
    = List.length (filter (fun r => has_identity id (cr_customer_code r)) rows).
Proof.
  induction rows as [|r rows IH]; intros std H; cbn in H.
  - injection H as <-. reflexivity.
  - destruct (standardize_credit (cr_customer_code r)) as [c|] eqn:Ec; [|discriminate].
    destruct (standardize_credit_codes rows) as [rest|]; [|discriminate].
    injection H as <-. cbn [filter cr_customer_code].
    assert (has_identity id (cr_customer_code r) = String.eqb c id) as ->
        by (unfold has_identity; rewrite Ec; reflexivity).
    destruct (String.eqb c id); cbn [List.length]; rewrite (IH rest eq_refl);
      reflexivity.
Qed.

(** C4. The customer summary has one row per row of the credit roster, but
    the roster is deduplicated on the codes as they are read, before they are
    standardized: a customer whose code is in the credit file both as a
    number and as a text cell is kept twice, and every run that succeeds on
    such a file gives the customer two or more rows in the summary, under one
    identity. *)
Theorem summary_repeats_customer_coded_twice {S : SortValues} (src : Sources)
    (st : Reconciled) (rows : list (CreditRec RawCode))
    (r1 r2 : CreditRec RawCode) (z : Z) (s : string) :
  reconcile src = Returned st ->
  credit_file src = FileData rows ->
  In r1 rows -> In r2 rows ->
  cr_customer_code r1 = CodeInt z ->
  cr_customer_code r2 = CodeStr s ->
  py_int_of_str s = Some z ->
  z <> -1 ->
  (2 <= List.length (summary_rows_of (str_of_int z) (final_df st)))%nat
  /\ ~ NoDup (map cs_customer_code (final_df st)).
Proof.
  intros Hrun Hfile H1 H2 Hc1 Hc2 Hs Hz.
  destruct (reconcile_returned src Hrun)
    as (rows' & df & dfs & std & Hf & _ & Hstd & _ & ->).
  rewrite Hfile in Hf. injection Hf as <-.
  cbn [final_df].
  destruct (load_credit_keeps_a_row rows r1 H1) as (k1 & Hk1 & Hs1).
  destruct (load_credit_keeps_a_row rows r2 H2) as (k2 & Hk2 & Hs2).
  unfold same_raw_code in Hs1, Hs2. rewrite Hc1 in Hs1. rewrite Hc2 in Hs2.
  assert (forall k, In k (load_credit rows) ->
                    exists c, standardize_credit (cr_customer_code k) = Some c)
    as Hconv.
  { intros k Hk.
    destruct (standardize_credit (cr_customer_code k)) as [c|] eqn:E; [eauto|].
    assert (standardize_credit_codes (load_credit rows) = None) as Hn
        by (apply standardize_credit_codes_none; eauto).
    congruence. }
  assert (cr_customer_code k2 = CodeStr s) as Ek2.
  { destruct (cr_customer_code k2); cbn in Hs2; try discriminate.
    apply String.eqb_eq in Hs2. congruence. }
  assert (in_int64 z = true) as Hrange.
  { destruct (Hconv k2 Hk2) as (c & Hc). rewrite Ek2 in Hc.
    cbn in Hc. rewrite Hs in Hc. cbn in Hc.
    destruct (to_int64 z) as [v|] eqn:E; [|discriminate].
    apply to_int64_inv in E. tauto. }
  assert (has_identity (str_of_int z) (cr_customer_code k2) = true) as Hid2.
  { unfold has_identity. rewrite Ek2. cbn. rewrite Hs. cbn.
    rewrite (to_int64_some _ Hrange). cbn. apply String.eqb_refl. }
  assert (has_identity (str_of_int z) (cr_customer_code k1) = true) as Hid1.
  { unfold has_identity.
    destruct (cr_customer_code k1) as [|x|x|x|t]; cbn in Hs1; try discriminate;
      apply Z.eqb_eq in Hs1; subst x; cbn;
      rewrite ?(to_int64_some _ Hrange), ?(wrap64_small _ Hrange); cbn;
      apply String.eqb_refl. }
  assert (k1 <> k2) as Hne.
  { intros ->. rewrite Ek2 in Hs1. discriminate Hs1. }
  assert (2 <= List.length
                 (filter (fun c => String.eqb c (str_of_int z))
                         (map cs_customer_code
                            (merge_summary (today src) (drop_sentinel std)
                               (aggregate_sales
                                  (sales_dtypes (List.concat (df :: dfs)))
                                  (deduplicate_sales
                                     (map standardize_sales_line
                                          (List.concat (df :: dfs)))))))))%nat
    as Htwo.
  { rewrite merge_summary_identities, filter_of_map, length_map.
    unfold drop_sentinel.
    assert (forall l : list (CreditRec string),
               filter (fun a => String.eqb (cr_customer_code a) (str_of_int z))
                      (filter (fun r => negb (String.eqb (cr_customer_code r) "-1")) l)
               = filter (fun a => String.eqb (cr_customer_code a) (str_of_int z)) l)
      as ->.
    { induction l as [|x l IH]; [reflexivity|]. cbn [filter].
      destruct (String.eqb (cr_customer_code x) "-1") eqn:E1; cbn [negb].
      - apply String.eqb_eq in E1.
        destruct (String.eqb (cr_customer_code x) (str_of_int z)) eqn:E2; [|exact IH].
        apply String.eqb_eq in E2. exfalso. apply Hz.
        apply str_of_int_injective. rewrite <- E2, E1. reflexivity.
      - cbn [filter]. rewrite IH. reflexivity. }
    rewrite (standardized_rows_of_identity _ _ Hstd).
    exact (two_selected _ _ Hk1 Hk2 Hne Hid1 Hid2). }
  split.
  - unfold summary_rows_of.
    rewrite filter_of_map, length_map in Htwo. exact Htwo.
  - intro Hnd.
    assert (NoDup (filter (fun c => String.eqb c (str_of_int z))
                          (map cs_customer_code
                             (merge_summary (today src) (drop_sentinel std)
                                (aggregate_sales
                                   (sales_dtypes (List.concat (df :: dfs)))
                                   (deduplicate_sales
                                      (map standardize_sales_line
                                           (List.concat (df :: dfs))))))))) as Hf
        by (apply NoDup_filter; exact Hnd).
    destruct (filter _ _) as [|x [|y rest]] eqn:E; cbn in Htwo; try lia.
    assert (In x (x :: y :: rest)) as Hx by (left; reflexivity).
    assert (In y (x :: y :: rest)) as Hy by (right; left; reflexivity).
    rewrite <- E in Hx, Hy. apply filter_In in Hx, Hy.
    destruct Hx as [_ Hx], Hy as [_ Hy]. apply String.eqb_eq in Hx, Hy.
    inversion Hf as [|? ? Hnotin _]; subst. apply Hnotin. left. reflexivity.
Qed.

Lemma summary_repeats_customer_coded_twice_witness :
  exists st,
    reconcile mixed_code_sources = Returned st
    /\ (2 <= List.length (summary_rows_of (str_of_int 7) (final_df st)))%nat
    /\ ~ NoDup (map cs_customer_code (final_df st)).
Proof.
  destruct (reconcile mixed_code_sources) as [st| |] eqn:E;
    [|vm_compute in E; discriminate E ..].
  exists st. split; [reflexivity|].
  refine (@summary_repeats_customer_coded_twice insertion_sort_values
            mixed_code_sources st _
            (mkCredit (CodeInt 7) (Some (-1000)) None)
            (mkCredit (CodeStr "7") (Some (-250)) None) 7 "7"
            E eq_refl _ _ eq_refl eq_refl eq_refl _).
  - left. reflexivity.
  - right. left. reflexivity.
  - lia.
Defined.

(** The run on that file: two summary rows for the identity ["7"], with the
    two balances, each with the sales of the customer. *)
Example mixed_codes_summary :
  option_map (fun st => map (fun c => (cs_customer_code c, cs_balance c,
                                        cs_total_sales_amount c))
                            (final_df st))
             (match reconcile mixed_code_sources with
              | Returned st => Some st | _ => None end)
  = Some [("7", Some 1000, 800); ("7", Some 250, 800)].
Proof. vm_compute. reflexivity. Qed.

(** X12. Every row of the customer summary of a successful run comes from a
    row of the credit file: its identity is the standardized code of that row
    and is never the sentinel ["-1"], its last invoice date is that of the
    file, and its balance is the balance of the file with the sign inverted
    (a source balance of -500 is shown as 500), for every balance above -2^63
    and below 2^63. *)
Theorem summary_rows_come_from_credit_file {S : SortValues} (src : Sources)
    (st : Reconciled) (rows : list (CreditRec RawCode)) (c : CustomerSummary) :
  reconcile src = Returned st ->
  credit_file src = FileData rows ->
  In c (final_df st) ->
  cs_customer_code c <> "-1"
  /\ exists raw,
       In raw rows
       /\ standardize_credit (cr_customer_code raw) = Some (cs_customer_code c)
       /\ cs_last_invoice_date c = cr_last_invoice_date raw
       /\ (cr_balance raw = None -> cs_balance c = None)
       /\ (forall b, cr_balance raw = Some b -> - 2 ^ 63 < b < 2 ^ 63 ->
                     cs_balance c = Some (- b)).
Proof.
  intros Hrun Hfile Hc.
  destruct (reconcile_returned src Hrun)
    as (rows' & df & dfs & std & Hf & _ & Hstd & _ & ->).
  rewrite Hfile in Hf. injection Hf as <-.
  cbn [final_df] in Hc. rewrite merge_summary_by_customer in Hc.
  apply in_map_iff in Hc. destruct Hc as (cr & <- & Hcr).
  unfold drop_sentinel in Hcr. apply filter_In in Hcr. destruct Hcr as [Hcr Hne].
  cbn [cs_customer_code cs_balance cs_last_invoice_date summary_row].
  split.
  - intro Heq. rewrite Heq in Hne. discriminate Hne.
  - destruct (@standardize_credit_codes_In _ _ cr Hstd Hcr)
      as (r & Hr & Hcode & Hbal & Hdate).
    unfold load_credit in Hr. apply drop_duplicates_last_In in Hr.
    apply in_map_iff in Hr. destruct Hr as (raw & <- & Hraw).
    exists raw. split; [exact Hraw|]. split; [exact Hcode|].
    split; [exact Hdate|].
    rewrite Hbal. cbn [invert_balance cr_balance]. split.
    + intros ->. reflexivity.
    + intros b -> Hb. cbn [option_map]. rewrite mul_as_minus_one by exact Hb.
      reflexivity.
Qed.

Lemma summary_rows_come_from_credit_file_witness :
  "7" <> "-1"
  /\ exists raw,
       In raw [mkCredit (CodeInt 7) (Some (-1000)) None]
       /\ standardize_credit (cr_customer_code raw) = Some "7"
       /\ None = cr_last_invoice_date raw
       /\ (cr_balance raw = None -> Some 1000 = None)
       /\ (forall b, cr_balance raw = Some b -> - 2 ^ 63 < b < 2 ^ 63 ->
                     Some 1000 = Some (- b)).
Proof.
  refine (@summary_rows_come_from_credit_file insertion_sort_values scenario_sources
            _ _ (mkSummary "7" (Some 1000) None 800 3 (Some 86400) 1 "R1" "B1" "Co" 9)
            eq_refl eq_refl _).
  left. reflexivity.
Defined.

(** X13. Over cleaned rows within the domain of the model,
    [load_clean_and_merge_data] returns a table exactly when the credit file
    and every sales file are read (there being at least one sales file),
    every credit code can be standardized, and some identity of the credit
    roster is also the identity of a sales line. *)
Theorem load_returns_a_table_iff {S : SortValues} (src : Sources) :
  sources_in_domain src ->
  ((exists out, load_clean_and_merge_data src = Returned out)
   <-> exists rows dfs ids c,
         credit_file src = FileData rows
         /\ read_sales_files (sales_files src) = Some dfs
         /\ dfs <> []
         /\ credit_identities rows = Some ids
         /\ In c ids
         /\ In c (sales_identities dfs)).
Proof.
  intros _. unfold load_clean_and_merge_data. split.
  - intros (out & H).
    destruct (reconcile src) as [st| |] eqn:E; try discriminate.
    destruct (reconcile_returned src E)
      as (rows & df & dfs & std & Hf & Hs & Hstd & Hm & _).
    apply immediate_matches_positive in Hm. destruct Hm as (c & Hc & Hsales).
    exists rows, (df :: dfs), (map (@cr_customer_code string) (drop_sentinel std)), c.
    split; [exact Hf|]. split; [exact Hs|]. split; [discriminate|].
    split; [unfold credit_identities; rewrite Hstd; reflexivity|].
    split; [exact Hc|].
    unfold sales_identities. rewrite map_map in Hsales. exact Hsales.
  - intros (rows & dfs & ids & c & Hf & Hs & Hne & Hids & Hc & Hsales).
    unfold reconcile. rewrite Hf, Hs. cbn [bind].
    destruct dfs as [|df dfs]; [congruence|]. cbn [bind].
    unfold credit_identities in Hids.
    destruct (standardize_credit_codes (load_credit rows)) as [std|]; [|discriminate].
    cbn [bind]. injection Hids as <-.
    assert (immediate_matches (drop_sentinel std)
              (map standardize_sales_line (List.concat (df :: dfs))) <> 0%nat) as Hm.
    { apply immediate_matches_positive. exists c. split; [exact Hc|].
      rewrite map_map. exact Hsales. }
    apply Nat.eqb_neq in Hm. rewrite Hm. cbn [bind]. eauto.
Qed.

Lemma load_returns_a_table_iff_witness :
  sources_in_domain scenario_sources
  /\ ((exists out, load_clean_and_merge_data scenario_sources = Returned out)
      <-> exists rows dfs ids c,
            credit_file scenario_sources = FileData rows
            /\ read_sales_files (sales_files scenario_sources) = Some dfs
            /\ dfs <> []
            /\ credit_identities rows = Some ids
            /\ In c ids
            /\ In c (sales_identities dfs)).
Proof.
  assert (sources_in_domain scenario_sources) as H.
  { split.
    - intros rows [= <-]. repeat constructor.
    - intros rows [[= <-]|[]]. repeat constructor. }
  split; [exact H|].
  exact (@load_returns_a_table_iff insertion_sort_values scenario_sources H).
Defined.

Lemma standardize_credit_none (c : RawCode) :
  code_in_domain c -> (standardize_credit c = None <-> unconvertible c).
Proof.
  destruct c as [|z|z|z|s]; cbn [standardize_credit unconvertible code_in_domain];
    intro Hd.
  - split; [discriminate | contradiction].
  - unfold to_int64. destruct (in_int64 z); cbn; split; congruence.
  - split; [discriminate | contradiction].
  - rewrite to_int64_some by (apply in_int64_iff; lia).
    split; [discriminate | contradiction].
  - destruct (py_int_of_str s) as [z|]; cbn [and_then option_map].
    + unfold to_int64. destruct (in_int64 z) eqn:E; cbn.
      * split; [discriminate|]. intro H. specialize (H z eq_refl). congruence.
      * split; [|reflexivity]. intros _ z' [= <-]. exact E.
    + split; [|reflexivity]. intros _ z. discriminate.
Qed.

(** X14. The exception that escapes [load_clean_and_merge_data] over cleaned
    rows within the domain of the model: with the credit file and the sales
    files read, it raises exactly when a code of the deduplicated credit
    roster is a string that is not the literal of an integer of the [int64]
    range, or an integer outside that range held in a column of mixed
    content.  The conversion [astype(int)] of STEP 3B is not inside a
    [try]. *)
Theorem load_raises_iff {S : SortValues} (src : Sources) :
  sources_in_domain src ->
  (load_clean_and_merge_data src = Raised
   <-> exists rows dfs r,
         credit_file src = FileData rows
         /\ read_sales_files (sales_files src) = Some dfs
         /\ dfs <> []
         /\ In r (load_credit rows)
         /\ unconvertible (cr_customer_code r)).
Proof.
  intros [Hdom _].
  assert (forall rows r, credit_file src = FileData rows -> In r (load_credit rows) ->
                         code_in_domain (cr_customer_code r)) as Hcodes.
  { intros rows r Hf Hr. specialize (Hdom rows Hf).
    unfold load_credit in Hr. apply drop_duplicates_last_In in Hr.
    apply in_map_iff in Hr. destruct Hr as (raw & <- & Hraw).
    rewrite Forall_forall in Hdom. exact (proj1 (Hdom raw Hraw)). }
  unfold load_clean_and_merge_data, reconcile. split.
  - intro H.
    destruct (credit_file src) as [| |rows] eqn:Ef; try discriminate.
    cbn [bind] in H.
    destruct (read_sales_files (sales_files src)) as [[|df dfs]|]; try discriminate.
    cbn [bind] in H.
    destruct (standardize_credit_codes (load_credit rows)) as [std|] eqn:E.
    + cbn [bind] in H. destruct (immediate_matches _ _ =? 0)%nat; discriminate.
    + apply standardize_credit_codes_none in E. destruct E as (r & Hr & Hn).
      exists rows, (df :: dfs), r.
      split; [reflexivity|]. split; [reflexivity|]. split; [discriminate|].
      split; [exact Hr|].
      apply standardize_credit_none; [exact (Hcodes rows r eq_refl Hr) | exact Hn].
  - intros (rows & dfs & r & Hf & Hs & Hne & Hr & Hc).
    pose proof (Hcodes rows r Hf Hr) as Hd.
    rewrite Hf, Hs. cbn [bind]. destruct dfs as [|df dfs]; [congruence|].
    cbn [bind].
    assert (standardize_credit_codes (load_credit rows) = None) as ->.
    { apply standardize_credit_codes_none. exists r. split; [exact Hr|].
      apply standardize_credit_none; assumption. }
    reflexivity.
Qed.

Lemma load_raises_iff_witness :
  sources_in_domain sources_with_bad_code
  /\ (load_clean_and_merge_data sources_with_bad_code = Raised
      <-> exists rows dfs r,
            credit_file sources_with_bad_code = FileData rows
            /\ read_sales_files (sales_files sources_with_bad_code) = Some dfs
            /\ dfs <> []
            /\ In r (load_credit rows)
            /\ unconvertible (cr_customer_code r)).
Proof.
  assert (sources_in_domain sources_with_bad_code) as H.
  { split.
    - intros rows [= <-]. repeat constructor.
    - intros rows [[= <-]|[]]. repeat constructor. }
  split; [exact H|].
  exact (@load_raises_iff insertion_sort_values sources_with_bad_code H).
Defined.

Example bad_credit_code_raises :
  load_clean_and_merge_data sources_with_bad_code = Raised
  /\ update_database sources_with_bad_code (Some []) = (Raised, Some []).
Proof. split; reflexivity. Qed.

(* ================================================================== *)
(** * Part IV. Further properties of the scoring *)
(* ================================================================== *)

(** ** The scored frame *)

Lemma score_customers_some (cs : list Customer) (rows : list Scored) :
  score_customers cs = Some rows -> (5 <= nunique (recency_values cs))%nat.
Proof.
  intro H. destruct (Nat.lt_ge_cases (nunique (recency_values cs)) 5) as [Hlt|Hge];
    [|exact Hge].
  unfold score_customers in H.
  rewrite (create_score_reversed_raises _ Hlt) in H. discriminate.
Qed.

Lemma score_customers_length (cs : list Customer) (rows : list Scored) :
  score_customers cs = Some rows -> List.length rows = List.length cs.
Proof.
  intro H.
  destruct (@score_customers_in_range cs (@score_customers_some cs rows H))
    as (rows' & H' & Hmap & _).
  rewrite H in H'. injection H' as <-.
  rewrite <- (length_map customer rows), Hmap. reflexivity.
Qed.

(** X15. When the scored population has at least 5 distinct recency values,
    [get_customer_scores] returns one record per row of the scoring query, in
    descending order of composite score; the composite score of every record
    lies between 20 and 100 and its RFM score between 3 and 15. *)
Theorem scores_are_bounded_and_ordered {S : SortValues} {L : SortValuesLaws S}
    {P : ArbitraryRow} (now : Time) (sales_data : list LedgerRow) :
  (5 <= nunique (recency_values (map clean_row (scoring_query now sales_data))))%nat ->
  exists records,
    get_customer_scores now (Some sales_data) = Returned records
    /\ List.length records = List.length (scoring_query now sales_data)
    /\ Forall (fun r => 20 <= Total_Score (scored r) <= 100
                        /\ 3 <= RFM_Score (scored r) <= 15) records
    /\ StronglySorted
         (fun a b => Total_Score (scored b) <= Total_Score (scored a)) records.
Proof.
  intro Hrec. unfold get_customer_scores.
  destruct (scoring_query now sales_data) as [|q df] eqn:E.
  - exists []. repeat split; constructor.
  - destruct (@score_customers_in_range (map clean_row (q :: df)))
      as (rows & Hrows & Hmap & Hall); [exact Hrec|].
    rewrite Hrows. eexists. split; [reflexivity|].
    split; [|split].
    + rewrite <- (Permutation_length (sort_values_perm _ (map format_row rows))).
      rewrite length_map.
      rewrite (@score_customers_length _ _ Hrows).
      apply length_map.
    + eapply Permutation_Forall; [apply sort_values_perm|].
      apply Forall_map. eapply Forall_impl; [|exact Hall].
      intros s Hs. unfold sub_scores_in_range in Hs.
      unfold format_row, Total_Score, RFM_Score. cbn [scored]. lia.
    + assert (StronglySorted
                (fun a b => (Total_Score (scored b) <=? Total_Score (scored a)) = true)
                (sort_values
                   (fun a b => Total_Score (scored b) <=? Total_Score (scored a))
                   (map format_row rows))) as Hs.
      { apply sort_values_sorted.
        - intros a b. rewrite !Z.leb_le. lia.
        - intros a b c. rewrite !Z.leb_le. lia. }
      revert Hs. generalize (sort_values
                   (fun a b => Total_Score (scored b) <=? Total_Score (scored a))
                   (map format_row rows)).
      induction 1 as [|x l _ IH Hx]; constructor; [exact IH|].
      eapply Forall_impl; [|exact Hx]. intros y Hy. apply Z.leb_le. exact Hy.
Qed.

Lemma scores_are_bounded_and_ordered_witness :
  (5 <= nunique (recency_values
                   (map clean_row (scoring_query 864000%Z five_customer_ledger))))%nat
  /\ exists records,
       get_customer_scores 864000 (Some five_customer_ledger) = Returned records
       /\ List.length records = List.length (scoring_query 864000 five_customer_ledger)
       /\ Forall (fun r => 20 <= Total_Score (scored r) <= 100
                           /\ 3 <= RFM_Score (scored r) <= 15) records
       /\ StronglySorted
            (fun a b => Total_Score (scored b) <= Total_Score (scored a)) records.
Proof.
  assert (5 <= nunique (recency_values
                          (map clean_row (scoring_query 864000%Z five_customer_ledger))))%nat
    as H by (vm_compute; lia).
  split; [exact H|].
  exact (@scores_are_bounded_and_ordered insertion_sort_values insertion_sort_laws
           first_row 864000 five_customer_ledger H).
Defined.

Example five_customers_scores :
  match get_customer_scores 864000 (Some five_customer_ledger) with
  | Returned records =>
      map (fun r => (c_customer_code (customer (scored r)),
                     (R_Score (scored r), F_Score (scored r), M_Score (scored r),
                      C_Score (scored r), P_Score (scored r)),
                     Total_Score (scored r))) records
  | _ => []
  end
  = [("11", (4, 2, 5, 5, 1), 75); ("7", (5, 2, 4, 1, 5), 69);
     ("10", (2, 1, 3, 5, 5), 64); ("9", (1, 1, 2, 5, 4), 51);
     ("8", (3, 1, 1, 5, 1), 44)].
Proof. vm_compute. reflexivity. Qed.

(** ** Segment, risk flag and priority *)

Lemma segment_cases (total c_score p_score bal rfm : Z) :
  (c_score = 1 /\ 50000 < bal
   /\ assign_segment total c_score p_score bal rfm = "🚨 High Risk")
  \/ (~ (c_score = 1 /\ 50000 < bal)
      /\ In (assign_segment total c_score p_score bal rfm)
            ["⚠️ Credit Risk"; "💸 Review Pricing"; "👑 Champions"; "💎 Loyal";
             "📈 Potential"; "📉 At Risk"; "💤 Dormant"]).
Proof.
  unfold assign_segment.
  destruct ((c_score =? 1) && (50000 <? bal)) eqn:E1.
  - left. apply andb_true_iff in E1. rewrite Z.eqb_eq, Z.ltb_lt in E1. tauto.
  - right. split.
    + intros [H1 H2]. apply andb_false_iff in E1.
      rewrite Z.eqb_neq, Z.ltb_ge in E1. lia.
    + repeat match goal with
             | |- context [if ?b then _ else _] => destruct b
             end; cbn; tauto.
Qed.

Lemma risk_flag_cases (s : Scored) :
  assign_risk_flag s
  = match (C_Score s <=? 2) && (0 <? balance (customer s)),
          P_Score s <=? 2, R_Score s <=? 2 with
    | true, true, true => "CREDIT | PROFIT | INACTIVE"
    | true, true, false => "CREDIT | PROFIT"
    | true, false, true => "CREDIT | INACTIVE"
    | true, false, false => "CREDIT"
    | false, true, true => "PROFIT | INACTIVE"
    | false, true, false => "PROFIT"
    | false, false, true => "INACTIVE"
    | false, false, false => "OK"
    end.
Proof.
  unfold assign_risk_flag.
  destruct ((C_Score s <=? 2) && (0 <? balance (customer s))),
    (P_Score s <=? 2), (R_Score s <=? 2); reflexivity.
Qed.

Lemma assign_priority_unfold (s : Scored) :
  assign_priority s = priority_of (segment_of_row s) (assign_risk_flag s).
Proof. reflexivity. Qed.

Ltac evaluate_priority :=
  repeat match goal with
         | |- context [priority_of ?a ?b] =>
             let v := eval vm_compute in (priority_of a b) in
             change (priority_of a b) with v
         end.

Ltac settle_case :=
  evaluate_priority;
  repeat split; intros;
  try congruence; try lia;
  intuition (try congruence; try lia).

(** X16. The action priority lies between 1 and 5.  It is 1 exactly for the
    customers with a credit sub-score of at most 2 and a positive balance
    (those flagged CREDIT, which include every "High Risk" customer); it is 5
    exactly for the "Dormant" customers without a CREDIT and without an
    INACTIVE flag, a PROFIT flag making no difference; and the risk flag is
    ["OK"] exactly when none of the three flags applies. *)
Theorem priority_and_risk_flag (s : Scored) :
  1 <= assign_priority s <= 5
  /\ (assign_priority s = 1 <-> C_Score s <= 2 /\ 0 < balance (customer s))
  /\ (assign_priority s = 5
      <-> segment_of_row s = "💤 Dormant"
          /\ ~ (C_Score s <= 2 /\ 0 < balance (customer s))
          /\ 2 < R_Score s)
  /\ (assign_risk_flag s = "OK"
      <-> ~ (C_Score s <= 2 /\ 0 < balance (customer s))
          /\ 2 < P_Score s /\ 2 < R_Score s).
Proof.
  rewrite assign_priority_unfold, (risk_flag_cases s). unfold segment_of_row.
  destruct (segment_cases (Total_Score s) (C_Score s) (P_Score s)
                          (balance (customer s)) (RFM_Score s))
    as [(Hc & Hb & ->)|(Hno & Hseg)].
  - replace ((C_Score s <=? 2) && (0 <? balance (customer s))) with true
      by (symmetry; apply andb_true_iff; rewrite Z.leb_le, Z.ltb_lt; lia).
    destruct (P_Score s <=? 2) eqn:Ep, (R_Score s <=? 2) eqn:Er;
      rewrite ?Z.leb_le, ?Z.leb_gt in Ep, Er; settle_case.
  - destruct ((C_Score s <=? 2) && (0 <? balance (customer s))) eqn:Ec;
      [apply andb_true_iff in Ec; rewrite Z.leb_le, Z.ltb_lt in Ec
      |apply andb_false_iff in Ec; rewrite Z.leb_gt, Z.ltb_ge in Ec];
      destruct (P_Score s <=? 2) eqn:Ep, (R_Score s <=? 2) eqn:Er;
      rewrite ?Z.leb_le, ?Z.leb_gt in Ep, Er;
      cbn [In] in Hseg;
      repeat (destruct Hseg as [<-|Hseg]); try destruct Hseg; settle_case.
Qed.

(** X17. A customer whose five sub-scores are in range and whose credit
    sub-score is 1 has a composite score of at most 84 and is therefore never
    in the "Champions" segment, whatever the balance. *)
Theorem worst_credit_is_never_champion (s : Scored) :
  sub_scores_in_range s ->
  C_Score s = 1 ->
  Total_Score s <= 84 /\ segment_of_row s <> "👑 Champions".
Proof.
  intros Hrange Hc. unfold sub_scores_in_range in Hrange.
  assert (Total_Score s <= 84) as Ht by (unfold Total_Score; lia).
  split; [exact Ht|].
  unfold segment_of_row, assign_segment.
  replace (85 <=? Total_Score s) with false by (symmetry; apply Z.leb_gt; lia).
  repeat match goal with
         | |- context [if ?b then _ else _] => destruct b
         end; discriminate.
Qed.

Lemma worst_credit_is_never_champion_witness :
  Total_Score (mkScored (mkCustomer None "7" 1 9 90000 9000 100 7) 5 5 5 1 5) <= 84
  /\ segment_of_row (mkScored (mkCustomer None "7" 1 9 90000 9000 100 7) 5 5 5 1 5)
     <> "👑 Champions".
Proof.
  apply (@worst_credit_is_never_champion
           (mkScored (mkCustomer None "7" 1 9 90000 9000 100 7) 5 5 5 1 5)).
  - unfold sub_scores_in_range. cbn. lia.
  - reflexivity.
Defined.

(** ** The threshold ladders *)

Lemma np_le_trans (a b c : npfloat) :
  np_le a b = true -> np_le b c = true -> np_le a c = true.
Proof.
  destruct a as [x| | |], b as [y| | |], c as [z| | |]; cbn;
    try discriminate; try reflexivity.
  rewrite !Qle_bool_iff. apply Qle_trans.
Qed.

(** X18. The profit sub-score never decreases when the margin percentage
    grows, and for customers with a positive balance the credit sub-score
    never increases when the DSO grows. *)
Theorem sub_scores_are_monotone :
  (forall m1 m2, np_le m1 m2 = true ->
                 calculate_profit_score m1 <= calculate_profit_score m2)
  /\ (forall c1 c2, 0 < balance c1 -> 0 < balance c2 ->
                    np_le (dso c1) (dso c2) = true ->
                    calculate_credit_score c2 <= calculate_credit_score c1).
Proof.
  split.
  - intros m1 m2 H. unfold calculate_profit_score.
    assert (forall t, np_le t m1 = true -> np_le t m2 = true) as Hup
        by (intros t Ht; exact (np_le_trans _ _ _ Ht H)).
    destruct (np_le (np_of_Z MARGIN_EXCELLENT) m1) eqn:E1;
      [rewrite (Hup _ E1); lia|].
    destruct (np_le (np_of_Z MARGIN_GOOD) m1) eqn:E2;
      [rewrite (Hup _ E2); destruct (np_le (np_of_Z MARGIN_EXCELLENT) m2); lia|].
    destruct (np_le (np_of_Z MARGIN_FAIR) m1) eqn:E3;
      [rewrite (Hup _ E3);
       destruct (np_le (np_of_Z MARGIN_EXCELLENT) m2),
         (np_le (np_of_Z MARGIN_GOOD) m2); lia|].
    destruct (np_le (np_of_Z MARGIN_LOW) m1) eqn:E4;
      [rewrite (Hup _ E4)|];
      destruct (np_le (np_of_Z MARGIN_EXCELLENT) m2),
        (np_le (np_of_Z MARGIN_GOOD) m2), (np_le (np_of_Z MARGIN_FAIR) m2);
      try lia; destruct (np_le (np_of_Z MARGIN_LOW) m2); lia.
  - intros c1 c2 Hb1 Hb2 H. unfold calculate_credit_score.
    replace (balance c1 <=? 0) with false by (symmetry; apply Z.leb_gt; lia).
    replace (balance c2 <=? 0) with false by (symmetry; apply Z.leb_gt; lia).
    assert (forall t, np_le (dso c2) t = true -> np_le (dso c1) t = true) as Hdown
        by (intros t Ht; exact (np_le_trans _ _ _ H Ht)).
    destruct (np_le (dso c2) (np_of_Z DSO_EXCELLENT)) eqn:E1;
      [rewrite (Hdown _ E1); lia|].
    destruct (np_le (dso c2) (np_of_Z DSO_GOOD)) eqn:E2;
      [rewrite (Hdown _ E2); destruct (np_le (dso c1) (np_of_Z DSO_EXCELLENT)); lia|].
    destruct (np_le (dso c2) (np_of_Z DSO_FAIR)) eqn:E3;
      [rewrite (Hdown _ E3);
       destruct (np_le (dso c1) (np_of_Z DSO_EXCELLENT)),
         (np_le (dso c1) (np_of_Z DSO_GOOD)); lia|].
    destruct (np_le (dso c2) (np_of_Z DSO_POOR)) eqn:E4;
      [rewrite (Hdown _ E4)|];
      destruct (np_le (dso c1) (np_of_Z DSO_EXCELLENT)),
        (np_le (dso c1) (np_of_Z DSO_GOOD)), (np_le (dso c1) (np_of_Z DSO_FAIR));
      try lia; destruct (np_le (dso c1) (np_of_Z DSO_POOR)); lia.
Qed.

Lemma Qle_bool_false_lt (a b : Q) : Qle_bool a b = false -> (b < a)%Q.
Proof.
  intro H. apply Qnot_le_lt. intro Hle. apply Qle_bool_iff in Hle. congruence.
Qed.

(** The DSO of any row is a finite number between 0 and 999. *)
Lemma dso_finite (c : Customer) :
  exists d, dso c = Finite d /\ (0 <= d <= 999)%Q.
Proof.
  unfold dso.
  match goal with |- context [np_fillna 0 ?x] => generalize x end.
  intros [q| | |]; cbn [np_fillna].
  - destruct (@np_clip_finite 0 999 q) as (d & H & Hr & _); [discriminate|]. eauto.
  - exists 999%Q. split; [reflexivity | split; discriminate].
  - exists 0%Q. split; [reflexivity | split; discriminate].
  - exists 0%Q. split; [reflexivity | split; discriminate].
Qed.

(** X19. A credit sub-score of 2 or less is only given to a customer with a
    positive balance and a DSO above 35 days, and the score 1 exactly to those
    with a positive balance and a DSO above 60 days; the "High Risk" segment
    thus always means a DSO above 60. *)
Theorem low_credit_score_means_slow_payer (c : Customer) :
  exists d,
    dso c = Finite d
    /\ (0 <= d <= 999)%Q
    /\ (calculate_credit_score c <= 2 -> 0 < balance c /\ (35 < d)%Q)
    /\ (calculate_credit_score c = 1 <-> 0 < balance c /\ (60 < d)%Q).
Proof.
  destruct (dso_finite c) as (d & Hd & Hrange).
  exists d. split; [exact Hd|]. split; [exact Hrange|].
  unfold calculate_credit_score. rewrite Hd. unfold np_of_Z, np_le.
  unfold DSO_EXCELLENT, DSO_GOOD, DSO_FAIR, DSO_POOR.
  destruct (balance c <=? 0) eqn:Eb;
    [apply Z.leb_le in Eb | apply Z.leb_gt in Eb].
  - split; [lia|]. split; [discriminate | lia].
  - destruct (Qle_bool d (inject_Z 14)) eqn:E1;
      [apply Qle_bool_iff in E1 | apply Qle_bool_false_lt in E1];
      [split; [lia|]; split; [discriminate|]; intros [_ H];
       change (inject_Z 14) with 14%Q in E1; lra|].
    destruct (Qle_bool d (inject_Z 21)) eqn:E2;
      [apply Qle_bool_iff in E2
      |apply Qle_bool_false_lt in E2];
      [split; [lia|]; split; [discriminate|]; intros [_ H];
       change (inject_Z 21) with 21%Q in E2; lra|].
    destruct (Qle_bool d (inject_Z 35)) eqn:E3;
      [apply Qle_bool_iff in E3
      |apply Qle_bool_false_lt in E3];
      [split; [lia|]; split; [discriminate|]; intros [_ H];
       change (inject_Z 35) with 35%Q in E3; lra|].
    change (inject_Z 35) with 35%Q in E3.
    destruct (Qle_bool d (inject_Z 60)) eqn:E4;
      [apply Qle_bool_iff in E4
      |apply Qle_bool_false_lt in E4];
      change (inject_Z 60) with 60%Q in E4.
    + split; [intros _; split; [lia | exact E3]|].
      split; [discriminate | intros [_ H]; lra].
    + split; [intros _; split; [lia | exact E3]|].
      split; [intros _; split; [lia | exact E4] | reflexivity].
Qed.

(** ** Rows of the scoring query *)

Lemma select_group_row {P : ArbitraryRow} (now : Time)
    (g : (string * option string) * list (InvoiceLevel * ProductAggregate))
    (q : QueryRow) :
  select_group now g = Some q ->
  (q_customer_code q, q_customer_name q) = fst g
  /\ (exists total, q_monetary_value q = Some total /\ 0 < total)
  /\ (exists profit, q_total_profit q = Some profit)
  /\ (exists frequency, q_frequency q = Some frequency /\ 0 <= frequency)
  /\ (exists bal, q_balance q = Some bal).
Proof.
  unfold select_group. destruct (snd g) as [|first others]; [discriminate|].
  destruct (pa_total_amount _) as [total|]; [|discriminate].
  destruct (0 <? total) eqn:E; [|discriminate].
  apply Z.ltb_lt in E. intros [= <-]. cbn.
  split; [destruct (fst g); reflexivity|].
  split; [eauto|]. split.
  - unfold sql_sum. cbn. eauto.
  - split; [|eauto]. eexists. split; [reflexivity|].
    unfold nunique_strings. lia.
Qed.

Lemma selected_rows_distinct {G Q K : Type} (f : G -> option Q) (gkey : G -> K)
    (qkey : Q -> K) (groups : list G) :
  (forall g q, f g = Some q -> qkey q = gkey g) ->
  NoDup (map gkey groups) ->
  NoDup (map qkey
             (flat_map (fun g => match f g with Some r => [r] | None => [] end) groups)).
Proof.
  intros Hkey. induction groups as [|g groups IH]; cbn; intro Hnd; [constructor|].
  inversion Hnd as [|? ? Hnotin Hnd']; subst.
  destruct (f g) as [q|] eqn:E; cbn; [|exact (IH Hnd')].
  constructor; [|exact (IH Hnd')].
  rewrite (Hkey g q E). intro Hin. apply Hnotin.
  apply in_map_iff in Hin. destruct Hin as (q' & Hq' & Hin).
  apply in_flat_map in Hin. destruct Hin as (g' & Hg' & Hsel).
  destruct (f g') as [q''|] eqn:E'; [|destruct Hsel].
  destruct Hsel as [->|[]]. rewrite (Hkey g' q' E') in Hq'.
  rewrite <- Hq'. apply in_map. exact Hg'.
Qed.

Lemma code_name_eqb_refl (k : string * option string) : code_name_eqb k k = true.
Proof.
  unfold code_name_eqb. rewrite String.eqb_refl.
  destruct (snd k); cbn; [apply String.eqb_refl | reflexivity].
Qed.

(** X20. The scoring query returns at most one row per customer code and
    name, and only customers with a positive total amount: every row has a
    monetary value above 0, and a profit, a balance and an invoice count that
    are not NULL. *)
Theorem scored_customers_are_distinct_and_selling {P : ArbitraryRow} (now : Time)
    (sales_data : list LedgerRow) :
  NoDup (map (fun q => (q_customer_code q, q_customer_name q))
             (scoring_query now sales_data))
  /\ Forall (fun q => (exists total, q_monetary_value q = Some total /\ 0 < total)
                      /\ (exists profit, q_total_profit q = Some profit)
                      /\ (exists frequency, q_frequency q = Some frequency
                                            /\ 0 <= frequency)
                      /\ (exists bal, q_balance q = Some bal))
            (scoring_query now sales_data).
Proof.
  unfold scoring_query. split.
  - apply (selected_rows_distinct (select_group now) fst).
    + intros g q H. apply select_group_row in H. tauto.
    + rewrite group_rows_keys. apply drop_duplicates_from_NoDup.
      apply code_name_eqb_refl.
  - apply Forall_forall. intros q Hq.
    apply in_flat_map in Hq. destruct Hq as (g & _ & Hq).
    destruct (select_group now g) as [q'|] eqn:E; [|destruct Hq].
    destruct Hq as [<-|[]]. apply select_group_row in E. tauto.
Qed.

(** ** Scores of a population with few distinct values *)

Lemma cut_on_ranks (series : list Q) (nbins : nat) (labels : list Z) :
  series <> [] ->
  (1 <= nbins)%nat -> List.length labels = nbins ->
  has_duplicates labels = false ->
  exists scores,
    and_then (pd_cut (rank_first series) nbins labels) astype_int = Some scores
    /\ List.length scores = List.length series
    /\ Forall (fun z => In z labels) scores.
Proof.
  intros Hne Hk Hlen Hdup.
  pose proof (rank_first_length series) as Hrl.
  destruct (rank_first series) as [|r0 rs] eqn:Hrank;
    [destruct series; [congruence | discriminate]|].
  destruct (@pd_cut_labels r0 rs nbins labels Hk Hlen Hdup)
    as (res & -> & Hres & Hall).
  destruct (astype_int_labelled Hall) as (zs & Hzs & Hlz & Hin).
  exists zs. cbn [and_then]. split; [exact Hzs|].
  split; [congruence | exact Hin].
Qed.

(** X21. When a metric has [k] distinct values in the population, [k] being
    less than 5, the unreversed [create_score] uses [k] labels only: the
    scores lie between 1 and [k], so that all customers score 1 when they
    share one value.  The reversed call, the one made for recency, raises on
    such a series. *)
Theorem few_distinct_values_use_few_labels (series : list Q) :
  series <> [] ->
  (nunique series < 5)%nat ->
  create_score series true = None
  /\ exists scores,
       create_score series false = Some scores
       /\ List.length scores = List.length series
       /\ Forall (fun z => 1 <= z <= Z.of_nat (nunique series)) scores.
Proof.
  intros Hne Hk. split; [apply create_score_reversed_raises; exact Hk|].
  unfold create_score.
  destruct series as [|x0 xs]; [congruence|].
  pose proof (nunique_positive x0 xs) as Hpos.
  set (k := nunique (x0 :: xs)) in *.
  replace (k <? 5)%nat with true by (symmetry; apply Nat.ltb_lt; exact Hk).
  assert (k = 1 \/ k = 2 \/ k = 3 \/ k = 4)%nat as Hcases by lia.
  destruct Hcases as [-> | [-> | [-> | ->]]];
    match goal with
    | |- context [pd_cut _ ?n ?labels] =>
        destruct (@cut_on_ranks (x0 :: xs) n labels Hne)
          as (scores & -> & Hlen & Hall);
        [cbn; lia | reflexivity | reflexivity |]
    end;
    (exists scores; split; [reflexivity|]; split; [exact Hlen|]);
    (eapply Forall_impl; [|exact Hall]);
    intros z Hz; vm_compute in Hz; intuition lia.
Qed.

Lemma few_distinct_values_use_few_labels_witness :
  create_score [4%Q; 4%Q; 4%Q] true = None
  /\ exists scores,
       create_score [4%Q; 4%Q; 4%Q] false = Some scores
       /\ List.length scores = List.length [4%Q; 4%Q; 4%Q]
       /\ Forall (fun z => 1 <= z <= Z.of_nat (nunique [4%Q; 4%Q; 4%Q])) scores.
Proof.
  apply (@few_distinct_values_use_few_labels [4%Q; 4%Q; 4%Q]).
  - discriminate.
  - vm_compute. lia.
Defined.

(** ** The analysis functions *)

Lemma balance_sums (f : ScoreRecord -> Z) (c : ScoreRecord -> bool)
    (scores : list ScoreRecord) :
  sum_Z (map f scores)
  = sum_Z (map f (filter (fun r => 0 <? f r) scores))
    + sum_Z (map f (filter (fun r => f r <? 0) scores))
  /\ 0 <= sum_Z (map f (filter (fun r => 0 <? f r) scores))
  /\ sum_Z (map f (filter (fun r => f r <? 0) scores)) <= 0
  /\ 0 <= sum_Z (map f (filter (fun r => c r && (0 <? f r)) scores))
     <= sum_Z (map f (filter (fun r => 0 <? f r) scores)).
Proof.
  unfold sum_Z. induction scores as [|r scores IH]; cbn [filter map fold_right].
  - lia.
  - destruct (0 <? f r) eqn:Epos; [apply Z.ltb_lt in Epos | apply Z.ltb_ge in Epos].
    + replace (f r <? 0) with false by (symmetry; apply Z.ltb_ge; lia).
      destruct (c r); cbn [andb filter map fold_right]; lia.
    + rewrite andb_false_r.
      destruct (f r <? 0) eqn:Eneg;
        [apply Z.ltb_lt in Eneg | apply Z.ltb_ge in Eneg];
        cbn [map fold_right]; lia.
Qed.

Lemma count_rows_filter {A} (p : A -> bool) (l : list A) :
  0 <= count_rows (filter p l) <= count_rows l.
Proof. unfold count_rows. pose proof (filter_length_le p l). lia. Qed.

Lemma count_rows_disjoint {A} (p q : A -> bool) (l : list A) :
  (forall a, p a = true -> q a = true -> False) ->
  count_rows (filter p l) + count_rows (filter q l) <= count_rows l.
Proof.
  intro Hdis. unfold count_rows. induction l as [|a l IH]; cbn; [lia|].
  destruct (p a) eqn:Ep, (q a) eqn:Eq; cbn [List.length]; try lia.
  exfalso. exact (Hdis a Ep Eq).
Qed.

Lemma magnitude_of_filter {A} (f : A -> Z) (p : A -> bool) (l : list A) :
  magnitude (map f (filter p l)) <= magnitude (map f l).
Proof.
  induction l as [|a l IH]; cbn [filter map]; [lia|].
  change (f a :: map f l) with ([f a] ++ map f l). rewrite magnitude_app.
  pose proof (magnitude_nonneg [f a]).
  destruct (p a); [|lia].
  cbn [map]. change (f a :: map f (filter p l)) with ([f a] ++ map f (filter p l)).
  rewrite magnitude_app. lia.
Qed.

Lemma sum_of_selection_exact {A} (int64 : bool) (f : A -> Z) (p : A -> bool)
    (l : list A) :
  exactly_summable (map f l) ->
  sum_as int64 (map f (filter p l)) = sum_Z (map f (filter p l)).
Proof.
  intro H. apply sum_as_exact. unfold exactly_summable in *.
  pose proof (magnitude_of_filter f p l). lia.
Qed.

Lemma abs_as_exact (int64 : bool) (l : list Z) :
  exactly_summable l -> abs_as int64 (sum_Z l) = Z.abs (sum_Z l).
Proof.
  intro H. unfold abs_as. destruct int64; [|reflexivity].
  apply wrap64_small. apply in_int64_iff. unfold exactly_summable in H.
  pose proof (sum_within_magnitude l). unfold sum_Z. lia.
Qed.

(** X22. When the balances of the scored customers are within the range in
    which the sums of the column are exact (absolute values adding up to at
    most 2^53), the figures of the credit summary are consistent: the net
    balance is the amount owed by customers minus the amount owed to
    customers, both of which are non-negative; the high-risk amount is part
    of the amount owed by customers; customers owing and customers owed to
    are counted apart and, like the high-risk customers, are among the
    customers counted in total; and the empty dictionary is returned only for
    an empty frame. *)
Theorem credit_summary_is_consistent (dt : ScoreDtypes) (scores : list ScoreRecord) :
  exactly_summable (map rec_balance scores) ->
  (credit_summary_of dt scores = None <-> scores = [])
  /\ forall cs,
       credit_summary_of dt scores = Some cs ->
       net_balance cs = customers_owing_amount cs - customers_we_owe_amount cs
       /\ 0 <= customers_owing_amount cs
       /\ 0 <= customers_we_owe_amount cs
       /\ 0 <= high_risk_amount cs <= customers_owing_amount cs
       /\ customers_owing_count cs + customers_we_owe_count cs <= total_customers cs
       /\ 0 <= high_risk_count cs <= total_customers cs
       /\ 1 <= total_customers cs.
Proof.
  intro Hrange. split.
  - destruct scores; cbn; split; congruence.
  - intros cs H. destruct scores as [|r0 rest] eqn:Es; [discriminate|].
    rewrite <- Es in *. clear Es.
    assert (1 <= count_rows scores) as Hpos.
    { unfold count_rows. destruct scores; [|cbn; lia].
      cbn in H. discriminate. }
    assert (forall p, sum_as (balance_int64 dt) (map rec_balance (filter p scores))
                      = sum_Z (map rec_balance (filter p scores))) as Hsel
        by (intro p; apply sum_of_selection_exact; exact Hrange).
    assert (sum_as (balance_int64 dt) (map rec_balance scores)
            = sum_Z (map rec_balance scores)) as Hall
        by (apply sum_as_exact; exact Hrange).
    assert (credit_summary_of dt scores
            = Some (mkCreditSummary
              (count_rows scores)
              (count_rows (filter (fun r => 0 <? rec_balance r) scores))
              (sum_Z (map rec_balance (filter (fun r => 0 <? rec_balance r) scores)))
              (count_rows (filter (fun r => rec_balance r <? 0) scores))
              (Z.abs (sum_Z (map rec_balance
                                 (filter (fun r => rec_balance r <? 0) scores))))
              (sum_Z (map rec_balance scores))
              (if 0 <? count_rows (filter (fun r => 0 <? rec_balance r) scores)
               then np_mean (map out_dso (filter (fun r => 0 <? rec_balance r) scores))
               else Finite 0)
              (count_rows (filter (fun r => C_Score (scored r) <=? 2) scores))
              (sum_Z (map rec_balance
                          (filter (fun r => (C_Score (scored r) <=? 2)
                                            && (0 <? rec_balance r)) scores)))))
      as Heq.
    { unfold credit_summary_of. rewrite !Hsel, Hall.
      rewrite abs_as_exact.
      - destruct scores; [discriminate | reflexivity].
      - unfold exactly_summable in *.
        pose proof (magnitude_of_filter rec_balance (fun r => rec_balance r <? 0)
                      scores). lia. }
    rewrite Heq in H. clear Heq. injection H as <-.
    cbn [net_balance customers_owing_amount customers_we_owe_amount high_risk_amount
         customers_owing_count customers_we_owe_count total_customers high_risk_count].
    pose proof (balance_sums rec_balance (fun r => C_Score (scored r) <=? 2) scores)
      as (Hsplit & Hown & Hneg & Hrisk).
    pose proof (count_rows_filter (fun r => C_Score (scored r) <=? 2) scores).
    pose proof (@count_rows_disjoint _ (fun r => 0 <? rec_balance r)
                  (fun r => rec_balance r <? 0) scores) as Hcount.
    repeat split; try lia.
    apply Hcount. intros a Ha Hb. apply Z.ltb_lt in Ha, Hb. lia.
Qed.

Lemma credit_summary_is_consistent_witness :
  exactly_summable (map rec_balance (map format_row sample_scored))
  /\ (credit_summary_of (mkScoreDtypes true true true) (map format_row sample_scored)
      = None <-> map format_row sample_scored = [])
  /\ forall cs,
       credit_summary_of (mkScoreDtypes true true true) (map format_row sample_scored)
       = Some cs ->
       net_balance cs = customers_owing_amount cs - customers_we_owe_amount cs
       /\ 0 <= customers_owing_amount cs
       /\ 0 <= customers_we_owe_amount cs
       /\ 0 <= high_risk_amount cs <= customers_owing_amount cs
       /\ customers_owing_count cs + customers_we_owe_count cs <= total_customers cs
       /\ 0 <= high_risk_count cs <= total_customers cs
       /\ 1 <= total_customers cs.
Proof.
  assert (exactly_summable (map rec_balance (map format_row sample_scored))) as H
      by (unfold exactly_summable; vm_compute; discriminate).
  split; [exact H|].
  exact (@credit_summary_is_consistent (mkScoreDtypes true true true)
           (map format_row sample_scored) H).
Defined.

(** Balances beyond the exact range: in an [int64] column two balances of
    5 * 10^18 give a negative amount owed by customers. *)
Example large_balances_wrap :
  option_map customers_owing_amount
    (credit_summary_of (mkScoreDtypes true true true)
       (map format_row
            [mkScored (mkCustomer (Some "A") "1" 3 4 9000 700 (5 * 10 ^ 18) 30) 5 4 5 1 4;
             mkScored (mkCustomer (Some "B") "2" 5 3 7000 900 (5 * 10 ^ 18) 14) 5 4 4 1 5]))
  = Some (-8446744073709551616).
Proof. vm_compute. reflexivity. Qed.

Lemma get_customer_scores_formatted {S : SortValues} {L : SortValuesLaws S}
    {P : ArbitraryRow} (now : Time) (db : Database) (records : list ScoreRecord) :
  get_customer_scores now db = Returned records ->
  Forall (fun r => r = format_row (scored r)) records.
Proof.
  unfold get_customer_scores. destruct db as [sales_data|];
    [|intros [= <-]; constructor].
  destruct (scoring_query now sales_data) as [|q df]; [intros [= <-]; constructor|].
  destruct (score_customers _) as [rows|]; [|discriminate].
  intros [= <-].
  eapply Permutation_Forall; [apply sort_values_perm|].
  apply Forall_map. apply Forall_forall. intros s _. reflexivity.
Qed.

Lemma credit_flag_iff (s : Scored) :
  contains "CREDIT" (assign_risk_flag s) = true
  <-> C_Score s <= 2 /\ 0 < balance (customer s).
Proof.
  rewrite (risk_flag_cases s).
  destruct ((C_Score s <=? 2) && (0 <? balance (customer s))) eqn:Ec;
    [apply andb_true_iff in Ec; rewrite Z.leb_le, Z.ltb_lt in Ec
    |apply andb_false_iff in Ec; rewrite Z.leb_gt, Z.ltb_ge in Ec];
    destruct (P_Score s <=? 2), (R_Score s <=? 2);
    (split; [intro H; vm_compute in H; try discriminate H; lia
            |intro H; try reflexivity; lia]).
Qed.

Lemma credit_flag_priority (s : Scored) :
  contains "CREDIT" (assign_risk_flag s) = true -> assign_priority s = 1.
Proof.
  intro H. unfold assign_priority. rewrite H, orb_true_r. reflexivity.
Qed.

Lemma by_priority_then_balance_iff (a b : ScoreRecord) :
  by_priority_then_balance a b = true
  <-> Priority a < Priority b
      \/ (Priority a = Priority b /\ rec_balance b <= rec_balance a).
Proof.
  unfold by_priority_then_balance.
  rewrite orb_true_iff, andb_true_iff, Z.ltb_lt, Z.eqb_eq, Z.leb_le. reflexivity.
Qed.

Lemma firstn_subset {A} (n : nat) (l : list A) (x : A) :
  In x (firstn n l) -> In x l.
Proof.
  revert n. induction l as [|y l IH]; intros n H.
  - rewrite firstn_nil in H. destruct H.
  - destruct n; cbn in H; [destruct H|].
    destruct H as [<-|H]; [left; reflexivity | right; exact (IH n H)].
Qed.

Lemma firstn_sorted {A} (R : A -> A -> Prop) (n : nat) (l : list A) :
  StronglySorted R l -> StronglySorted R (firstn n l).
Proof.
  revert n. induction l as [|x l IH]; intros n Hs.
  - rewrite firstn_nil. constructor.
  - destruct n; cbn; [constructor|].
    inversion Hs as [|? ? Hs' Hall]; subst.
    constructor; [exact (IH n Hs')|].
    rewrite Forall_forall in *. intros y Hy. apply Hall.
    exact (firstn_subset _ _ _ Hy).
Qed.

Lemma head_prefix {A} (n : Z) (l : list A) : exists k, head n l = firstn k l.
Proof. unfold head. destruct (0 <=? n); eauto. Qed.

(** X23. When the scored population has at least 5 distinct recency values,
    or there is nothing to score, [get_risk_customers('CREDIT', limit)]
    returns; every customer it returns is one of the scored customers, has a
    credit sub-score of at most 2, a positive balance and priority 1; the
    customers come in descending order of balance; and with [limit >= 0] at
    most [limit] of them are returned. *)
Theorem credit_risk_customers {S : SortValues} {L : SortValuesLaws S}
    {P : ArbitraryRow} (now : Time) (db : Database) (limit : Z) :
  enough_recencies now db ->
  exists scores rows,
    get_customer_scores now db = Returned scores
    /\ get_risk_customers now db "CREDIT" limit = Returned rows
    /\ incl rows scores
    /\ Forall (fun r => C_Score (scored r) <= 2 /\ 0 < rec_balance r /\ Priority r = 1)
              rows
    /\ StronglySorted (fun a b => rec_balance b <= rec_balance a) rows
    /\ (0 <= limit -> count_rows rows <= limit).
Proof.
  intro Hrec.
  destruct (get_customer_scores_returns now db Hrec) as (scores & Hscores & _).
  pose proof (get_customer_scores_formatted _ _ Hscores) as Hfmt.
  exists scores. unfold get_risk_customers. rewrite Hscores. cbn [bind].
  eexists. split; [reflexivity|]. split; [reflexivity|].
  unfold risk_customers_of.
  destruct scores as [|r0 rest] eqn:Es.
  { repeat split; try constructor. - intros r []. - cbn. lia. }
  rewrite <- Es in *. clear Es r0 rest.
  change (String.eqb "CREDIT" "ALL") with false. cbv iota.
  set (risky := filter (fun r => contains "CREDIT" (Risk_Flag r)) scores).
  set (ordered := sort_values by_priority_then_balance risky).
  assert (Forall (fun r => In r scores /\ C_Score (scored r) <= 2
                           /\ 0 < rec_balance r /\ Priority r = 1) ordered) as Hall.
  { eapply Permutation_Forall; [apply sort_values_perm|].
    apply Forall_forall. intros r Hr. apply filter_In in Hr. destruct Hr as [Hin Hflag].
    rewrite Forall_forall in Hfmt. pose proof (Hfmt r Hin) as Hr.
    assert (Risk_Flag r = assign_risk_flag (scored r)
            /\ Priority r = assign_priority (scored r)) as [Hf Hp]
        by (rewrite Hr at 1 3; split; reflexivity).
    rewrite Hf in Hflag. split; [exact Hin|].
    rewrite Hp, (credit_flag_priority _ Hflag).
    apply credit_flag_iff in Hflag. unfold rec_balance. tauto. }
  assert (StronglySorted (fun a b => rec_balance b <= rec_balance a) ordered) as Hsorted.
  { assert (StronglySorted (fun a b => by_priority_then_balance a b = true) ordered)
      as Hs.
    { apply sort_values_sorted.
      - intros a b. rewrite !by_priority_then_balance_iff. lia.
      - intros a b c. rewrite !by_priority_then_balance_iff. lia. }
    revert Hall Hs. generalize ordered. intro l.
    induction l as [|x l IH]; intros Hall Hs; [constructor|].
    inversion Hall as [|? ? Hx Hall']; subst.
    inversion Hs as [|? ? Hs' Hfx]; subst.
    constructor; [exact (IH Hall' Hs')|].
    rewrite Forall_forall in *. intros y Hy.
    pose proof (Hfx y Hy) as Hxy. apply by_priority_then_balance_iff in Hxy.
    pose proof (Hall' y Hy). lia. }
  destruct (head_prefix limit ordered) as (k & Hk).
  split; [|split; [|split]].
  - intros r Hr. rewrite Hk in Hr. apply firstn_subset in Hr.
    rewrite Forall_forall in Hall. exact (proj1 (Hall r Hr)).
  - rewrite Hk. apply Forall_forall. intros r Hr. apply firstn_subset in Hr.
    rewrite Forall_forall in Hall. exact (proj2 (Hall r Hr)).
  - rewrite Hk. apply firstn_sorted. exact Hsorted.
  - intro Hlimit. unfold head, count_rows.
    replace (0 <=? limit) with true by (symmetry; apply Z.leb_le; exact Hlimit).
    pose proof (firstn_le_length (Z.to_nat limit) ordered). lia.
Qed.

Lemma credit_risk_customers_witness :
  enough_recencies 864000 (Some five_customer_ledger)
  /\ exists scores rows,
       get_customer_scores 864000 (Some five_customer_ledger) = Returned scores
       /\ get_risk_customers 864000 (Some five_customer_ledger) "CREDIT" 10
          = Returned rows
       /\ incl rows scores
       /\ Forall (fun r => C_Score (scored r) <= 2 /\ 0 < rec_balance r
                           /\ Priority r = 1) rows
       /\ StronglySorted (fun a b => rec_balance b <= rec_balance a) rows
       /\ (0 <= 10 -> count_rows rows <= 10).
Proof.
  assert (enough_recencies 864000 (Some five_customer_ledger)) as H
      by (right; vm_compute; lia).
  split; [exact H|].
  exact (@credit_risk_customers insertion_sort_values insertion_sort_laws first_row
           864000 (Some five_customer_ledger) 10 H).
Defined.

Example credit_risk_customers_run :
  match get_risk_customers 864000 (Some five_customer_ledger) "CREDIT" 10 with
  | Returned rows =>
      map (fun r => (c_customer_code (customer (scored r)), C_Score (scored r),
                     Segment r, Priority r)) rows
  | _ => []
  end = [("7", 1, "🚨 High Risk", 1)].
Proof. vm_compute. reflexivity. Qed.

Lemma sum_notnull_some {A} (f : A -> Z) (l : list A) :
  sum_notnull (map (fun a => Some (f a)) l) = sum_Z (map f l).
Proof.
  unfold sum_Z. induction l as [|a l IH]; [reflexivity|].
  cbn [map]. rewrite sum_notnull_cons, IH. reflexivity.
Qed.

Lemma grouped_sum {R} (key : R -> string) (f : R -> Z) (rows : list R) :
  sum_Z (map (fun g => sum_Z (map f (snd g))) (group_rows String.eqb key rows))
  = sum_Z (map f rows).
Proof.
  rewrite <- (sum_notnull_some f rows).
  rewrite <- (grouped_total key (fun a => Some (f a)) rows).
  f_equal. apply map_ext. intro g. symmetry. apply sum_notnull_some.
Qed.

Lemma count_rows_sum {A} (l : list A) : count_rows l = sum_Z (map (fun _ => 1) l).
Proof.
  unfold count_rows, sum_Z. induction l as [|a l IH]; [reflexivity|].
  cbn [List.length map fold_right]. lia.
Qed.

(** X24. The segment summary has one row per segment that occurs among the
    scored customers, and its rows account for every customer once: the
    counts add up to the number of scored customers, and, when each money
    column is within the range in which its sums are exact (absolute values
    adding up to at most 2^53), the sales, balance and profit totals add up
    to the totals over all scored customers. *)
Theorem segment_summary_accounts_for_everyone {S : SortValues}
    {L : SortValuesLaws S} (dt : ScoreDtypes) (scores : list ScoreRecord) :
  exactly_summable (map rec_sales scores) ->
  exactly_summable (map rec_balance scores) ->
  exactly_summable (map rec_profit scores) ->
  NoDup (map seg_segment (segment_summary_of dt scores))
  /\ (forall seg, In seg (map seg_segment (segment_summary_of dt scores))
                  <-> In seg (map Segment scores))
  /\ sum_Z (map seg_count (segment_summary_of dt scores)) = count_rows scores
  /\ sum_Z (map seg_total_sales (segment_summary_of dt scores))
     = sum_Z (map rec_sales scores)
  /\ sum_Z (map seg_total_balance (segment_summary_of dt scores))
     = sum_Z (map rec_balance scores)
  /\ sum_Z (map seg_total_profit (segment_summary_of dt scores))
     = sum_Z (map rec_profit scores).
Proof.
  intros Hsales Hbalance Hprofit.
  unfold segment_summary_of.
  destruct scores as [|r0 rest] eqn:Es.
  { repeat split; try constructor; intros []. }
  rewrite <- Es in *. clear Es r0 rest.
  set (groups := group_rows String.eqb Segment scores).
  assert (Permutation (map (summarize_segment dt) groups)
            (sort_values (fun a b => seg_avg_score b <=? seg_avg_score a)
               (map (summarize_segment dt)
                  (insertion_sort (fun a b => String.leb (fst a) (fst b)) groups))))
    as Hperm.
  { eapply perm_trans; [|apply sort_values_perm].
    apply Permutation_map. apply insertion_sort_perm. }
  assert (map seg_segment (map (summarize_segment dt) groups)
          = drop_duplicates_first String.eqb (map Segment scores)) as Hkeys.
  { rewrite map_map. cbn [seg_segment summarize_segment].
    apply (group_rows_keys String.eqb Segment scores). }
  assert (forall (int64 : bool) (f : ScoreRecord -> Z),
             exactly_summable (map f scores) ->
             sum_Z (map (fun g => sum_as int64 (map f (snd g))) groups)
             = sum_Z (map f scores)) as Hsum.
  { intros int64 f Hf. rewrite <- (grouped_sum Segment f scores). f_equal.
    apply map_ext_in. intros g Hg. rewrite (group_rows_selection _ _ _ Hg).
    apply sum_of_selection_exact. exact Hf. }
  split; [|split; [|split; [|split; [|split]]]].
  - eapply Permutation_NoDup; [apply Permutation_map; exact Hperm|].
    rewrite Hkeys. apply drop_duplicates_from_NoDup. apply String.eqb_refl.
  - intro seg. split; intro H.
    + apply (Permutation_in _ (Permutation_sym (Permutation_map seg_segment Hperm)))
        in H.
      rewrite Hkeys in H. exact (drop_duplicates_first_In _ _ _ H).
    + apply (Permutation_in _ (Permutation_map seg_segment Hperm)).
      rewrite Hkeys. apply drop_duplicates_first_covers. exact H.
  - rewrite <- (sum_Z_perm (Permutation_map seg_count Hperm)).
    rewrite map_map. cbn [seg_count summarize_segment].
    rewrite count_rows_sum, <- (grouped_sum Segment (fun _ => 1) scores).
    f_equal. apply map_ext. intro g. apply count_rows_sum.
  - rewrite <- (sum_Z_perm (Permutation_map seg_total_sales Hperm)).
    rewrite map_map. cbn [seg_total_sales summarize_segment].
    apply Hsum. exact Hsales.
  - rewrite <- (sum_Z_perm (Permutation_map seg_total_balance Hperm)).
    rewrite map_map. cbn [seg_total_balance summarize_segment].
    apply Hsum. exact Hbalance.
  - rewrite <- (sum_Z_perm (Permutation_map seg_total_profit Hperm)).
    rewrite map_map. cbn [seg_total_profit summarize_segment].
    apply Hsum. exact Hprofit.
Qed.

Lemma segment_summary_accounts_for_everyone_witness :
  (exactly_summable (map rec_sales (map format_row sample_scored))
   /\ exactly_summable (map rec_balance (map format_row sample_scored))
   /\ exactly_summable (map rec_profit (map format_row sample_scored)))
  /\ NoDup (map seg_segment
                (segment_summary_of (mkScoreDtypes true true true)
                                    (map format_row sample_scored)))
  /\ (forall seg,
         In seg (map seg_segment
                     (segment_summary_of (mkScoreDtypes true true true)
                                         (map format_row sample_scored)))
         <-> In seg (map Segment (map format_row sample_scored)))
  /\ sum_Z (map seg_count
                (segment_summary_of (mkScoreDtypes true true true)
                                    (map format_row sample_scored)))
     = count_rows (map format_row sample_scored)
  /\ sum_Z (map seg_total_sales
                (segment_summary_of (mkScoreDtypes true true true)
                                    (map format_row sample_scored)))
     = sum_Z (map rec_sales (map format_row sample_scored))
  /\ sum_Z (map seg_total_balance
                (segment_summary_of (mkScoreDtypes true true true)
                                    (map format_row sample_scored)))
     = sum_Z (map rec_balance (map format_row sample_scored))
  /\ sum_Z (map seg_total_profit
                (segment_summary_of (mkScoreDtypes true true true)
                                    (map format_row sample_scored)))
     = sum_Z (map rec_profit (map format_row sample_scored)).
Proof.
  assert (exactly_summable (map rec_sales (map format_row sample_scored))) as H1
      by (unfold exactly_summable; vm_compute; discriminate).
  assert (exactly_summable (map rec_balance (map format_row sample_scored))) as H2
      by (unfold exactly_summable; vm_compute; discriminate).
  assert (exactly_summable (map rec_profit (map format_row sample_scored))) as H3
      by (unfold exactly_summable; vm_compute; discriminate).
  split; [repeat split; assumption|].
  exact (@segment_summary_accounts_for_everyone insertion_sort_values
           insertion_sort_laws (mkScoreDtypes true true true)
           (map format_row sample_scored) H1 H2 H3).
Defined.
